(** * casper-context: a shallow embedding of the Babel transformation pass

    The plugin scans a program's syntax tree for variables whose name starts
    with a configured prefix (default [_$_]), registers them per owning
    component in a process-wide registry, and rewrites reads, writes and
    owner functions so the state is served by React state and context.

    The development follows the source files:
    - [JsString], [Js]: the JavaScript strings, values and completions
      (normal / thrown) the source computes with;
    - [Constants]: utils/constants.js;
    - [Registry]: the registry part of utils/utilityHelpers.js;
    - [Ast], [Path]: @babel/types builders and the NodePath interface of
      @babel/traverse, as far as the plugin uses them;
    - [Store]: the host, the per-file plugin state and the world a visitor
      runs in;
    - [Utility], [AstHelpers]: the rest of utils/utilityHelpers.js, and
      utils/astHelpers.js;
    - [Traverse]: the traversal of @babel/traverse;
    - [Visitors]: visitors/*.js and the visitor table of index.js;
    - [Post]: lifecycle/post.js;
    - [Scenario], [Properties]: sample files, and the notions the theorems
      are stated with;
    - then the theorems, one group per property. *)

From Stdlib Require Import String Ascii List ZArith Bool DecimalString.
Import ListNotations.
Local Open Scope string_scope.
Local Open Scope list_scope.
Set Warnings "-register-all".

(** ** JavaScript strings *)

Module JsString.

(** [s.startsWith(search)] *)
Definition startsWith (s search : string) : bool := String.prefix search s.

(** [s.endsWith(search)]: some tail of [s] is [search]. *)
Fixpoint endsWith (s search : string) : bool :=
  if String.eqb s search then true
  else match s with
       | EmptyString => false
       | String _ t => endsWith t search
       end.

(** [s.includes(search)] *)
Fixpoint includes (s search : string) : bool :=
  if String.prefix search s then true
  else match s with
       | EmptyString => false
       | String _ t => includes t search
       end.

(** [s.slice(n)] for [0 <= n]. *)
Fixpoint slice (n : nat) (s : string) : string :=
  match n, s with
  | O, _ => s
  | S k, String _ t => slice k t
  | S _, EmptyString => EmptyString
  end.

(** [s.replace(pattern, replacement)] with a string pattern: the first
    occurrence only.  The replacements the source passes hold no [$]. *)
Fixpoint replace (s pattern replacement : string) : string :=
  if String.prefix pattern s
  then (replacement ++ slice (String.length pattern) s)%string
  else match s with
       | EmptyString => EmptyString
       | String c t => String c (replace t pattern replacement)
       end.

Definition isUpperAscii (c : ascii) : bool :=
  let n := nat_of_ascii c in Nat.leb 65 n && Nat.leb n 90.

Definition isLowerAscii (c : ascii) : bool :=
  let n := nat_of_ascii c in Nat.leb 97 n && Nat.leb n 122.

Definition isAscii (c : ascii) : bool := Nat.ltb (nat_of_ascii c) 128.

(** [c.toLowerCase()] / [c.toUpperCase()] on one character of ASCII text:
    the letters [A]-[Z] and [a]-[z] are mapped, every other character is
    left as it is.  That is what [String.prototype.toLowerCase] and
    [toUpperCase] do on ASCII; outside ASCII they map letters too, which
    these two do not follow. *)
Definition toLowerCase (c : ascii) : ascii :=
  if isUpperAscii c then ascii_of_nat (nat_of_ascii c + 32) else c.

Definition toUpperCase (c : ascii) : ascii :=
  if isLowerAscii c then ascii_of_nat (nat_of_ascii c - 32) else c.

(** [/^[A-Z]/.test(s)] *)
Definition startsUpper (s : string) : bool :=
  match s with
  | EmptyString => false
  | String c _ => isUpperAscii c
  end.

(** [s[0].toLowerCase() + s.slice(1)]; [s[0]] is [undefined] on the empty
    string and the method call on it raises a TypeError: [None]. *)
Definition lowerFirst (s : string) : option string :=
  match s with
  | EmptyString => None
  | String c t => Some (String (toLowerCase c) t)
  end.

Definition upperFirst (s : string) : option string :=
  match s with
  | EmptyString => None
  | String c t => Some (String (toUpperCase c) t)
  end.

(** [arr.includes(x)] on an array of strings. *)
Definition arrIncludes (l : list string) (x : string) : bool :=
  existsb (String.eqb x) l.

End JsString.

(** ** JavaScript values and completions *)

Module Js.

(** Plain JavaScript data: what registry defaults and syntax nodes are made
    of.  A syntax node is an [Obj] whose ["type"] field names its kind.
    The numbers are the integers: a literal such as [1.5] has no value
    here. *)
Inductive value : Type :=
| Undefined
| Null
| Bool (b : bool)
| Num (z : Z)
| Str (s : string)
| Arr (items : list value)
| Obj (fields : list (string * value)).

Inductive JsError : Type :=
| TypeError (what : string)
| ReferenceError (name : string)
| IOError (what : string).

(** The outcome of evaluating a piece of code: it returns or it throws. *)
Inductive completion (A : Type) : Type :=
| Normal (a : A)
| Throw (e : JsError).
Arguments Normal {A} a.
Arguments Throw {A} e.

(** Code that reads and mutates a store [S] and may throw.  A mutation made
    before a throw stays, as in JavaScript. *)
Definition M (S A : Type) : Type := S -> completion A * S.

Definition ret {S A} (a : A) : M S A := fun s => (Normal a, s).

Definition bind {S A B} (m : M S A) (k : A -> M S B) : M S B :=
  fun s => match m s with
           | (Normal a, s') => k a s'
           | (Throw e, s') => (Throw e, s')
           end.

Definition throw {S A} (e : JsError) : M S A := fun s => (Throw e, s).

Definition get {S} : M S S := fun s => (Normal s, s).

Definition put {S} (s : S) : M S unit := fun _ => (Normal tt, s).

Definition modify {S} (f : S -> S) : M S unit := fun s => (Normal tt, f s).

(** [try { m } catch (e) { h e }] *)
Definition tryCatch {S A} (m : M S A) (h : JsError -> M S A) : M S A :=
  fun s => match m s with
           | (Normal a, s') => (Normal a, s')
           | (Throw e, s') => h e s'
           end.

(** Run code written against a part [T] of the store inside the whole. *)
Definition zoom {S T A} (proj : S -> T) (upd : T -> S -> S) (m : M T A) : M S A :=
  fun s => match m (proj s) with
           | (c, t') => (c, upd t' s)
           end.

Definition lift {S A} (c : completion A) : M S A := fun s => (c, s).

(** Sequencing of pure steps that may throw. *)
Definition andThen {A B} (c : completion A) (k : A -> completion B) : completion B :=
  match c with
  | Normal a => k a
  | Throw e => Throw e
  end.

(** [try { c } catch (e) { }] around a pure step: the value, or [fallback]. *)
Definition orElse {A} (c : completion A) (fallback : A) : A :=
  match c with
  | Normal a => a
  | Throw _ => fallback
  end.

Definition returns {A} (c : completion A) : bool :=
  match c with
  | Normal _ => true
  | Throw _ => false
  end.

Definition truthy (v : value) : bool :=
  match v with
  | Undefined | Null => false
  | Bool b => b
  | Num z => negb (Z.eqb z 0)
  | Str s => negb (String.eqb s "")
  | Arr _ | Obj _ => true
  end.

Fixpoint lookup (k : string) (fields : list (string * value)) : value :=
  match fields with
  | [] => Undefined
  | (k', v) :: rest => if String.eqb k k' then v else lookup k rest
  end.

(** [v.k]: reading a property of [undefined] or [null] raises a TypeError;
    a missing property reads as [undefined]. *)
Definition prop (k : string) (v : value) : completion value :=
  match v with
  | Undefined | Null => Throw (TypeError k)
  | Obj fields => Normal (lookup k fields)
  | _ => Normal Undefined
  end.

(** [v?.k] *)
Definition optProp (k : string) (v : value) : value :=
  match v with
  | Obj fields => lookup k fields
  | _ => Undefined
  end.

(** [obj[k] = v] on own properties: an existing key keeps its place, a new
    key goes last. *)
Fixpoint setField (k : string) (v : value) (fields : list (string * value))
  : list (string * value) :=
  match fields with
  | [] => [(k, v)]
  | (k', v') :: rest =>
      if String.eqb k k' then (k', v) :: rest else (k', v') :: setField k v rest
  end.

Definition isDigit (c : ascii) : bool :=
  let n := nat_of_ascii c in Nat.leb 48 n && Nat.leb n 57.

Fixpoint digitsValue (s : string) (acc : Z) : option Z :=
  match s with
  | EmptyString => Some acc
  | String c t =>
      if isDigit c
      then digitsValue t (10 * acc + Z.of_nat (nat_of_ascii c - 48))
      else None
  end.

(** The array index a property key stands for: the key is the decimal
    digits, with no leading zero, of a number below [2^32 - 1]. *)
Definition arrayIndex (k : string) : option Z :=
  match k with
  | EmptyString => None
  | String c t =>
      if Ascii.eqb c "0" && negb (String.eqb t "") then None
      else match digitsValue k 0 with
           | Some z => if Z.ltb z 4294967295 then Some z else None
           | None => None
           end
  end.

(** A new key that is the array index [i], put among the array indices
    in ascending order, in front of the other keys. *)
Fixpoint insertIndex (i : Z) (k : string) (v : value)
    (fields : list (string * value)) : list (string * value) :=
  match fields with
  | [] => [(k, v)]
  | (k', v') :: rest =>
      match arrayIndex k' with
      | Some j =>
          if Z.ltb j i then (k', v') :: insertIndex i k v rest
          else (k, v) :: fields
      | None => (k, v) :: fields
      end
  end.

(** [obj[k] = v] on a plain object, one made by [{}], the fields in the
    order in which the keys are enumerated.  The key [__proto__] names
    the accessor of [Object.prototype]: the assignment adds no own
    property (it sets the prototype when [v] is an object or [null], and
    nothing here reads the prototype).  An existing key keeps its place;
    a new key that is an array index goes among the array indices, which
    come first; any other new key goes last. *)
Definition assign (k : string) (v : value) (fields : list (string * value))
  : list (string * value) :=
  if String.eqb k "__proto__" then fields
  else if existsb (fun kv => String.eqb k (fst kv)) fields
  then setField k v fields
  else match arrayIndex k with
       | Some i => insertIndex i k v fields
       | None => fields ++ [(k, v)]
       end.

End Js.

Declare Scope js_scope.
Delimit Scope js_scope with js.
Notation "x <- m ;; k" := (Js.bind m (fun x => k))
  (at level 61, m at next level, right associativity) : js_scope.
Notation "m ;;; k" := (Js.bind m (fun _ => k))
  (at level 61, right associativity) : js_scope.
Notation "x <~ c ;; k" := (Js.andThen c (fun x => k))
  (at level 61, c at next level, right associativity) : js_scope.

(** ** utils/constants.js *)

Module Constants.

Definition USE_STRICT := "use strict".
Definition GLOBAL_PREFIX := "_$_".
Definition GBL_CONTEXT_JS := "gblContext.js".
Definition _CCTX_CMP_NAME_PREFIX := "_$_ctx_".
Definition _CCTX_ := "CTX_".
Definition REACT_IMPORT_CORE_NAME := "react".
Definition REACT_IMPORT_USE_STATE_HOOKS_NAME := "useState".
Definition _CCTX_REACT := "react".
Definition _CCTX_USE_CONTEXT := "useContext".
Definition _CCTX_CREATE_ELEMENT := "createElement".
Definition _CCTX_PROVIDER := "Provider".
Definition _CCTX_VALUE := "value".
Definition IDENTIFIER := "Identifier".
Definition NUMERIC_LITERAL := "NumericLiteral".
Definition STRING_LITERAL := "StringLiteral".
Definition BOOLEAN_LITERAL := "BooleanLiteral".
Definition ARRAY_EXPRESSION := "ArrayExpression".
Definition OBJECT_EXPRESSION := "ObjectExpression".
Definition VARIABLE_DECLARATOR := "VariableDeclarator".
Definition ASSIGNMENT_EXPRESSION := "AssignmentExpression".
Definition UPDATE_EXPRESSION := "UpdateExpression".
Definition _CCTX_ID := "id".
Definition _CCTX_LEFT := "left".
Definition _CCTX_ARGUMENT := "argument".
Definition _CCTX_KEY := "key".
Definition _CCTX_BODY := "body".
Definition _CCTX_VAR := "var".
Definition _CCTX_CONST := "const".
Definition _CCTX_REQUIRE := "require".
Definition _CCTX_UNDUS_CORE_REACT := "_react".
Definition _CCTX_UNDUS_CORE_GBL_CONTEXT := "_gblContext".
Definition PREV_STATE := "prevState".
Definition _CCTX_SET := "set".
Definition ANONYMOUS_FUNCTION := "anonymous_function".
Definition NODE_MODULES := "node_modules".
Definition FOLDER_DIST := "/dist/".
Definition FOLDER_BUILD := "/build/".
Definition CASPER_READ_ONLY_TYPE := "readonly".
Definition _CCTX_EMPTY := "".
Definition _CCTX_UNDEFINED := "undefined".
Definition NO_FILE := "noFile".

End Constants.

(** ** The registry (utils/utilityHelpers.js) *)

Module Registry.
Import Js Constants.
Local Open Scope js_scope.

(** One registry entry, [{ varNames, ctxName, defaults }].  [defaults] is
    an object used as a map from variable names, kept here in insertion
    order; the names are identifier names other than [__proto__], which an
    assignment to a property treats as the prototype. *)
Record entry : Type := mkEntry {
  varNames : list string;
  ctxName : option string;
  defaults : list (string * value)
}.

(** The process-wide [virtualRegistry] object: own string keys in insertion
    order, which is the order [Object.entries] and [Object.keys] give. *)
Definition registry : Type := list (string * entry).

Fixpoint find (k : string) (r : registry) : option entry :=
  match r with
  | [] => None
  | (k', e) :: rest => if String.eqb k k' then Some e else find k rest
  end.

(** [virtualRegistry[k] = e] *)
Fixpoint store (k : string) (e : entry) (r : registry) : registry :=
  match r with
  | [] => [(k, e)]
  | (k', e') :: rest =>
      if String.eqb k k' then (k', e) :: rest else (k', e') :: store k e rest
  end.

Definition newEntry : entry := mkEntry [] None [].

Definition registerVariable_body (componentNameHash varName : string)
    (defaultValue : value) : M registry (option string) :=
  r <- get ;;
  (match find componentNameHash r with
   | None => put (store componentNameHash newEntry r)
   | Some _ => ret tt
   end) ;;;
  r <- get ;;
  match find componentNameHash r with
  | None => throw (TypeError "varNames")
  | Some e =>
      if JsString.arrIncludes (varNames e) varName then ret (ctxName e)
      else
        let ctx := (_CCTX_CMP_NAME_PREFIX ++ componentNameHash)%string in
        let e1 := mkEntry (varNames e) (Some ctx) (defaults e) in
        let e2 := mkEntry (varNames e1 ++ [varName]) (ctxName e1) (defaults e1) in
        let newDefaults := setField varName defaultValue (defaults e2) in
        let e3 := mkEntry (varNames e2) (ctxName e2) newDefaults in
        put (store componentNameHash e3 r) ;;;
        ret (Some ctx)
  end.

(** [registerVariable(componentNameHash, varName, defaultValue,
    virtualRegistry)]; [None] is the [null] or [undefined] it can return. *)
Definition registerVariable (componentNameHash varName : string)
    (defaultValue : value) : M registry (option string) :=
  tryCatch (registerVariable_body componentNameHash varName defaultValue)
           (fun _ => ret None).

Fixpoint findContextByVar_loop (varName : string) (entries : registry)
  : option string :=
  match entries with
  | [] => None
  | (key, ctxData) :: rest =>
      if JsString.arrIncludes (varNames ctxData) varName then Some key
      else findContextByVar_loop varName rest
  end.

(** [findContextByVar(varName, virtualRegistry)]: the KEY of the first
    entry, in insertion order, that lists [varName]. *)
Definition findContextByVar (varName : string) : M registry (option string) :=
  tryCatch (r <- get ;; ret (findContextByVar_loop varName r))
           (fun _ => ret None).

Fixpoint resetVarsForFile_loop (suffix : string) (r : registry) : registry :=
  match r with
  | [] => []
  | (key, e) :: rest =>
      (if JsString.endsWith key suffix
       then (key, mkEntry [] (ctxName e) [])
       else (key, e)) :: resetVarsForFile_loop suffix rest
  end.

(** [resetVarsForFile(virtualRegistry, fileHash)] *)
Definition resetVarsForFile (fileHash : string) : M registry unit :=
  tryCatch (modify (resetVarsForFile_loop ("_" ++ fileHash)%string))
           (fun _ => ret tt).

(** [varName] is listed by the entry stored under [key]. *)
Definition registered (key varName : string) (r : registry) : bool :=
  match find key r with
  | Some e => JsString.arrIncludes (varNames e) varName
  | None => false
  end.

End Registry.

(** ** Syntax nodes: the builders and checks of @babel/types *)

Module Ast.
Import Js Constants.

(** A node is an object whose first field is its ["type"]; the other
    fields come in the order Babel traverses them. *)
Definition node (ty : string) (fields : list (string * value)) : value :=
  Obj (("type", Str ty) :: fields).

Definition typeOf (v : value) : option string :=
  match optProp "type" v with
  | Str ty => Some ty
  | _ => None
  end.

(** [t.isX(v)]: false on [null] and [undefined]. *)
Definition isType (ty : string) (v : value) : bool :=
  match typeOf v with
  | Some ty' => String.eqb ty' ty
  | None => false
  end.

Definition isIdentifier := isType "Identifier".
Definition isVariableDeclaration := isType "VariableDeclaration".
Definition isVariableDeclarator := isType "VariableDeclarator".
Definition isAssignmentExpression := isType "AssignmentExpression".
Definition isExpressionStatement := isType "ExpressionStatement".
Definition isBlockStatement := isType "BlockStatement".
Definition isObjectProperty := isType "ObjectProperty".
Definition isFunctionDeclaration := isType "FunctionDeclaration".
Definition isFunctionExpression := isType "FunctionExpression".
Definition isArrowFunctionExpression := isType "ArrowFunctionExpression".
Definition isClassDeclaration := isType "ClassDeclaration".
Definition isImportDeclaration := isType "ImportDeclaration".
Definition isJSXElement := isType "JSXElement".

(** [t.isFunction(v)] *)
Definition isFunction (v : value) : bool :=
  isFunctionDeclaration v || isFunctionExpression v
  || isArrowFunctionExpression v || isType "ObjectMethod" v
  || isType "ClassMethod" v || isType "ClassPrivateMethod" v.

(** [t.isIdentifier(v, { name })] *)
Definition isIdentifierNamed (name : string) (v : value) : bool :=
  isIdentifier v &&
  match optProp "name" v with
  | Str n => String.eqb n name
  | _ => false
  end.

(** [t.isStringLiteral(v, { value })] *)
Definition isStringLiteralOf (s : string) (v : value) : bool :=
  isType "StringLiteral" v &&
  match optProp "value" v with
  | Str s' => String.eqb s' s
  | _ => false
  end.

Definition identifier (name : string) : value :=
  node "Identifier" [("name", Str name)].
Definition stringLiteral (s : string) : value :=
  node "StringLiteral" [("value", Str s)].
Definition numericLiteral (z : Z) : value :=
  node "NumericLiteral" [("value", Num z)].
Definition booleanLiteral (b : bool) : value :=
  node "BooleanLiteral" [("value", Bool b)].
Definition nullLiteral : value := node "NullLiteral" [].
Definition memberExpression (object property : value) (computed : bool) : value :=
  node "MemberExpression"
       [("object", object); ("property", property); ("computed", Bool computed)].
Definition callExpression (callee : value) (arguments : list value) : value :=
  node "CallExpression" [("callee", callee); ("arguments", Arr arguments)].
Definition sequenceExpression (expressions : list value) : value :=
  node "SequenceExpression" [("expressions", Arr expressions)].
Definition arrayExpression (elements : list value) : value :=
  node "ArrayExpression" [("elements", Arr elements)].
Definition objectExpression (properties : list value) : value :=
  node "ObjectExpression" [("properties", Arr properties)].
Definition objectProperty (key val : value) (computed shorthand : bool) : value :=
  node "ObjectProperty"
       [("key", key); ("value", val);
        ("computed", Bool computed); ("shorthand", Bool shorthand)].
Definition spreadElement (argument : value) : value :=
  node "SpreadElement" [("argument", argument)].
Definition arrowFunctionExpression (params : list value) (body : value) : value :=
  node "ArrowFunctionExpression" [("params", Arr params); ("body", body)].
Definition functionExpression (id : value) (params : list value) (body : value) : value :=
  node "FunctionExpression" [("id", id); ("params", Arr params); ("body", body)].
Definition functionDeclaration (id : value) (params : list value) (body : value) : value :=
  node "FunctionDeclaration" [("id", id); ("params", Arr params); ("body", body)].
Definition blockStatement (body : list value) : value :=
  node "BlockStatement" [("body", Arr body)].
Definition expressionStatement (expression : value) : value :=
  node "ExpressionStatement" [("expression", expression)].
Definition returnStatement (argument : value) : value :=
  node "ReturnStatement" [("argument", argument)].
Definition variableDeclaration (kind : string) (declarations : list value) : value :=
  node "VariableDeclaration" [("kind", Str kind); ("declarations", Arr declarations)].
Definition variableDeclarator (id init : value) : value :=
  node "VariableDeclarator" [("id", id); ("init", init)].
Definition arrayPattern (elements : list value) : value :=
  node "ArrayPattern" [("elements", Arr elements)].
Definition assignmentExpression (operator : string) (left right : value) : value :=
  node "AssignmentExpression"
       [("operator", Str operator); ("left", left); ("right", right)].
Definition updateExpression (operator : string) (prefix : bool) (argument : value) : value :=
  node "UpdateExpression"
       [("operator", Str operator); ("prefix", Bool prefix); ("argument", argument)].
Definition binaryExpression (operator : string) (left right : value) : value :=
  node "BinaryExpression"
       [("operator", Str operator); ("left", left); ("right", right)].
Definition program (body : list value) : value :=
  node "Program" [("body", Arr body)].
(** [t.forOfStatement(left, right, body)] *)
Definition forOfStatement (left right body : value) : value :=
  node "ForOfStatement"
       [("left", left); ("right", right); ("body", body); ("await", Bool false)].
(** [t.directive(t.directiveLiteral(v))]: a directive of the prologue of a
    file or of a function, such as ['use strict';].  The parser puts the
    directives into the field [directives] of the [Program] or of the
    block, in front of the statements, which are its [body]. *)
Definition directive (v : string) : value :=
  node "Directive" [("value", node "DirectiveLiteral" [("value", Str v)])].
(** [t.program(body, directives)] *)
Definition programWith (body directives : list value) : value :=
  node "Program" [("body", Arr body); ("directives", Arr directives)].
Definition jsxIdentifier (name : string) : value :=
  node "JSXIdentifier" [("name", Str name)].
Definition jsxAttribute (name val : value) : value :=
  node "JSXAttribute" [("name", name); ("value", val)].
Definition jsxOpeningElement (name : value) (attributes : list value) : value :=
  node "JSXOpeningElement" [("name", name); ("attributes", Arr attributes)].
Definition jsxClosingElement (name : value) : value :=
  node "JSXClosingElement" [("name", name)].
Definition jsxExpressionContainer (expression : value) : value :=
  node "JSXExpressionContainer" [("expression", expression)].
Definition jsxElement (openingElement closingElement : value) (children : list value) : value :=
  node "JSXElement"
       [("openingElement", openingElement); ("closingElement", closingElement);
        ("children", Arr children)].

End Ast.

(** ** NodePath: a node with the way up to the root *)

Module Path.
Import Js.

(** One step up: the focus is the value of a field of an object, or an
    item of an array. *)
Inductive frame : Type :=
| InField (before : list (string * value)) (key : string)
          (after : list (string * value))
| InItem (before after : list value).

Definition plug1 (v : value) (f : frame) : value :=
  match f with
  | InField before key after => Obj (before ++ (key, v) :: after)
  | InItem before after => Arr (before ++ v :: after)
  end.

(** The whole tree around a focus. *)
Definition plug (v : value) (fs : list frame) : value := fold_left plug1 fs v.

(** A NodePath: [focus] is [path.node], [frames] leads up to the root. *)
Record path : Type := mkPath {
  focus : value;
  frames : list frame
}.

(** The paths of the enclosing nodes, nearest first.  An array is a
    container, not a node: it gives no path of its own. *)
Fixpoint ancestorsFrom (v : value) (fs : list frame) : list path :=
  match fs with
  | [] => []
  | InField before key after :: rest =>
      let parent := Obj (before ++ (key, v) :: after) in
      mkPath parent rest :: ancestorsFrom parent rest
  | InItem before after :: rest =>
      ancestorsFrom (Arr (before ++ v :: after)) rest
  end.

Definition ancestors (p : path) : list path :=
  ancestorsFrom (focus p) (frames p).

(** [path.parentPath] *)
Definition parentPath (p : path) : option path := hd_error (ancestors p).

(** [path.parent]: [undefined] at the root. *)
Definition parent (p : path) : value :=
  match parentPath p with
  | Some q => focus q
  | None => Undefined
  end.

(** [path.parentKey]: the parent's field the node sits in (for an item of
    a list, the field that holds the list). *)
Definition parentKey (p : path) : option string :=
  match frames p with
  | InField _ key _ :: _ => Some key
  | InItem _ _ :: InField _ key _ :: _ => Some key
  | _ => None
  end.

(** [path.findParent(callback)] *)
Definition findParent (callback : path -> bool) (p : path) : option path :=
  List.find callback (ancestors p).

(** [path.getFunctionParent()] *)
Definition getFunctionParent (p : path) : option path :=
  findParent (fun q => Ast.isFunction (focus q)) p.

(** [path.get(key)] *)
Definition getChild (key : string) (p : path) : option path :=
  match focus p with
  | Obj fields =>
      (fix go (before after : list (string * value)) : option path :=
         match after with
         | [] => None
         | (k, v) :: rest =>
             if String.eqb k key
             then Some (mkPath v (InField before k rest :: frames p))
             else go (before ++ [(k, v)]) rest
         end) [] fields
  | _ => None
  end.

(** [path.replaceWith(node)] *)
Definition replaceWith (n : value) (p : path) : path := mkPath n (frames p).

Definition oneOf (ty : string) (l : list string) : bool :=
  existsb (String.eqb ty) l.

Definition keyIs (p : path) (k : string) : bool :=
  match parentKey p with
  | Some k' => String.eqb k' k
  | None => false
  end.

(** [t.isReferenced(node, parent, grandparent)] of @babel/types, by the
    position of the node in its parent. *)
Definition isReferenced (p : path) : bool :=
  let par := parent p in
  let computed := truthy (optProp "computed" par) in
  let grand := match parentPath p with
               | Some q => parent q
               | None => Undefined
               end in
  match Ast.typeOf par with
  | None => true
  | Some ty =>
      if oneOf ty ["MemberExpression"; "OptionalMemberExpression"]
      then (if keyIs p "property" then computed else keyIs p "object")
      else if oneOf ty ["JSXMemberExpression"] then keyIs p "object"
      else if oneOf ty ["VariableDeclarator"] then keyIs p "init"
      else if oneOf ty ["ArrowFunctionExpression"] then keyIs p "body"
      else if oneOf ty ["ClassMethod"; "ClassPrivateMethod"; "ObjectMethod"]
      then (if keyIs p "key" then computed else false)
      else if oneOf ty ["ObjectProperty"]
      then (if keyIs p "key" then computed
            else negb (Ast.isType "ObjectPattern" grand))
      else if oneOf ty ["ClassProperty"; "ClassAccessorProperty";
                        "TSPropertySignature"]
      then (if keyIs p "key" then computed else true)
      else if oneOf ty ["ClassPrivateProperty"; "ObjectTypeProperty"]
      then negb (keyIs p "key")
      else if oneOf ty ["ClassDeclaration"; "ClassExpression"]
      then keyIs p "superClass"
      else if oneOf ty ["AssignmentExpression"; "AssignmentPattern"]
      then keyIs p "right"
      else if oneOf ty ["ExportSpecifier"]
      then (if truthy (optProp "source" grand) then false else keyIs p "local")
      else if oneOf ty ["TSEnumMember"] then negb (keyIs p "id")
      else if oneOf ty ["PrivateName"; "LabeledStatement"; "CatchClause";
                        "RestElement"; "BreakStatement"; "ContinueStatement";
                        "FunctionDeclaration"; "FunctionExpression";
                        "ExportNamespaceSpecifier"; "ExportDefaultSpecifier";
                        "ImportDefaultSpecifier"; "ImportNamespaceSpecifier";
                        "ImportSpecifier"; "ImportAttribute"; "JSXAttribute";
                        "ObjectPattern"; "ArrayPattern"; "MetaProperty"]
      then false
      else true
  end.

(** [path.isReferencedIdentifier()] on an [Identifier] node. *)
Definition isReferencedIdentifier (p : path) : bool :=
  Ast.isIdentifier (focus p) && isReferenced p.

Definition insertAt {A : Type} (i : nat) (x : A) (l : list A) : list A :=
  firstn i l ++ x :: skipn i l.

(** [block.body.splice(index, 0, decl)] *)
Definition spliceBlock (index : nat) (decl : value) (block : value) : value :=
  match block with
  | Obj fields =>
      Obj (map (fun kv : string * value =>
                  let (k, v) := kv in
                  if String.eqb k "body"
                  then match v with
                       | Arr l => (k, Arr (insertAt index decl l))
                       | _ => (k, v)
                       end
                  else (k, v)) fields)
  | _ => block
  end.

Definition spliceBodyField (index : nat) (decl : value) (kv : string * value)
  : string * value :=
  let (k, v) := kv in
  if String.eqb k "body" then (k, spliceBlock index decl v) else (k, v).

(** The same splice seen from a node below the function: [belowRev] are
    the frames between the function and the focus, outermost first. *)
Definition spliceInFrames (index : nat) (decl : value) (belowRev : list frame)
  : list frame :=
  match belowRev with
  | InField fb k fa :: rest =>
      if String.eqb k "body"
      then match rest with
           | InField bb k2 ba :: InItem b a :: deeper =>
               if String.eqb k2 "body"
               then InField fb k fa :: InField bb k2 ba
                      :: (if Nat.leb index (length b)
                          then InItem (insertAt index decl b) a
                          else InItem b (insertAt (index - length b - 1) decl a))
                      :: deeper
               else belowRev
           | _ => belowRev
           end
      else InField (map (spliceBodyField index decl) fb) k
                   (map (spliceBodyField index decl) fa) :: rest
  | _ => belowRev
  end.

(** Splice [decl] into the statement list of the body of the enclosing
    function that has [depth] frames above it, as seen from [p]. *)
Definition spliceOwnerBody (depth index : nat) (decl : value) (p : path) : path :=
  let n := length (frames p) - depth in
  match n with
  | O =>
      match focus p with
      | Obj fields => mkPath (Obj (map (spliceBodyField index decl) fields)) (frames p)
      | _ => p
      end
  | _ =>
      let below := firstn n (frames p) in
      let above := skipn n (frames p) in
      mkPath (focus p) (rev (spliceInFrames index decl (rev below)) ++ above)
  end.

(** [path.unshiftContainer(key, node)] *)
Definition unshiftContainer (key : string) (n : value) (target : value)
  : completion value :=
  match target with
  | Obj fields =>
      match lookup key fields with
      | Arr l => Normal (Obj (setField key (Arr (n :: l)) fields))
      | _ => Throw (TypeError "unshiftContainer")
      end
  | _ => Throw (TypeError "unshiftContainer")
  end.

End Path.

(** ** The plugin's stores *)

Module Store.
Import Js Path Registry.

(** [state.importState], as [importStateResolver] fills it. *)
Record ImportState : Type := mkImportState {
  reactId : value;
  useStateId : value;
  isDefault : bool;
  isNamed : bool;
  isNamespace : bool;
  reactImportPath : value
}.

(** What the plugin is given from outside the repository. *)
Record Host : Type := mkHost {
  (** the first 8 hex digits of the md5 digest of [path.resolve(fileName)];
      [None] when resolving or hashing throws *)
  pathHash : string -> option string;
  (** [path.join(opts.root || process.cwd(), opts.sourceDir)] when the
      plugin option [sourceDir] is set *)
  srcRoot : option string;
  (** whether the plugin's modules run as sloppy scripts, where assigning
      to an undeclared name creates a global; as ES modules (strict code)
      that assignment throws a ReferenceError *)
  implicitGlobals : bool;
  (** [CONTEXT_FILE_PATH]: the generated context module under the working
      directory *)
  contextFilePath : string;
  (** the [prefix] of the configuration [readCasperConfig] returns *)
  configuredPrefix : string
}.

(** The per-file plugin [state]. *)
Record PluginState : Type := mkState {
  filename : option string;
  casperConfig : option string;        (* [state.casperConfig.prefix] *)
  importState : option ImportState;
  needsGblContext : bool;
  needUseStateImport : bool
}.

(** What a visitor did to the visited path: nothing; an assignment to a
    field of [path.node]; [path.replaceWith(...)]; [path.remove()]; or
    [path.parentPath.remove()]. *)
Inductive Effect : Type :=
| Untouched | Mutated | Rewritten | SelfRemoved | ParentRemoved.

(** Everything a visitor reads or mutates: the registry, the file state,
    the tree around the visited node, whether the visited node is in the
    plugin's [seen] set, and what the visit did to the path. *)
Record World : Type := mkWorld {
  host : Host;
  virtualRegistry : registry;
  state : PluginState;
  here : path;
  seen : bool;
  effect : Effect
}.

Definition setRegistry (r : registry) (w : World) : World :=
  mkWorld (host w) r (state w) (here w) (seen w) (effect w).
Definition setState (st : PluginState) (w : World) : World :=
  mkWorld (host w) (virtualRegistry w) st (here w) (seen w) (effect w).
Definition setHere (p : path) (w : World) : World :=
  mkWorld (host w) (virtualRegistry w) (state w) p (seen w) (effect w).
Definition setSeen (b : bool) (w : World) : World :=
  mkWorld (host w) (virtualRegistry w) (state w) (here w) b (effect w).
Definition setEffect (e : Effect) (w : World) : World :=
  mkWorld (host w) (virtualRegistry w) (state w) (here w) (seen w) e.

Definition setNeedsGblContext (b : bool) (st : PluginState) : PluginState :=
  mkState (filename st) (casperConfig st) (importState st) b (needUseStateImport st).
Definition setNeedUseStateImport (b : bool) (st : PluginState) : PluginState :=
  mkState (filename st) (casperConfig st) (importState st) (needsGblContext st) b.
Definition setCasperConfig (c : option string) (st : PluginState) : PluginState :=
  mkState (filename st) c (importState st) (needsGblContext st) (needUseStateImport st).
Definition setImportState (i : option ImportState) (st : PluginState) : PluginState :=
  mkState (filename st) (casperConfig st) i (needsGblContext st) (needUseStateImport st).

(** Registry code run on the world's registry. *)
Definition onRegistry {A} (m : M registry A) : M World A :=
  zoom virtualRegistry setRegistry m.

End Store.

(** ** utils/utilityHelpers.js, the part that is not the registry *)

Module Utility.
Import Js Constants Ast Path Registry Store.
Local Open Scope js_scope.

(** [getFilePathHASH(fileName)] *)
Definition getFilePathHASH (h : Host) (fileName : string) : string :=
  match pathHash h fileName with
  | Some digest => digest
  | None => NO_FILE
  end.

(** [isExcludeFile(file, opts)]: true when the file is to be PROCESSED. *)
Definition isExcludeFile (h : Host) (file : string) : bool :=
  if JsString.includes file NODE_MODULES then false
  else if JsString.includes file FOLDER_DIST || JsString.includes file FOLDER_BUILD
  then false
  else if JsString.includes file GBL_CONTEXT_JS then false
  else match srcRoot h with
       | Some root => JsString.startsWith file root
       | None => true
       end.

(** [getInsertionIndex(body, t)] *)
Definition getInsertionIndex (body : list value) : nat :=
  match body with
  | first :: _ =>
      if isExpressionStatement first
         && isStringLiteralOf USE_STRICT (optProp "expression" first)
      then 1 else 0
  | [] => 0
  end.

(** The items of an array value; calling an array method on anything else
    throws. *)
Definition items (what : string) (v : value) : completion (list value) :=
  match v with
  | Arr l => Normal l
  | _ => Throw (TypeError what)
  end.

Definition isContextInstanceDeclare_body (bodyNode : value) (varName : string)
  : completion bool :=
  match prop "body" bodyNode with
  | Throw e => Throw e
  | Normal body =>
      match items "some" body with
      | Throw e => Throw e
      | Normal stmts =>
          (fix some (l : list value) : completion bool :=
             match l with
             | [] => Normal false
             | stmt :: rest =>
                 if negb (isVariableDeclaration stmt) then some rest
                 else
                   match items "some" (optProp "declarations" stmt) with
                   | Throw e => Throw e
                   | Normal decls =>
                       if existsb (fun decl =>
                                     isIdentifierNamed varName (optProp "id" decl))
                                  decls
                       then Normal true else some rest
                   end
             end) stmts
      end
  end.

(** [isContextInstanceDeclare(path, t, varName)]; a caught error gives
    [undefined], which the caller reads as false. *)
Definition isContextInstanceDeclare (bodyNode : value) (varName : string) : bool :=
  match isContextInstanceDeclare_body bodyNode varName with
  | Normal b => b
  | Throw _ => false
  end.

(** [resolveReact(path, t, state)]; [Undefined] when an error is caught. *)
Definition resolveReact (st : PluginState) : value :=
  match importState st with
  | None => Undefined
  | Some i =>
      if truthy (reactId i) then reactId i
      else identifier _CCTX_UNDUS_CORE_REACT
  end.

End Utility.

(** ** utils/astHelpers.js *)

Module AstHelpers.
Import Js Constants Ast Path Registry Store Utility.
Local Open Scope js_scope.

Definition thisNode : M World value := w <- get ;; ret (focus (here w)).

(** [path.replaceWith(n)] on the visited path *)
Definition replaceHere (n : value) : M World unit :=
  modify (fun w => setEffect Rewritten (setHere (replaceWith n (here w)) w)).

(** [path.node.k = v], or a change inside a list of [path.node]: [n] is
    the node after it. *)
Definition mutateHere (n : value) : M World unit :=
  modify (fun w => setEffect Mutated (setHere (replaceWith n (here w)) w)).

(** The builders of @babel/types check their arguments: a child that has
    to be a node and is not, or a name that is not a string, throws. *)
Definition mustBeNode (what : string) (v : value) : completion value :=
  match typeOf v with
  | Some _ => Normal v
  | None => Throw (TypeError what)
  end.

Definition mustBeString (what : string) (v : value) : completion string :=
  match v with
  | Str s => Normal s
  | _ => Throw (TypeError what)
  end.

Definition charAt0Lower (s : string) : completion string :=
  match JsString.lowerFirst s with
  | Some r => Normal r
  | None => Throw (TypeError "toLowerCase")
  end.

Definition charAt0Upper (s : string) : completion string :=
  match JsString.upperFirst s with
  | Some r => Normal r
  | None => Throw (TypeError "toUpperCase")
  end.

(** [var ident = require(lit)] *)
Definition requireDeclaration (ident lit : string) : value :=
  variableDeclaration _CCTX_VAR
    [variableDeclarator (identifier ident)
       (callExpression (identifier _CCTX_REQUIRE) [stringLiteral lit])].

(** [buildRequireDeclaration(path, t, identifier, stringLiteral)]; the
    path is the visited one. *)
Definition buildRequireDeclaration (ident lit : string) : M World unit :=
  tryCatch
    (n <- thisNode ;;
     n' <- lift (unshiftContainer _CCTX_BODY (requireDeclaration ident lit) n) ;;
     mutateHere n')
    (fun _ => ret tt).

(** The provider call that [buildCtxProvider] puts around [childrenExpr]. *)
Definition providerCall (reactName : value) (stateName : string)
    (childrenExpr : value) : completion value :=
  react <~ mustBeNode "object" reactName ;;
  lower <~ charAt0Lower stateName ;;
  children <~ mustBeNode "arguments" childrenExpr ;;
  Normal
    (callExpression
       (memberExpression react (identifier _CCTX_CREATE_ELEMENT) false)
       [memberExpression
          (memberExpression (identifier _CCTX_UNDUS_CORE_GBL_CONTEXT)
                            (identifier stateName) false)
          (identifier _CCTX_PROVIDER) false;
        objectExpression
          [objectProperty (identifier _CCTX_VALUE)
             (objectExpression
                [objectProperty (identifier lower) (identifier lower) false true;
                 objectProperty (identifier (_CCTX_SET ++ stateName)%string)
                                (identifier (_CCTX_SET ++ stateName)%string)
                                false true])
             false false];
        children]).

(** [buildCtxProvider(path, t, returnNode, state, stateName)]; the path is
    the visited return statement.  @babel/types has no function
    [jsxElementToReactCreateElement]: on a returned markup element the
    call of it throws, and the return statement stays as it is. *)
Definition buildCtxProvider (returnNode : value) (stateName : string) : M World unit :=
  tryCatch
    (w <- get ;;
     let reactName := resolveReact (state w) in
     childrenExpr <-
       (if isJSXElement returnNode
        then throw (TypeError "t.jsxElementToReactCreateElement")
        else ret returnNode) ;;
     reactCreateEl <- lift (providerCall reactName stateName childrenExpr) ;;
     n <- thisNode ;;
     match n with
     | Obj fields => mutateHere (Obj (setField "argument" reactCreateEl fields))
     | _ => throw (TypeError "argument")
     end)
    (fun _ => ret tt).

(** The declaration [const [key, setKey] = (0, useState)({ ...objProps })]
    that [buildCtxUseStateDeclaration] builds. *)
Definition useStateDeclaration (st : PluginState) (objProps : list value)
    (key : string) : completion value :=
  match importState st with
  | None => Throw (TypeError "useStateId")
  | Some i =>
      let useStateMembers :=
        if truthy (useStateId i) then useStateId i
        else if truthy (reactId i)
        then memberExpression (reactId i)
                              (identifier REACT_IMPORT_USE_STATE_HOOKS_NAME) false
        else memberExpression (identifier _CCTX_UNDUS_CORE_REACT)
                              (identifier REACT_IMPORT_USE_STATE_HOOKS_NAME) false in
      let useStateSeq := sequenceExpression [numericLiteral 0; useStateMembers] in
      let useStateCall := callExpression useStateSeq [objectExpression objProps] in
      lower <~ charAt0Lower key ;;
      upper <~ charAt0Upper key ;;
      Normal
        (variableDeclaration _CCTX_CONST
           [variableDeclarator
              (arrayPattern [identifier lower;
                             identifier (_CCTX_SET ++ upper)%string])
              useStateCall])
  end.

(** [buildCtxUseStateDeclaration(path, t, state, objProps, key)]; the path
    is the visited function declaration. *)
Definition buildCtxUseStateDeclaration (objProps : list value) (key : string)
  : M World unit :=
  tryCatch
    (w <- get ;;
     stateDecl <- lift (useStateDeclaration (state w) objProps key) ;;
     n <- thisNode ;;
     match n with
     | Obj fields =>
         body' <- lift (unshiftContainer _CCTX_BODY stateDecl
                          (lookup _CCTX_BODY fields)) ;;
         mutateHere (Obj (setField _CCTX_BODY body' fields))
     | _ => throw (TypeError "get")
     end)
    (fun _ => ret tt).

Fixpoint getInheritantDecComponent_loop (chain : list path) : completion value :=
  match chain with
  | [] => Normal Null
  | current :: up =>
      if isFunctionDeclaration (focus current)
      then
        let name := optProp "name" (optProp "id" (focus current)) in
        Normal (if truthy name then name else Str ANONYMOUS_FUNCTION)
      else if isFunctionExpression (focus current)
              || isArrowFunctionExpression (focus current)
      then
        match up with
        | par :: _ =>
            if isVariableDeclarator (focus par)
            then Normal (optProp "name" (optProp "id" (focus par)))
            else if isAssignmentExpression (focus par)
            then Throw (ReferenceError "t")
            else Normal (Str ANONYMOUS_FUNCTION)
        | [] => Normal (Str ANONYMOUS_FUNCTION)
        end
      else if isClassDeclaration (focus current)
      then
        let name := optProp "name" (optProp "id" (focus current)) in
        if truthy name then Normal name
        else Throw (ReferenceError "ANONYMOUS_CLASS")
      else getInheritantDecComponent_loop up
  end.

(** [getInheritantDecComponent(path)]: the name of the nearest enclosing
    function or class, [null] at module level, [undefined] when an error
    is caught.  The function refers to [t] and to [ANONYMOUS_CLASS], which
    its module neither receives nor imports. *)
Definition getInheritantDecComponent (p : path) : value :=
  orElse (getInheritantDecComponent_loop (p :: ancestors p)) Undefined.

(** [isComponentFunction(funcPath)] *)
Definition isComponentFunction (funcPath : path) : bool :=
  if isFunctionDeclaration (focus funcPath)
     && truthy (optProp "id" (focus funcPath))
  then true
  else if isArrowFunctionExpression (focus funcPath)
          || isFunctionExpression (focus funcPath)
  then match parentPath funcPath with
       | Some par => isVariableDeclarator (focus par)
       | None => false
       end
  else false.

(** [getInheritantComponent(path)]; [None] is [null]. *)
Definition getInheritantComponent (p : option path) : option path :=
  match p with
  | None => None
  | Some q =>
      List.find (fun current =>
                   (isFunctionDeclaration (focus current)
                    || isFunctionExpression (focus current)
                    || isArrowFunctionExpression (focus current))
                   && isComponentFunction current)
                (q :: ancestors q)
  end.

Definition buildSpreadObject_body (p : path) : completion value :=
  assignedValue <~ prop "right" (focus p) ;;
  let paramIdentifier := identifier PREV_STATE in
  let spreadExistingObject := spreadElement paramIdentifier in
  left <~ prop "left" (focus p) ;;
  leftName <~ prop "name" left ;;
  name <~ mustBeString "name" leftName ;;
  val <~ mustBeNode "value" assignedValue ;;
  let newProperty := objectProperty (identifier name) val false false in
  let returnObject := objectExpression [spreadExistingObject; newProperty] in
  Normal (arrowFunctionExpression [paramIdentifier] returnObject).

(** [buildSpreadObject(path, t)]: [prevState => ({ ...prevState, x: rhs })];
    [undefined] when an error is caught. *)
Definition buildSpreadObject (p : path) : value :=
  orElse (buildSpreadObject_body p) Undefined.

(** [replaceWithSetState(path, t, ctxName, updateFunction)] *)
Definition replaceWithSetState (ctxName : string) (updateFunction : value)
  : M World unit :=
  tryCatch
    (arg <- lift (mustBeNode "arguments" updateFunction) ;;
     replaceHere
       (callExpression
          (identifier
             ("set" ++ JsString.replace ctxName _CCTX_CMP_NAME_PREFIX _CCTX_EMPTY)%string)
          [arg]))
    (fun _ => ret tt).

(** [replaceWithState(path, t, ctxName)] *)
Definition replaceWithState (ctxName : string) : M World unit :=
  tryCatch
    (lower <- lift (charAt0Lower ctxName) ;;
     n <- thisNode ;;
     nameV <- lift (prop "name" n) ;;
     name <- lift (mustBeString "value" nameV) ;;
     replaceHere (memberExpression (identifier lower) (stringLiteral name) true))
    (fun _ => ret tt).

(** [replaceWithContextSetState(path, t, ctxName, updateFunction)] *)
Definition replaceWithContextSetState (ctxName : string) (updateFunction : value)
  : M World unit :=
  tryCatch
    (arg <- lift (mustBeNode "arguments" updateFunction) ;;
     replaceHere
       (callExpression
          (memberExpression
             (identifier (_CCTX_ ++ ctxName)%string)
             (identifier
                ("set" ++ JsString.replace ctxName _CCTX_CMP_NAME_PREFIX _CCTX_EMPTY)%string)
             false)
          [arg]))
    (fun _ => ret tt).

(** [replaceWithContextState(path, t, ctxName)] *)
Definition replaceWithContextState (ctxName : string) : M World unit :=
  tryCatch
    (lower <- lift (charAt0Lower ctxName) ;;
     let stateMember :=
       memberExpression (identifier (_CCTX_ ++ ctxName)%string)
                        (identifier lower) false in
     n <- thisNode ;;
     nameV <- lift (prop "name" n) ;;
     name <- lift (mustBeString "value" nameV) ;;
     replaceHere (memberExpression stateMember (stringLiteral name) true))
    (fun _ => ret tt).

(** The declaration [const CTX_k = (0, React.useContext)(_gblContext.k)]. *)
Definition useContextDeclaration (reactName : value) (ctxName : string)
  : completion value :=
  react <~ mustBeNode "object" reactName ;;
  Normal
    (variableDeclaration _CCTX_CONST
       [variableDeclarator
          (identifier (_CCTX_ ++ ctxName)%string)
          (callExpression
             (sequenceExpression
                [numericLiteral 0;
                 memberExpression react (identifier _CCTX_USE_CONTEXT) false])
             [memberExpression (identifier _CCTX_UNDUS_CORE_GBL_CONTEXT)
                               (identifier ctxName) false])]).

(** [buildUseContextInstance(path, state, t, ctxName)]: [path] is an
    enclosing function of the visited node, or [null]. *)
Definition buildUseContextInstance (p : option path) (ctxName : string)
  : M World unit :=
  tryCatch
    (match getInheritantComponent p with
     | None => ret tt
     | Some inheritantCMP =>
         bodyNode <- lift (prop _CCTX_BODY (focus inheritantCMP)) ;;
         if negb (isBlockStatement bodyNode) then ret tt
         else
           let ctxVarName := (_CCTX_ ++ ctxName)%string in
           if isContextInstanceDeclare bodyNode ctxVarName then ret tt
           else
             w <- get ;;
             ctxDecl <- lift (useContextDeclaration (resolveReact (state w)) ctxName) ;;
             stmts <- lift (items "splice" (optProp _CCTX_BODY bodyNode)) ;;
             let insertIndex := getInsertionIndex stmts in
             modify (fun w =>
                       setHere (spliceOwnerBody (length (frames inheritantCMP))
                                                insertIndex ctxDecl (here w)) w)
     end)
    (fun _ => ret tt).

Fixpoint getRootParentComponent_loop (funcs : list path)
  : completion (option path * option string) :=
  match funcs with
  | [] => Normal (None, None)
  | currentFuncParent :: outer =>
      id <~ prop "id" (focus currentFuncParent) ;;
      name <~ (if truthy id then prop "name" id
               else match parentPath currentFuncParent with
                    | None => Throw (TypeError "isVariableDeclarator")
                    | Some par =>
                        if isVariableDeclarator (focus par)
                        then (pid <~ prop "id" (focus par) ;; prop "name" pid)
                        else Normal Null
                    end) ;;
      match name with
      | Str s =>
          if truthy name && JsString.startsUpper s
          then Normal (Some currentFuncParent, Some s)
          else getRootParentComponent_loop outer
      | _ => getRootParentComponent_loop outer
      end
  end.

(** [getRootParentComponent(path)]: the nearest enclosing function whose
    name starts with a capital, with that name; [None] is the [undefined]
    returned when an error is caught.  The enclosing functions, nearest
    first, are what repeated [getFunctionParent()] walks through. *)
Definition getRootParentComponent (p : path)
  : option (option path * option string) :=
  match getRootParentComponent_loop
          (filter (fun q => isFunction (focus q)) (ancestors p)) with
  | Normal r => Some r
  | Throw _ => None
  end.

End AstHelpers.

(** ** The traversal of @babel/traverse *)

Module Traverse.
Import Js Ast Path Store.

Inductive step : Type := Field (k : string) | Item (i : nat).

Definition getItem (i : nat) (p : path) : option path :=
  match focus p with
  | Arr l =>
      match nth_error l i with
      | Some x => Some (mkPath x (InItem (firstn i l) (skipn (S i) l) :: frames p))
      | None => None
      end
  | _ => None
  end.

(** Follow fields and indices down from a path. *)
Fixpoint descend (route : list step) (p : path) : option path :=
  match route with
  | [] => Some p
  | Field k :: r =>
      match getChild k p with
      | Some q => descend r q
      | None => None
      end
  | Item i :: r =>
      match getItem i p with
      | Some q => descend r q
      | None => None
      end
  end.

(** What became of a traversed node: it is still there (as [v]), it was
    removed, or the node above it was removed by it. *)
Inductive outcome : Type := Kept (v : value) | Gone | ParentGone.

(** What [path.remove()] leaves of a removed node that the field [k] of
    [parent] held (lib/path/lib/removal-hooks.js): the parent goes with a
    test, an exported declaration, a labelled body or the expression of an
    expression statement; an empty block comes in place of the consequent
    of an [if] and of the body of a loop or of an arrow function; [null]
    elsewhere, where the field takes it ([removable] below).  The hooks
    for the only expression of a sequence and for an operand of a binary
    expression are left out: neither holds a declaration. *)
Inductive Hook : Type := LeaveNull | EmptyBlock | RemoveParent.

Definition isLoop (v : value) : bool :=
  match typeOf v with
  | Some ty => oneOf ty ["DoWhileStatement"; "ForInStatement"; "ForStatement";
                         "WhileStatement"; "ForOfStatement"]
  | None => false
  end.

Definition removalHook (parent : value) (k : string) : Hook :=
  if (String.eqb k "test"
      && (isType "WhileStatement" parent || isType "DoWhileStatement" parent
          || isType "SwitchCase" parent))
     || (String.eqb k "declaration"
         && (isType "ExportAllDeclaration" parent
             || isType "ExportDefaultDeclaration" parent
             || isType "ExportNamedDeclaration" parent))
     || (String.eqb k "body" && isType "LabeledStatement" parent)
     || (String.eqb k "expression" && isExpressionStatement parent)
  then RemoveParent
  else if (isType "IfStatement" parent && String.eqb k "consequent")
          || (String.eqb k "body"
              && (isLoop parent || isArrowFunctionExpression parent))
  then EmptyBlock
  else LeaveNull.

(** [validate(parent, k, null)] of @babel/types, which [path.remove()]
    calls before it leaves [null] in the field [k]: it throws for a field
    that is not optional.  Of the fields in which a declaration or a
    labelled statement can stand, those are the head of a [for]-[in] or
    [for]-[of] loop and the body of a [with] statement; the [init] of a
    [for] loop and the [alternate] of an [if] are optional. *)
Definition requiredSlot (parent : value) (k : string) : bool :=
  (String.eqb k "left"
   && (isType "ForInStatement" parent || isType "ForOfStatement" parent))
  || (String.eqb k "body" && isType "WithStatement" parent).

(** Whether [path.remove()] goes through on the node [v] that [fs] leads
    up from, or throws.  An item is spliced out of its list.  In a field,
    a hook removes the parent instead, which may throw in its turn, or
    puts an empty block; with no hook the field must take [null].  The
    root has no list to leave, and the field that holds it is not
    optional. *)
Fixpoint removable (v : value) (fs : list frame) : bool :=
  match fs with
  | [] => false
  | InItem _ _ :: _ => true
  | InField before k after :: rest =>
      let parent := Obj (before ++ (k, v) :: after) in
      match removalHook parent k with
      | RemoveParent => removable parent rest
      | EmptyBlock => true
      | LeaveNull => negb (requiredSlot parent k)
      end
  end.

(** The frames [fs] without the node they led up from: an item leaves its
    list, the value of a field becomes [null]. *)
Definition plugGone (fs : list frame) : value :=
  match fs with
  | InItem before after :: rest => plug (Arr (before ++ after)) rest
  | _ => plug Null fs
  end.

(** The value of a field whose node was removed, and whether the node
    that has the field is removed with it.  [inner] leads from the removed
    node up to the value of the field. *)
Definition removedField (h : Hook) (inner : list frame) (gone : bool)
  : value * bool :=
  match inner with
  | [] =>
      match h with
      | LeaveNull => (Null, gone)
      | EmptyBlock => (blockStatement [], gone)
      | RemoveParent => (Null, true)
      end
  | _ => (plugGone inner, gone)
  end.

Section Driver.
Context {S : Type}.
Variable world : S -> World.
Variable setWorld : World -> S -> S.
(** the visitors called on entering and on leaving the visited node *)
Variable enter : M S unit.
Variable leave : M S unit.
(** where a node rewritten by [enter] holds a child of the node it was:
    the field of the old node, and the route to it from the new node *)
Variable embedded : value -> value -> option (string * list step).
(** what the store keeps of a node whose visitor removed the node above
    it, once the traversal has gone through it: the store before the
    visit, the node after the traversal, the store after it *)
Variable detached : S -> value -> S -> S.

Definition visitAt (p : path) (s : S) : S :=
  setWorld (setEffect Untouched (setSeen false (setHere p (world s)))) s.

Definition result : Type := completion outcome * list frame * S.

Section Children.
(** the traversal of one child *)
Variable child : value -> list frame -> S -> result.

(** The items of a list, in order.  A removed item leaves the list; an
    item that removed the node above makes the list report it. *)
Fixpoint inItems (before todo : list value) (up : list frame) (gone : bool)
    (s : S) : result :=
  match todo with
  | [] => (Normal (if gone then ParentGone else Kept (Arr before)), up, s)
  | c :: rest =>
      match child c (InItem before rest :: up) s with
      | (Throw e, fs', s') => (Throw e, tl fs', s')
      | (Normal o, fs', s') =>
          let before' := match fs' with
                         | InItem b' _ :: _ => b'
                         | _ => before
                         end in
          match o with
          | Kept c' => inItems (before' ++ [c']) rest (tl fs') gone s'
          | Gone => inItems before' rest (tl fs') gone s'
          | ParentGone => inItems before' rest (tl fs') true s'
          end
      end
  end.

(** The fields of a node, in order.  [hook] tells what a removed child
    leaves.  [special] names the field whose new value holds the old one
    further down, with the frames from the old value up to the new one. *)
Fixpoint inFields (hook : string -> Hook) (special : option (string * list frame))
    (before todo : list (string * value)) (up : list frame) (gone : bool) (s : S)
  : completion (list (string * value) * bool) * list frame * S :=
  match todo with
  | [] => (Normal (before, gone), up, s)
  | (k, c) :: rest =>
      let inner := match special with
                   | Some (k0, fr) => if String.eqb k k0 then fr else []
                   | None => []
                   end in
      let special' := match special with
                      | Some (k0, _) => if String.eqb k k0 then None else special
                      | None => None
                      end in
      match child c (inner ++ InField before k rest :: up) s with
      | (Throw e, fs', s') => (Throw e, tl (skipn (length inner) fs'), s')
      | (Normal o, fs', s') =>
          let above := skipn (length inner) fs' in
          let wrap c' := plug c' (firstn (length inner) fs') in
          let before' := match above with
                         | InField b' _ _ :: _ => b'
                         | _ => before
                         end in
          match o with
          | Kept c' =>
              inFields hook special' (before' ++ [(k, wrap c')]) rest (tl above)
                       gone s'
          | Gone =>
              let left := removedField (hook k) (firstn (length inner) fs') gone in
              inFields hook special' (before' ++ [(k, fst left)]) rest (tl above)
                       (snd left) s'
          | ParentGone =>
              inFields hook special' (before' ++ [(k, c)]) rest (tl above) true s'
          end
      end
  end.

(** The one field [k0] of a replaced node that the new node [v1] holds,
    [inner] being the frames from it up to [v1]. *)
Fixpoint inEmbedded (k0 : string) (v1 : value) (fs1 inner : list frame)
    (todo : list (string * value)) (s : S) : result :=
  match todo with
  | [] => (Normal (Kept v1), fs1, s)
  | (k, c) :: rest =>
      if String.eqb k k0
      then
        match child c (inner ++ fs1) s with
        | (Throw e, fs', s') => (Throw e, skipn (length inner) fs', s')
        | (Normal (Kept c'), fs', s') =>
            (Normal (Kept (plug c' (firstn (length inner) fs'))),
             skipn (length inner) fs', s')
        | (Normal _, fs', s') =>
            (Normal (Kept (plugGone (firstn (length inner) fs'))),
             skipn (length inner) fs', s')
        end
      else inEmbedded k0 v1 fs1 inner rest s
  end.

End Children.

(** The frames from the end of [route] up to [v]. *)
Definition framesInside (route : list step) (v : value) : option (list frame) :=
  option_map frames (descend route (mkPath v [])).

(** The depth-first traversal in document order.  The visited node is
    [v], [fs] leads up from it.  On a node, [enter] runs first; a removed
    node is not entered; the children of the node are traversed next, each
    with the frames and the store the ones before it left; [leave] runs
    last.  Nodes that [enter] generates are not visited again, the part of
    the old node they embed is.  (Babel requeues a generated node and
    visits it too, which is left out here: it makes a difference only
    under a configured prefix that the generated names start with.)  A
    statement that a visitor splices into a field still to be traversed
    stays in the frames only. *)
Fixpoint traverse (v : value) (fs : list frame) (s : S) {struct v} : result :=
  match v with
  | Obj fields =>
      match enter (visitAt (mkPath v fs) s) with
      | (Throw e, s1) => (Throw e, fs, s1)
      | (Normal _, s1) =>
          let v1 := focus (here (world s1)) in
          let fs1 := frames (here (world s1)) in
          match effect (world s1) with
          | SelfRemoved => (Normal Gone, fs1, s1)
          | Rewritten =>
              match embedded v v1 with
              | None => (Normal (Kept v1), fs1, s1)
              | Some (k0, route) =>
                  match framesInside route v1 with
                  | None => (Normal (Kept v1), fs1, s1)
                  | Some inner => inEmbedded traverse k0 v1 fs1 inner fields s1
                  end
              end
          | eff =>
              let special :=
                match eff with
                | Mutated =>
                    match embedded v v1 with
                    | Some (k0, route) =>
                        match framesInside route (optProp k0 v1) with
                        | Some inner => Some (k0, inner)
                        | None => None
                        end
                    | None => None
                    end
                | _ => None
                end in
              match inFields traverse (removalHook v) special [] fields fs1 false
                             s1 with
              | (Throw e, fs2, s2) => (Throw e, fs2, s2)
              | (Normal (fields', gone), fs2, s2) =>
                  match eff with
                  | ParentRemoved =>
                      (Normal ParentGone, fs2, detached s (Obj fields') s2)
                  | _ =>
                      if gone then (Normal Gone, fs2, s2)
                      else
                        match leave (setWorld (setHere (mkPath (Obj fields') fs2)
                                                       (world s2)) s2) with
                        | (Throw e, s3) => (Throw e, fs2, s3)
                        | (Normal _, s3) =>
                            (Normal (Kept (focus (here (world s3)))),
                             frames (here (world s3)), s3)
                        end
                  end
              end
          end
      end
  | Arr items => inItems traverse [] items fs false s
  | _ => (Normal (Kept v), fs, s)
  end.

(** [path.traverse(visitors)]: the traversal of what is below [v]; the
    visitors are not called on [v] itself. *)
Definition traverseChildren (v : value) (fs : list frame) (s : S) : result :=
  match v with
  | Obj fields =>
      match inFields traverse (removalHook v) None [] fields fs false s with
      | (Throw e, fs2, s2) => (Throw e, fs2, s2)
      | (Normal (fields', gone), fs2, s2) =>
          (Normal (if gone then Gone else Kept (Obj fields')), fs2, s2)
      end
  | _ => traverse v fs s
  end.

End Driver.

End Traverse.

(** ** visitors/*.js *)

Module Visitors.
Import Js Constants Ast Path Registry Store Utility AstHelpers.
Local Open Scope js_scope.

Definition modifyState (f : PluginState -> PluginState) : M World unit :=
  modify (fun w => setState (f (state w)) w).

(** [state.filename || _CCTX_EMPTY] *)
Definition fileNameOf (st : PluginState) : string :=
  match filename st with
  | Some f => if String.eqb f "" then _CCTX_EMPTY else f
  | None => _CCTX_EMPTY
  end.

(** [state.casperConfig.prefix] *)
Definition prefixOf (st : PluginState) : completion string :=
  match casperConfig st with
  | Some pre => Normal pre
  | None => Throw (TypeError "prefix")
  end.

(** [v?.startsWith(state.casperConfig.prefix)] for a name [v]: the
    argument is evaluated only when [v] is there. *)
Definition nameStartsWithPrefix (v : value) (st : PluginState) : completion bool :=
  match v with
  | Str name => pre <~ prefixOf st ;; Normal (JsString.startsWith name pre)
  | Undefined | Null => Normal false
  | _ => Throw (TypeError "startsWith")
  end.

(** [if (!state.importState.reactId && !state.importState.useStateId)
    state.needUseStateImport = true] *)
Definition markUseStateImport : M World unit :=
  w <- get ;;
  match importState (state w) with
  | None => throw (TypeError "reactId")
  | Some i =>
      if negb (truthy (reactId i)) && negb (truthy (useStateId i))
      then modifyState (setNeedUseStateImport true)
      else ret tt
  end.

Definition isJSXAncestor (q : path) : bool :=
  isType "JSXExpressionContainer" (focus q)
  || isType "JSXAttribute" (focus q)
  || isType "JSXOpeningElement" (focus q)
  || isType "JSXClosingElement" (focus q)
  || isType "JSXMemberExpression" (focus q).

(** The positions [identifierVisitor] returns from before it looks the
    name up: nonzero codes name the guard that fired. *)
Inductive Skip : Type :=
| SkipDeclaratorId | SkipAssignmentLeft | SkipUpdateArgument
| SkipObjectKey | SkipJSX | SkipNotReferenced.

Definition identifierGuards (p : path) : completion (option Skip) :=
  parentType <~ prop "type" (parent p) ;;
  let typeIs ty := match parentType with
                   | Str ty' => String.eqb ty' ty
                   | _ => false
                   end in
  if typeIs VARIABLE_DECLARATOR && keyIs p _CCTX_ID then Normal (Some SkipDeclaratorId)
  else if typeIs ASSIGNMENT_EXPRESSION && keyIs p _CCTX_LEFT
  then Normal (Some SkipAssignmentLeft)
  else if typeIs UPDATE_EXPRESSION && keyIs p _CCTX_ARGUMENT
  then Normal (Some SkipUpdateArgument)
  else if isObjectProperty (parent p) && keyIs p _CCTX_KEY
          && negb (truthy (optProp "computed" (parent p)))
  then Normal (Some SkipObjectKey)
  else match findParent isJSXAncestor p with
       | Some _ => Normal (Some SkipJSX)
       | None =>
           if negb (isReferencedIdentifier p) then Normal (Some SkipNotReferenced)
           else Normal None
       end.

(** [ctxName.startsWith(componentName)]: a [null] component name is
    turned into the string ["null"]. *)
Definition startsWithComponent (ctxName : string) (componentName : option string)
  : bool :=
  JsString.startsWith ctxName
    (match componentName with
     | Some n => n
     | None => "null"
     end).

(** A key found by [findContextByVar] that is truthy. *)
Definition truthyKey (k : option string) : option string :=
  match k with
  | Some s => if String.eqb s "" then None else Some s
  | None => None
  end.

Definition identifierVisitor_body : M World unit :=
  w <- get ;;
  let p := here w in
  if negb (isExcludeFile (host w) (fileNameOf (state w))) then ret tt
  else
    hasPrefix <- lift (nameStartsWithPrefix (optProp "name" (focus p)) (state w)) ;;
    if negb hasPrefix then ret tt
    else
      skip <- lift (identifierGuards p) ;;
      match skip with
      | Some _ => ret tt
      | None =>
          if seen w then ret tt
          else
            modify (setSeen true) ;;;
            modifyState (setNeedsGblContext true) ;;;
            match getRootParentComponent p with
            | None => throw (TypeError "currentFuncParent")
            | Some (currentFuncParent, componentName) =>
                nameV <- lift (prop "name" (focus p)) ;;
                name <- lift (mustBeString "includes" nameV) ;;
                found <- onRegistry (findContextByVar name) ;;
                match truthyKey found with
                | None => ret tt
                | Some ctxName =>
                    let isSameCMP := startsWithComponent ctxName componentName in
                    modifyState (setNeedsGblContext true) ;;;
                    markUseStateImport ;;;
                    if isSameCMP then replaceWithState ctxName
                    else
                      buildUseContextInstance currentFuncParent ctxName ;;;
                      replaceWithContextState ctxName
                end
            end
      end.

(** [identifierVisitor(path, state, t, seen, virtualRegistry)] on the
    visited path. *)
Definition identifierVisitor : M World unit :=
  tryCatch identifierVisitor_body (fun _ => ret tt).

Definition assignmentExpressionVisitor_body : M World unit :=
  w <- get ;;
  let p := here w in
  if negb (isExcludeFile (host w) (fileNameOf (state w))) then ret tt
  else
    left <- lift (prop "left" (focus p)) ;;
    leftType <- lift (prop "type" left) ;;
    match leftType with
    | Str ty =>
        if negb (String.eqb ty IDENTIFIER) then ret tt
        else
          hasPrefix <- lift (nameStartsWithPrefix (optProp "name" left) (state w)) ;;
          if negb hasPrefix then ret tt
          else
            modifyState (setNeedsGblContext true) ;;;
            nameV <- lift (prop "name" left) ;;
            name <- lift (mustBeString "includes" nameV) ;;
            found <- onRegistry (findContextByVar name) ;;
            match truthyKey found with
            | None => ret tt
            | Some ctxName =>
                match getRootParentComponent p with
                | None => throw (TypeError "currentFuncParent")
                | Some (currentFuncParent, componentName) =>
                    (* inheritantCMP = componentName: the name is declared
                       nowhere *)
                    (if implicitGlobals (host w) then ret tt
                     else throw (ReferenceError "inheritantCMP")) ;;;
                    let inheritantCMP := componentName in
                    match inheritantCMP with
                    | None => ret tt
                    | Some "" => ret tt
                    | Some cmp =>
                        let isSameCMP := JsString.startsWith ctxName cmp in
                        modifyState (setNeedsGblContext true) ;;;
                        markUseStateImport ;;;
                        let updateFunction := buildSpreadObject p in
                        if isSameCMP then replaceWithSetState ctxName updateFunction
                        else
                          buildUseContextInstance currentFuncParent ctxName ;;;
                          replaceWithContextSetState ctxName updateFunction
                    end
                end
            end
    | _ => ret tt
    end.

(** [assignmentExpressionVisitor(path, state, t, virtualRegistry)] *)
Definition assignmentExpressionVisitor : M World unit :=
  tryCatch assignmentExpressionVisitor_body (fun _ => ret tt).

(** [e.value ?? null] *)
Definition valueOrNull (e : value) : completion value :=
  v <~ prop "value" e ;;
  Normal (match v with
          | Undefined | Null => Null
          | _ => v
          end).

Fixpoint mapC {A B} (f : A -> completion B) (l : list A) : completion (list B) :=
  match l with
  | [] => Normal []
  | a :: rest => b <~ f a ;; bs <~ mapC f rest ;; Normal (b :: bs)
  end.

(** The property key a value is turned into, for the values a literal key
    can give.  A number gives its decimal digits, as JavaScript prints the
    integers below [10^21]. *)
Definition toPropertyKey (v : value) : string :=
  match v with
  | Str s => s
  | Undefined => "undefined"
  | Null => "null"
  | Bool true => "true"
  | Bool false => "false"
  | Num z => NilZero.string_of_int (Z.to_int z)
  | Arr _ | Obj _ => "[object Object]"
  end.

Fixpoint getVariableInitValue_object (props : list value)
    (obj : list (string * value)) : completion (list (string * value)) :=
  match props with
  | [] => Normal obj
  | pr :: rest =>
      key <~ prop "key" pr ;;
      if negb (truthy key) then getVariableInitValue_object rest obj
      else
        val <~ prop "value" pr ;;
        if negb (truthy val) then getVariableInitValue_object rest obj
        else
          vv <~ prop "value" val ;;
          match vv with
          | Undefined => getVariableInitValue_object rest obj
          | _ =>
              let name := optProp "name" key in
              let k := if truthy name then name else optProp "value" key in
              getVariableInitValue_object rest (assign (toPropertyKey k) vv obj)
          end
  end.

Definition getVariableInitValue_body (p : path) : completion value :=
  init <~ prop "init" (focus p) ;;
  if negb (truthy init) then Normal Undefined
  else
    ty <~ prop "type" init ;;
    let typeIs t := match ty with
                    | Str t' => String.eqb t' t
                    | _ => false
                    end in
    if typeIs NUMERIC_LITERAL || typeIs STRING_LITERAL || typeIs BOOLEAN_LITERAL
    then prop "value" init
    else if typeIs ARRAY_EXPRESSION
    then (elements <~ prop "elements" init ;;
          l <~ items "map" elements ;;
          vs <~ mapC valueOrNull l ;;
          Normal (Arr vs))
    else if typeIs OBJECT_EXPRESSION
    then (properties <~ prop "properties" init ;;
          l <~ items "of" properties ;;
          obj <~ getVariableInitValue_object l [] ;;
          Normal (Obj obj))
    else Throw (ReferenceError "NON_LITERAL").

(** [getVariableInitValue(path)]: the literal a declarator is initialised
    with, [undefined] otherwise ([NON_LITERAL] is not imported by the
    module, and the error is caught). *)
Definition getVariableInitValue (p : path) : value :=
  orElse (getVariableInitValue_body p) Undefined.

Definition variableDeclarationVisitor_body : M World unit :=
  w <- get ;;
  let p := here w in
  let fileName := fileNameOf (state w) in
  if negb (isExcludeFile (host w) fileName) then ret tt
  else
    id <- lift (prop "id" (focus p)) ;;
    nameV <- lift (prop "name" id) ;;
    hasPrefix <- lift (nameStartsWithPrefix nameV (state w)) ;;
    if negb hasPrefix then ret tt
    else
      let inheritantCMP := getInheritantDecComponent p in
      if negb (truthy inheritantCMP) then ret tt
      else
        let filePathHash := getFilePathHASH (host w) fileName in
        let _init_value := getVariableInitValue p in
        modifyState (setNeedsGblContext true) ;;;
        markUseStateImport ;;;
        name <- lift (mustBeString "includes" nameV) ;;
        onRegistry
          (registerVariable
             (toPropertyKey inheritantCMP ++ "_" ++ filePathHash)%string
             name _init_value) ;;;
        ret tt.

(** [variableDeclarationVisitor(path, state, t, virtualRegistry)] *)
Definition variableDeclarationVisitor : M World unit :=
  tryCatch variableDeclarationVisitor_body (fun _ => ret tt).

(** The store of the traversal that [functionDeclarationExit] runs: the
    world and the [localStateVars] array of [{ name, init }]. *)
Record ExitStore : Type := mkExit {
  exitWorld : World;
  localStateVars : list (string * value)
}.

Definition setExitWorld (w : World) (x : ExitStore) : ExitStore :=
  mkExit w (localStateVars x).

Definition onWorld {A} (m : M World A) : M ExitStore A :=
  zoom exitWorld setExitWorld m.

(** [v.length === 1] *)
Definition lengthIsOne (v : value) : completion bool :=
  match v with
  | Undefined | Null => Throw (TypeError "length")
  | Arr l => Normal (Nat.eqb (length l) 1)
  | Str s => Normal (Nat.eqb (String.length s) 1)
  | Obj fields => Normal (match lookup "length" fields with
                          | Num 1 => true
                          | _ => false
                          end)
  | _ => Normal false
  end.

(** [target.remove()] in a visitor.  The traversal takes the node out
    once the visitor is done ([eff] tells it which node); where the
    removal throws, it throws here, in the visitor, and nothing is taken
    out. *)
Definition remove (target : option path) (eff : Effect) : M World unit :=
  match target with
  | Some q =>
      if Traverse.removable (focus q) (frames q)
      then modify (setEffect eff)
      else throw (TypeError "remove")
  | None => throw (TypeError "remove")
  end.

Definition functionReturnVariableDelarationVisitor_body : M ExitStore unit :=
  x <- get ;;
  let p := here (exitWorld x) in
  id <- lift (prop "id" (focus p)) ;;
  init <- lift (prop "init" (focus p)) ;;
  if negb (isIdentifier id) then ret tt
  else
    nameV <- lift (prop "name" id) ;;
    name <- lift (mustBeString "startsWith" nameV) ;;
    pre <- lift (prefixOf (state (exitWorld x))) ;;
    if negb (JsString.startsWith name pre) then ret tt
    else
      modify (fun x => mkExit (exitWorld x) (localStateVars x ++ [(name, init)])) ;;;
      if negb (isVariableDeclaration (parent p)) then ret tt
      else
        declarations <- lift (prop "declarations" (parent p)) ;;
        only <- lift (lengthIsOne declarations) ;;
        if only
        then onWorld (remove (parentPath p) ParentRemoved)
        else onWorld (remove (Some p) SelfRemoved).

(** [functionReturnVariableDelarationVisitor(path, state, t,
    localStateVars)] *)
Definition functionReturnVariableDelarationVisitor : M ExitStore unit :=
  tryCatch functionReturnVariableDelarationVisitor_body (fun _ => ret tt).

(** [functionDeclarationReturnStatementVisitor(path, state, t, entry)] *)
Definition functionDeclarationReturnStatementVisitor (e : entry) : M World unit :=
  tryCatch
    (n <- thisNode ;;
     returnNode <- lift (prop "argument" n) ;;
     if negb (truthy returnNode) then ret tt
     else
       match ctxName e with
       | None => throw (TypeError "replace")
       | Some c =>
           let stateName := JsString.replace c _CCTX_CMP_NAME_PREFIX _CCTX_EMPTY in
           buildCtxProvider returnNode stateName
       end)
    (fun _ => ret tt).

(** The visitors [{ VariableDeclarator, ReturnStatement }] that
    [functionDeclarationExit] hands to [path.traverse]. *)
Definition exitEnter (e : entry) : M ExitStore unit :=
  x <- get ;;
  let n := focus (here (exitWorld x)) in
  if isVariableDeclarator n then functionReturnVariableDelarationVisitor
  else if isType "ReturnStatement" n
  then onWorld (functionDeclarationReturnStatementVisitor e)
  else ret tt.

(** The [{ name, init }] pushed for a declarator holds the [init] node
    itself: what the traversal does inside that node after the declaration
    was removed shows in the pushed record. *)
Fixpoint setInitAt (pos : nat) (init : value) (l : list (string * value))
  : list (string * value) :=
  match pos, l with
  | O, (name, _) :: rest => (name, init) :: rest
  | S k, x :: rest => x :: setInitAt k init rest
  | _, [] => []
  end.

Definition exitDetached (before : ExitStore) (n : value) (after : ExitStore)
  : ExitStore :=
  mkExit (exitWorld after)
         (setInitAt (length (localStateVars before)) (optProp "init" n)
                    (localStateVars after)).

(** The provider call that becomes the [argument] of a return statement
    holds the returned expression as its third argument. *)
Definition exitEmbedded (old new : value) : option (string * list Traverse.step) :=
  if isType "ReturnStatement" old
  then Some ("argument", [Traverse.Field "arguments"; Traverse.Item 2])
  else None.

(** [path.traverse({ VariableDeclarator, ReturnStatement })] *)
Definition exitTraverse (e : entry) (p : path) (x : ExitStore) : Traverse.result :=
  Traverse.traverseChildren exitWorld setExitWorld (exitEnter e) (ret tt)
                            exitEmbedded exitDetached (focus p) (frames p) x.

Definition functionDeclarationExit_body : M World unit :=
  w <- get ;;
  let p := here w in
  let fileName := fileNameOf (state w) in
  if negb (isExcludeFile (host w) fileName) then ret tt
  else
    let name := optProp "name" (optProp "id" (focus p)) in
    if negb (truthy name) then ret tt
    else
      let filePathHASH := getFilePathHASH (host w) fileName in
      let key := (toPropertyKey name ++ "_" ++ filePathHASH)%string in
      match find key (virtualRegistry w) with
      | None => ret tt
      | Some e =>
          match varNames e with
          | [] => ret tt
          | _ :: _ =>
              match exitTraverse e p (mkExit w []) with
              | (Throw err, _, x) => put (exitWorld x) ;;; throw err
              | (Normal o, fs, x) =>
                  let n := match o with
                           | Traverse.Kept v => v
                           | _ => focus p
                           end in
                  put (setHere (mkPath n fs) (exitWorld x)) ;;;
                  match localStateVars x with
                  | [] => ret tt
                  | vars =>
                      let objProps :=
                        map (fun v : string * value =>
                               objectProperty (identifier (fst v))
                                 (if truthy (snd v) then snd v else nullLiteral)
                                 false false) vars in
                      buildCtxUseStateDeclaration objProps key
                  end
              end
          end
      end.

(** [functionDeclarationExit(path, state, t, virtualRegistry)] *)
Definition functionDeclarationExit : M World unit :=
  tryCatch functionDeclarationExit_body (fun _ => ret tt).

Definition emptyImportState : ImportState :=
  mkImportState Null Null false false false Null.

Definition importStateResolver_spec (i : ImportState) (spec : value)
  : completion ImportState :=
  let i1 := if isType "ImportDefaultSpecifier" spec
            then mkImportState (optProp "local" spec) (useStateId i) true
                               (isNamed i) (isNamespace i) (reactImportPath i)
            else i in
  i2 <~ (if isType "ImportSpecifier" spec
         then (imported <~ prop "imported" spec ;;
               importedName <~ prop "name" imported ;;
               match importedName with
               | Str n =>
                   if String.eqb n REACT_IMPORT_USE_STATE_HOOKS_NAME
                   then Normal (mkImportState (reactId i1) (optProp "local" spec)
                                  (isDefault i1) true (isNamespace i1)
                                  (reactImportPath i1))
                   else Normal i1
               | _ => Normal i1
               end)
         else Normal i1) ;;
  Normal (if isType "ImportNamespaceSpecifier" spec
          then mkImportState (optProp "local" spec) (useStateId i2) (isDefault i2)
                             (isNamed i2) true (reactImportPath i2)
          else i2).

Fixpoint foldC {A B} (f : A -> B -> completion A) (l : list B) (a : A)
  : completion A :=
  match l with
  | [] => Normal a
  | b :: rest => a' <~ f a b ;; foldC f rest a'
  end.

Definition importStateResolver_node (i : ImportState) (n : value)
  : completion ImportState :=
  if negb (isImportDeclaration n) then Normal i
  else
    source <~ prop "source" n ;;
    sourceValue <~ prop "value" source ;;
    match sourceValue with
    | Str v =>
        if negb (String.eqb v REACT_IMPORT_CORE_NAME) then Normal i
        else
          let i1 := mkImportState (reactId i) (useStateId i) (isDefault i)
                                  (isNamed i) (isNamespace i) n in
          specifiers <~ prop "specifiers" n ;;
          l <~ items "forEach" specifiers ;;
          foldC importStateResolver_spec l i1
    | _ => Normal i
    end.

(** [importStateResolver(path, state, t)] *)
Definition importStateResolver : M World unit :=
  tryCatch
    (n <- thisNode ;;
     body <- lift (prop "body" n) ;;
     l <- lift (items "forEach" body) ;;
     i <- lift (foldC importStateResolver_node l emptyImportState) ;;
     modifyState (setImportState (Some i)))
    (fun _ => ret tt).

(** [resetRegisteryProcess(state, virtualRegistry)] *)
Definition resetRegisteryProcess : M World unit :=
  tryCatch
    (w <- get ;;
     let fileName := fileNameOf (state w) in
     if negb (isExcludeFile (host w) fileName) then ret tt
     else onRegistry (resetVarsForFile (getFilePathHASH (host w) fileName)))
    (fun _ => ret tt).

(** [programEnter(path, state, t, virtualRegistry, config)] *)
Definition programEnter : M World unit :=
  tryCatch
    (w <- get ;;
     modifyState (setCasperConfig (Some (configuredPrefix (host w)))) ;;;
     importStateResolver ;;;
     resetRegisteryProcess)
    (fun _ => ret tt).

(** [bindMissingImport(path, state, t)] *)
Definition bindMissingImport : M World unit :=
  tryCatch
    (w <- get ;;
     (if needUseStateImport (state w)
      then buildRequireDeclaration _CCTX_UNDUS_CORE_REACT _CCTX_REACT
      else ret tt) ;;;
     w <- get ;;
     if needsGblContext (state w)
     then buildRequireDeclaration _CCTX_UNDUS_CORE_GBL_CONTEXT
                                  (contextFilePath (host w))
     else ret tt)
    (fun _ => ret tt).

(** [programExit(path, state, t)] *)
Definition programExit : M World unit :=
  tryCatch bindMissingImport (fun _ => ret tt).

(** The plugin's visitor table (index.js), on entering a node ... *)
Definition pluginEnter : M World unit :=
  w <- get ;;
  let n := focus (here w) in
  if isType "Program" n then programEnter
  else if isVariableDeclarator n then variableDeclarationVisitor
  else if isAssignmentExpression n then assignmentExpressionVisitor
  else if isIdentifier n then identifierVisitor
  else ret tt.

(** ... and on leaving it. *)
Definition pluginLeave : M World unit :=
  w <- get ;;
  let n := focus (here w) in
  if isType "Program" n then programExit
  else if isFunctionDeclaration n then functionDeclarationExit
  else ret tt.

(** The setter call holds the assigned expression as the value of the one
    property of the updater's object. *)
Definition pluginEmbedded (old new : value) : option (string * list Traverse.step) :=
  if isAssignmentExpression old
  then Some ("right",
             [Traverse.Field "arguments"; Traverse.Item 0; Traverse.Field "body";
              Traverse.Field "properties"; Traverse.Item 1; Traverse.Field "value"])
  else None.

(** The fresh per-file [state] the host hands to the plugin. *)
Definition initialState (fileName : option string) : PluginState :=
  mkState fileName None None false false.

(** One file through the plugin: the traversal of its [Program] node with
    the plugin's visitors, from the registry the files before it left. *)
Definition transformFile (h : Host) (r : registry) (fileName : option string)
    (prog : value) : completion value * World :=
  let w := mkWorld h r (initialState fileName) (mkPath prog []) false Untouched in
  match Traverse.traverse (fun w => w) (fun w _ => w) pluginEnter pluginLeave
                          pluginEmbedded (fun _ _ w => w) prog [] w with
  | (Throw e, _, w') => (Throw e, w')
  | (Normal (Traverse.Kept v), _, w') => (Normal v, w')
  | (Normal _, _, w') => (Normal Null, w')
  end.

End Visitors.

(** ** lifecycle/post.js *)

Module Post.
Import Js Constants Registry.
Local Open Scope js_scope.

(** The files the emitter touches.  [broken] tells the paths on which a
    call of the [fs] module throws (no permission, a directory, ...). *)
Record Fs : Type := mkFs {
  files : list (string * string);
  broken : string -> bool
}.

(** What the emitter takes from outside the repository: the resolved
    paths and [JSON.stringify]. *)
Record Emitter : Type := mkEmitter {
  CONTEXT_FILE_PATH : string;
  ESLINT_GLOBAL_JS_PATH : string;
  eslintRcPath : string;
  stringify : value -> string
}.

Fixpoint readFile (path : string) (l : list (string * string)) : option string :=
  match l with
  | [] => None
  | (p, c) :: rest => if String.eqb path p then Some c else readFile path rest
  end.

Fixpoint writeFile (path content : string) (l : list (string * string))
  : list (string * string) :=
  match l with
  | [] => [(path, content)]
  | (p, c) :: rest =>
      if String.eqb path p then (p, content) :: rest
      else (p, c) :: writeFile path content rest
  end.

(** [fs.writeFileSync(path, content, encoding)] *)
Definition writeFileSync (path content : string) : M Fs unit :=
  fs <- get ;;
  if broken fs path then throw (IOError path)
  else put (mkFs (writeFile path content (files fs)) (broken fs)).

(** [fs.readFileSync(path, encoding)] *)
Definition readFileSync (path : string) : M Fs string :=
  fs <- get ;;
  if broken fs path then throw (IOError path)
  else match readFile path (files fs) with
       | Some c => ret c
       | None => throw (IOError path)
       end.

(** [fs.utimesSync(path, new Date(), new Date())] *)
Definition utimesSync (path : string) : M Fs unit :=
  fs <- get ;;
  if broken fs path then throw (IOError path)
  else match readFile path (files fs) with
       | Some _ => ret tt
       | None => throw (IOError path)
       end.

Fixpoint join (sep : string) (l : list string) : string :=
  match l with
  | [] => ""
  | [x] => x
  | x :: rest => (x ++ sep ++ join sep rest)%string
  end.

Definition exportName (c : string) : string :=
  JsString.replace c _CCTX_CMP_NAME_PREFIX _CCTX_EMPTY.

Definition contextNames (r : registry) : list string :=
  flat_map (fun ke : string * entry =>
              match ctxName (snd ke) with
              | Some c => if String.eqb c "" then [] else [exportName c]
              | None => []
              end) r.

Definition newline : string := String (ascii_of_nat 10) "".

Definition defaultObjProps (em : Emitter) (e : entry) : string :=
  join ("," ++ newline)
       (map (fun name =>
               let val := match lookup name (defaults e) with
                          | Undefined => _CCTX_UNDEFINED
                          | v => stringify em v
                          end in
               ("  " ++ name ++ ": " ++ val)%string)
            (varNames e)).

Definition contextDeclarations (em : Emitter) (r : registry) : string :=
  String.concat ""
    (flat_map (fun ke : string * entry =>
                 match ctxName (snd ke) with
                 | Some c =>
                     if String.eqb c "" then []
                     else [("const " ++ exportName c ++ " = exports." ++ exportName c
                            ++ " = /*#__PURE__*/(0, _react.createContext)({" ++ newline
                            ++ defaultObjProps em (snd ke) ++ newline ++ "});"
                            ++ newline)%string]
                 | None => []
                 end) r).

(** [generateContextContent(virtualRegistry)] *)
Definition generateContextContent (em : Emitter) (r : registry) : M Fs unit :=
  tryCatch
    (writeFileSync (CONTEXT_FILE_PATH em) _CCTX_EMPTY ;;;
     match r with
     | [] => ret tt
     | _ :: _ =>
         let content :=
           ("'use strict';" ++ newline ++ newline
            ++ "Object.defineProperty(exports, '__esModule', {" ++ newline
            ++ "  value: true" ++ newline ++ "});" ++ newline
            ++ "exports." ++ join " = exports." (contextNames r) ++ " = void 0;"
            ++ newline
            ++ "var _react = require('react');" ++ newline
            ++ contextDeclarations em r)%string in
         writeFileSync (CONTEXT_FILE_PATH em) content
     end)
    (fun _ => ret tt).

Definition dquote : string := String (ascii_of_nat 34) "".

Definition lintGlobals (r : registry) : string :=
  join ("," ++ newline)
       (map (fun name =>
               ("  " ++ dquote ++ name ++ dquote ++ ": "
                ++ dquote ++ CASPER_READ_ONLY_TYPE ++ dquote)%string)
            (flat_map (fun ke : string * entry => varNames (snd ke)) r)).

(** [generateLintGlobalJS(virtualRegistry, prevVirtualRegistrySnap)] *)
Definition generateLintGlobalJS (em : Emitter) (r : registry) : M Fs unit :=
  tryCatch
    (match r with
     | [] => ret tt
     | _ :: _ =>
         currentCnt <- readFileSync (ESLINT_GLOBAL_JS_PATH em) ;;
         let fileContent :=
           ("// ****** generated by CasperContext ******" ++ newline
            ++ "module.exports = {" ++ newline ++ lintGlobals r ++ newline
            ++ "};" ++ newline)%string in
         if String.eqb currentCnt fileContent then ret tt
         else
           writeFileSync (ESLINT_GLOBAL_JS_PATH em) _CCTX_EMPTY ;;;
           writeFileSync (ESLINT_GLOBAL_JS_PATH em) fileContent ;;;
           utimesSync (eslintRcPath em)
     end)
    (fun _ => ret tt).

(** [postProcess(file, t, virtualRegistry, prevVirtualRegistrySnap)] *)
Definition postProcess (em : Emitter) (r : registry) : M Fs unit :=
  tryCatch
    (generateContextContent em r ;;;
     generateLintGlobalJS em r)
    (fun _ => ret tt).

End Post.

(** ** lifecycle/pre.js *)

Module Pre.
Import Js Constants Post.
Local Open Scope js_scope.

(** [fs.mkdirSync(dirPath, { recursive: true })]: directories hold no
    content, a call that does not throw changes no file. *)
Definition mkdirSync (dirPath : string) : M Fs unit :=
  fs <- get ;;
  if broken fs dirPath then throw (IOError dirPath) else ret tt.

(** [fs.writeFileSync(path, content, { flag: 'wx' })]: the file is made,
    and the call throws when the path exists. *)
Definition writeFileSyncWx (path content : string) : M Fs unit :=
  fs <- get ;;
  if broken fs path then throw (IOError path)
  else match readFile path (files fs) with
       | Some _ => throw (IOError path)
       | None => put (mkFs (writeFile path content (files fs)) (broken fs))
       end.

(** [createScopeContext()]; [dirPath] is [path.dirname(CONTEXT_FILE_PATH)]. *)
Definition createScopeContext (em : Emitter) (dirPath : string) : M Fs unit :=
  tryCatch
    (mkdirSync dirPath ;;;
     writeFileSyncWx (CONTEXT_FILE_PATH em) _CCTX_EMPTY)
    (fun _ => ret tt).

(** [preProcess(file, t)] *)
Definition preProcess (em : Emitter) (dirPath : string) : M Fs unit :=
  tryCatch (createScopeContext em dirPath) (fun _ => ret tt).

End Pre.

(** ** utils/utilityHelpers.js: the configuration *)

Module Config.
Import Js Constants Post.
Local Open Scope js_scope.

(** [DEFAULT_CONFIG] *)
Definition DEFAULT_CONFIG : list (string * value) :=
  [("prefix", Str GLOBAL_PREFIX); ("debug", Bool false)].

(** What [readCasperConfig] takes from outside the repository: the
    resolved path of the configuration file and [JSON.parse]. *)
Record Reader : Type := mkReader {
  CASPER_CONFIG_PATH : string;
  parse : string -> completion value
}.

(** The module variable [cachedConfig] and the files. *)
Record ConfigStore : Type := mkConfigStore {
  cachedConfig : option (list (string * value));
  disk : Fs
}.

Definition setCached (c : list (string * value)) (s : ConfigStore) : ConfigStore :=
  mkConfigStore (Some c) (disk s).

Definition onDisk {A} (m : M Fs A) : M ConfigStore A :=
  zoom disk (fun d s => mkConfigStore (cachedConfig s) d) m.

(** [fs.existsSync(path)]: it never throws.  On a path that is there and
    cannot be read the call that follows throws. *)
Definition existsSync (path : string) : M Fs bool :=
  fs <- get ;;
  ret (match readFile path (files fs) with
       | Some _ => true
       | None => false
       end).

Definition indexKey (i : nat) : string := NilZero.string_of_uint (Nat.to_uint i).

Fixpoint indexed {A} (f : A -> value) (i : nat) (l : list A) : list (string * value) :=
  match l with
  | [] => []
  | a :: rest => (indexKey i, f a) :: indexed f (S i) rest
  end.

(** The own enumerable properties a spread copies: the fields of an
    object, the items of an array and the characters of a string under
    their indices, nothing of a number, a boolean or [null]. *)
Definition ownProperties (v : value) : list (string * value) :=
  match v with
  | Obj fields => fields
  | Arr l => indexed (fun x => x) 0 l
  | Str s => indexed (fun c => Str (String c "")) 0 (list_ascii_of_string s)
  | _ => []
  end.

(** [{ ...target, ...source }]; the order of the keys is read nowhere. *)
Definition spread (target : list (string * value)) (source : value)
  : list (string * value) :=
  fold_left (fun o kv => setField (fst kv) (snd kv) o) (ownProperties source) target.

(** [readCasperConfig()]; the result is [cachedConfig] as the call leaves
    it. *)
Definition readCasperConfig (c : Reader)
  : M ConfigStore (option (list (string * value))) :=
  s <- get ;;
  match cachedConfig s with
  | Some cfg => ret (Some cfg)
  | None =>
      tryCatch
        (present <- onDisk (existsSync (CASPER_CONFIG_PATH c)) ;;
         if present
         then
           file <- onDisk (readFileSync (CASPER_CONFIG_PATH c)) ;;
           userConfig <- lift (parse c file) ;;
           modify (setCached (spread DEFAULT_CONFIG userConfig))
         else modify (setCached DEFAULT_CONFIG))
        (fun _ => modify (setCached DEFAULT_CONFIG)) ;;;
      s <- get ;;
      ret (cachedConfig s)
  end.

End Config.

(** ** Sample files *)

Module Scenario.
Import Js Ast Path Registry Store Visitors.

(** A host with no [sourceDir] option, the default prefix and a file
    hash. *)
Definition hostWith (hash : string) (implicit : bool) : Host :=
  mkHost (fun _ => Some hash) None implicit
         "/app/src/scopeContext/gblContext.js" Constants.GLOBAL_PREFIX.

Definition moduleHost : Host := hostWith "1a2b3c4d" false.

(** [let name = init;] *)
Definition letDecl (name : string) (init : value) : value :=
  variableDeclaration "let" [variableDeclarator (identifier name) init].

(** [const name = init;] *)
Definition constDecl (name : string) (init : value) : value :=
  variableDeclaration "const" [variableDeclarator (identifier name) init].

(** [function name() { body }] *)
Definition component (name : string) (body : list value) : value :=
  functionDeclaration (identifier name) [] (blockStatement body).

(** [('use strict');]: an expression statement whose expression is the
    string literal.  In parentheses the string is no directive, and the
    statement is one of the [body]; this is the statement that
    [getInsertionIndex] looks for. *)
Definition useStrictStatement : value :=
  expressionStatement (stringLiteral Constants.USE_STRICT).

(** ['use strict';
     function Counter() { let _$_count = 0; }] *)
Definition strictFile : value :=
  programWith [component "Counter" [letDecl "_$_count" (numericLiteral 0)]]
              [directive Constants.USE_STRICT].

(** The statements of a [Program] or of a function's block. *)
Definition statements (n : value) : list value :=
  match optProp "body" n with
  | Arr l => l
  | Obj _ as block =>
      match optProp "body" block with
      | Arr l => l
      | _ => []
      end
  | _ => []
  end.

(** The body of the top-level function declaration called [name]. *)
Definition bodyOf (name : string) (prog : value) : list value :=
  match List.find (fun n => isFunctionDeclaration n
                            && isIdentifierNamed name (optProp "id" n))
                  (statements prog) with
  | Some f => statements f
  | None => []
  end.

(** The output of the plugin on a file, [Null] if the traversal threw. *)
Definition output (r : completion value * World) : value :=
  orElse (fst r) Null.

(** The plugin on one file, from an empty registry. *)
Definition compile (h : Host) (fileName : string) (prog : value) : value :=
  output (transformFile h [] (Some fileName) prog).

(** The path of the node a route leads to, from the root of a file. *)
Definition pathAt (route : list Traverse.step) (prog : value) : path :=
  match Traverse.descend route (mkPath prog []) with
  | Some p => p
  | None => mkPath Null []
  end.

(** [prevState => ({ ...prevState, x: rhs })] *)
Definition updater (x : string) (rhs : value) : value :=
  arrowFunctionExpression [identifier "prevState"]
    (objectExpression
       [spreadElement (identifier "prevState");
        objectProperty (identifier x) rhs false false]).

(** [const [a, setA] = (0, _react.useState)({ props })] *)
Definition useStateOf (a setA : string) (props : list value) : value :=
  variableDeclaration "const"
    [variableDeclarator
       (arrayPattern [identifier a; identifier setA])
       (callExpression
          (sequenceExpression
             [numericLiteral 0;
              memberExpression (identifier "_react") (identifier "useState") false])
          [objectExpression props])].

(** [_react.createElement(_gblContext.K.Provider, { value: { a, setA } },
    children)] *)
Definition providerOf (K a setA : string) (children : value) : value :=
  callExpression
    (memberExpression (identifier "_react") (identifier "createElement") false)
    [memberExpression
       (memberExpression (identifier "_gblContext") (identifier K) false)
       (identifier "Provider") false;
     objectExpression
       [objectProperty (identifier "value")
          (objectExpression
             [objectProperty (identifier a) (identifier a) false true;
              objectProperty (identifier setA) (identifier setA) false true])
          false false];
     children].

(** [const CTX_K = (0, _react.useContext)(_gblContext.K)] *)
Definition useContextOf (K : string) : value :=
  variableDeclaration "const"
    [variableDeclarator
       (identifier ("CTX_" ++ K)%string)
       (callExpression
          (sequenceExpression
             [numericLiteral 0;
              memberExpression (identifier "_react") (identifier "useContext") false])
          [memberExpression (identifier "_gblContext") (identifier K) false])].

(** [function Counter() { let _$_count = 0; return _$_count; }] *)
Definition counterFile : value :=
  program [component "Counter"
             [letDecl "_$_count" (numericLiteral 0);
              returnStatement (identifier "_$_count")]].

(** [function Counter() { let _$_count = 0; _$_count = 5; }] *)
Definition counterAssignFile : value :=
  program [component "Counter"
             [letDecl "_$_count" (numericLiteral 0);
              expressionStatement
                (assignmentExpression "=" (identifier "_$_count") (numericLiteral 5))]].

(** [function Admin() { let _$_adminName = 'Jakie'; }
    function Adm() { _$_adminName; }
    function Customer() { _$_adminName; }] *)
Definition adminFile : value :=
  program [component "Admin" [letDecl "_$_adminName" (stringLiteral "Jakie")];
           component "Adm" [expressionStatement (identifier "_$_adminName")];
           component "Customer" [expressionStatement (identifier "_$_adminName")]].

(** [function Counter() { let _$_count = 0; <p>{_$_count}</p>; }]: the
    read is an expression child of the markup element. *)
Definition markupChildFile : value :=
  program [component "Counter"
             [letDecl "_$_count" (numericLiteral 0);
              expressionStatement
                (jsxElement (jsxOpeningElement (jsxIdentifier "p") [])
                            (jsxClosingElement (jsxIdentifier "p"))
                            [jsxExpressionContainer (identifier "_$_count")])]].

(** [function App() {
       let _$_x = 0;
       const Inner = () => { let _$_y = 1; return 2; };
       return 1;
     }] *)
Definition nestedFile : value :=
  program [component "App"
             [letDecl "_$_x" (numericLiteral 0);
              constDecl "Inner"
                (arrowFunctionExpression []
                   (blockStatement [letDecl "_$_y" (numericLiteral 1);
                                    returnStatement (numericLiteral 2)]));
              returnStatement (numericLiteral 1)]].

(** [const App = () => { let _$_x = 0; return 1; };] *)
Definition arrowFile : value :=
  program [constDecl "App"
             (arrowFunctionExpression []
                (blockStatement [letDecl "_$_x" (numericLiteral 0);
                                 returnStatement (numericLiteral 1)]))].

(** The body of the function expression that the [index]-th statement of
    [stmts] binds, for a statement [const f = () => { ... }]. *)
Definition boundFunctionBody (index : nat) (stmts : list value) : list value :=
  match nth_error stmts index with
  | Some decl =>
      match optProp "declarations" decl with
      | Arr [d] => statements (optProp "init" d)
      | _ => []
      end
  | None => []
  end.

(** The world in which the assignment of [counterAssignFile] is visited,
    in a host that lets the visitor create its global. *)
Definition atCounterAssignment : World :=
  mkWorld (hostWith "1a2b3c4d" true)
          [("Counter_1a2b3c4d",
            mkEntry ["_$_count"] (Some "_$_ctx_Counter_1a2b3c4d")
                    [("_$_count", Num 0)])]
          (mkState (Some "/app/src/Counter.js") (Some "_$_")
                   (Some emptyImportState) true true)
          (pathAt [Traverse.Field "body"; Traverse.Item 0; Traverse.Field "body";
                   Traverse.Field "body"; Traverse.Item 1;
                   Traverse.Field "expression"] counterAssignFile)
          false Untouched.

(** The world in which the read inside [Adm] in [adminFile] is visited,
    the variable of [Admin] being registered. *)
Definition atAdmRead : World :=
  mkWorld moduleHost
          [("Admin_1a2b3c4d",
            mkEntry ["_$_adminName"] (Some "_$_ctx_Admin_1a2b3c4d")
                    [("_$_adminName", Str "Jakie")])]
          (mkState (Some "/app/src/Admin.js") (Some "_$_")
                   (Some emptyImportState) true true)
          (pathAt [Traverse.Field "body"; Traverse.Item 1; Traverse.Field "body";
                   Traverse.Field "body"; Traverse.Item 0;
                   Traverse.Field "expression"] adminFile)
          false Untouched.

(** The world in which the read in the markup child of [markupChildFile]
    is visited. *)
Definition atMarkupChildRead : World :=
  mkWorld moduleHost (virtualRegistry atCounterAssignment)
          (state atCounterAssignment)
          (pathAt [Traverse.Field "body"; Traverse.Item 0; Traverse.Field "body";
                   Traverse.Field "body"; Traverse.Item 1;
                   Traverse.Field "expression"; Traverse.Field "children";
                   Traverse.Item 0; Traverse.Field "expression"] markupChildFile)
          false Untouched.

(** [function List() {
       let _$_n = 0;
       for (const _$_item of items) { }
       return 1;
     }]; the declarator in the head of the loop has no initializer. *)
Definition loopFile : value :=
  program [component "List"
             [letDecl "_$_n" (numericLiteral 0);
              forOfStatement
                (variableDeclaration "const"
                   [variableDeclarator (identifier "_$_item") Null])
                (identifier "items") (blockStatement []);
              returnStatement (numericLiteral 1)]].

(** [function Page() {
       let _$_title = 1;
       const Panel = () => { let _$_open = 2; return 3; };
       return 4;
     }] *)
Definition panelFile : value :=
  program [component "Page"
             [letDecl "_$_title" (numericLiteral 1);
              constDecl "Panel"
                (arrowFunctionExpression []
                   (blockStatement [letDecl "_$_open" (numericLiteral 2);
                                    returnStatement (numericLiteral 3)]));
              returnStatement (numericLiteral 4)]].


(** The same visit in module code, where an assignment to a name that is
    declared nowhere raises a ReferenceError. *)
Definition atModuleAssignment : World :=
  mkWorld moduleHost (virtualRegistry atCounterAssignment)
          (state atCounterAssignment) (here atCounterAssignment) false Untouched.

(** [import React from 'react';] *)
Definition importReact : value :=
  node "ImportDeclaration"
       [("specifiers", Arr [node "ImportDefaultSpecifier"
                                 [("local", identifier "React")]]);
        ("source", stringLiteral "react")].

(** [import React from 'react';
    function Counter() { let _$_count = 0; return _$_count; }] *)
Definition reactCounterFile : value :=
  program [importReact;
           component "Counter"
             [letDecl "_$_count" (numericLiteral 0);
              returnStatement (identifier "_$_count")]].

(** [function Plain() { const n = 1; return n; }] *)
Definition plainFile : value :=
  program [component "Plain"
             [constDecl "n" (numericLiteral 1);
              returnStatement (identifier "n")]].

(** [let _$_shared = 0;] at the top of a file, and the world in which its
    declarator is visited. *)
Definition moduleLevelFile : value :=
  program [letDecl "_$_shared" (numericLiteral 0)].

Definition atModuleDeclarator : World :=
  mkWorld moduleHost [] (state atCounterAssignment)
          (pathAt [Traverse.Field "body"; Traverse.Item 0;
                   Traverse.Field "declarations"; Traverse.Item 0] moduleLevelFile)
          false Untouched.

(** [function Ghost() { _$_ghost; }], and the world in which the read is
    visited with a registry that does not list [_$_ghost]. *)
Definition ghostFile : value :=
  program [component "Ghost" [expressionStatement (identifier "_$_ghost")]].

Definition atGhostRead : World :=
  mkWorld moduleHost (virtualRegistry atCounterAssignment)
          (mkState (Some "/app/src/Ghost.js") (Some "_$_")
                   (Some emptyImportState) false false)
          (pathAt [Traverse.Field "body"; Traverse.Item 0; Traverse.Field "body";
                   Traverse.Field "body"; Traverse.Item 0;
                   Traverse.Field "expression"] ghostFile)
          false Untouched.

(** The world in which the return statement of [counterFile] is visited,
    in a file that imports [useState] by name, as [useState], and React
    itself in no way. *)
Definition atNamedImportReturn : World :=
  mkWorld moduleHost (virtualRegistry atCounterAssignment)
          (mkState (Some "/app/src/Counter.js") (Some "_$_")
                   (Some (mkImportState Null (identifier "useState") false true false
                                        Null))
                   true false)
          (pathAt [Traverse.Field "body"; Traverse.Item 0; Traverse.Field "body";
                   Traverse.Field "body"; Traverse.Item 1] counterFile)
          false Untouched.

End Scenario.

(** ** The properties the theorems are stated with *)

Module Properties.
Import Js Constants Ast Path Registry Store Utility AstHelpers Visitors.

(** Code that returns, whatever the store it starts from. *)
Definition neverThrows {S A : Type} (m : M S A) : Prop :=
  forall s, returns (fst (m s)) = true.

(** Code that leaves the part [f] of the store as it was. *)
Definition keeps {S A X : Type} (f : S -> X) (m : M S A) : Prop :=
  forall s, f (snd (m s)) = f s.

(** Code that leaves the visited path as it was whenever it throws. *)
Definition failsClean {A : Type} (m : M World A) : Prop :=
  forall w, returns (fst (m w)) = false -> here (snd (m w)) = here w.

(** [op] is [body] inside [try { } catch (e) { }]: it returns where [body]
    returns, and a throw of [body] comes out as [sentinel], the visited
    path being as it was. *)
Definition degrades {A : Type} (body op : M World A) (sentinel : A) : Prop :=
  forall w,
    returns (fst (body w)) = false ->
    fst (op w) = Normal sentinel /\ here (snd (op w)) = here w.

(** An operation on the tree that does all of its work or none: it leaves
    the world as it was, or it changes the visited path and the record of
    what was done to it, and nothing else. *)
Definition allOrNothing (op : M World unit) : Prop :=
  forall w,
    snd (op w) = w \/
    exists p' eff, snd (op w) = setEffect eff (setHere p' w).

(** The [require] statements [programExit] puts in front of the file. *)
Definition injectedRequires (h : Host) (st : PluginState) : list value :=
  (if needsGblContext st
   then [requireDeclaration _CCTX_UNDUS_CORE_GBL_CONTEXT (contextFilePath h)]
   else [])
  ++ (if needUseStateImport st
      then [requireDeclaration _CCTX_UNDUS_CORE_REACT _CCTX_REACT]
      else []).

(** The directives of the prologue of a file. *)
Definition directivesOf (prog : value) : list value :=
  match optProp "directives" prog with
  | Arr l => l
  | _ => []
  end.

(** The directives and the statements of a file in the order of its
    text: the prologue, then the body. *)
Definition fileText (prog : value) : list value :=
  directivesOf prog
  ++ match optProp "body" prog with
     | Arr l => l
     | _ => []
     end.

(** The positions in which [identifierVisitor] leaves an identifier
    alone: the [id] of a declarator, the [left] of an assignment, the
    [argument] of an update expression, the [key] of a property that is
    not computed, any position below a JSX expression container,
    attribute, opening or closing element or member expression, and any
    position that is not a reference. *)
Definition excludedPosition (p : path) : bool :=
  (isVariableDeclarator (parent p) && keyIs p "id")
  || (isAssignmentExpression (parent p) && keyIs p "left")
  || (isType "UpdateExpression" (parent p) && keyIs p "argument")
  || (isObjectProperty (parent p) && keyIs p "key"
      && negb (truthy (optProp "computed" (parent p))))
  || existsb isJSXAncestor (ancestors p)
  || negb (isReferencedIdentifier p).

Definition hasKey (k : string) (fields : list (string * value)) : bool :=
  existsb (fun kv => String.eqb k (fst kv)) fields.



(** *** Properties of the registry *)

(** The entry stored under [K]: its context is named after [K], no
    variable is listed twice, and the defaults are those of the listed
    variables, in order. *)
Definition entryOK (K : string) (e : entry) : Prop :=
  ctxName e = Some (_CCTX_CMP_NAME_PREFIX ++ K)%string /\
  NoDup (varNames e) /\
  map fst (defaults e) = varNames e.

Definition wellFormed (r : registry) : Prop :=
  NoDup (map fst r) /\ Forall (fun ke => entryOK (fst ke) (snd ke)) r.

Definition hasEntry (K : string) (r : registry) : bool :=
  existsb (fun ke => String.eqb K (fst ke)) r.

(** The entries of other files are those of [r0], and the keys of [r0]
    are still there, in order, before the keys of this file that were
    added. *)
Definition extends (suffix : string) (r0 r : registry) : Prop :=
  (forall K, JsString.endsWith K suffix = false -> find K r = find K r0) /\
  exists added, map fst r = map fst r0 ++ added /\
                Forall (fun K => JsString.endsWith K suffix = true) added.

(** *** Properties of the pass over a file *)

(** Code that keeps [P] true of the store. *)
Definition preserves {S A : Type} (P : S -> Prop) (m : M S A) : Prop :=
  forall s, P s -> P (snd (m s)).

(** What outlives the visit of a node: the host, the registry and the
    per-file state. *)
Definition core (w : World) : Host * registry * PluginState :=
  (host w, virtualRegistry w, state w).

Definition fileOf (w : World) : Host * string := (host w, fileNameOf (state w)).

(** The suffix of the registry keys of the file being processed. *)
Definition fileSuffix (w : World) : string :=
  ("_" ++ getFilePathHASH (host w) (fileNameOf (state w)))%string.

Definition keySuffix (h : Host) (fileName : option string) : string :=
  ("_" ++ getFilePathHASH h (fileNameOf (initialState fileName)))%string.

(** Some node of [v] has a [name] that starts with [pre]. *)
Fixpoint mentions (pre : string) (v : value) : bool :=
  match v with
  | Obj fields =>
      match lookup "name" fields with
      | Str n => JsString.startsWith n pre
      | _ => false
      end
      || existsb (fun kv => mentions pre (snd kv)) fields
  | Arr l => existsb (mentions pre) l
  | _ => false
  end.

(** Some node of [v] has fields of which [f] holds. *)
Fixpoint anyNode (f : list (string * value) -> bool) (v : value) : bool :=
  match v with
  | Obj fields => f fields || existsb (fun kv => anyNode f (snd kv)) fields
  | Arr l => existsb (anyNode f) l
  | _ => false
  end.

(** The nodes on which the pass has something to do, with the prefix
    [pre] and the registry [r]: a [Program] node, a declarator of a name
    with the prefix, and a node named by a variable that [r] lists. *)
Definition stirs (pre : string) (r : registry) (fields : list (string * value))
  : bool :=
  isType "Program" (Obj fields)
  || (isVariableDeclarator (Obj fields)
      && match optProp "name" (lookup "id" fields) with
         | Str n => JsString.startsWith n pre
         | _ => false
         end)
  || match lookup "name" fields with
     | Str n =>
         JsString.startsWith n pre
         && match findContextByVar_loop n r with
            | Some _ => true
            | None => false
            end
     | _ => false
     end.

(** What [importStateResolver] finds in the body of a [Program] node. *)
Definition importsOf (prog : value) : completion ImportState :=
  andThen (prop "body" prog) (fun body =>
  andThen (items "forEach" body) (fun l =>
  foldC importStateResolver_node l emptyImportState)).

(** The state knows a name for React or for [useState]. *)
Definition knowsReact (st : PluginState) : bool :=
  match importState st with
  | Some i => truthy (reactId i) || truthy (useStateId i)
  | None => false
  end.

(** The file imports React by default or as a namespace, or it imports
    [useState] from it. *)
Definition importsReact (prog : value) : bool :=
  match importsOf prog with
  | Normal i => truthy (reactId i) || truthy (useStateId i)
  | Throw _ => false
  end.

(** A specifier that gives React or [useState] a local name. *)
Definition bindingSpecifier (spec : value) : bool :=
  isType "ImportDefaultSpecifier" spec
  || isType "ImportNamespaceSpecifier" spec
  || (isType "ImportSpecifier" spec
      && match optProp "name" (optProp "imported" spec) with
         | Str n => String.eqb n REACT_IMPORT_USE_STATE_HOOKS_NAME
         | _ => false
         end).

(** A specifier as the parser makes it: what it imports is a node, and it
    has a local name. *)
Definition specifierOK (spec : value) : bool :=
  (if isType "ImportSpecifier" spec
   then match optProp "imported" spec with
        | Obj _ => true
        | _ => false
        end
   else true)
  && (if bindingSpecifier spec then truthy (optProp "local" spec) else true).

(** A statement with which the resolver goes through: an import
    declaration has a source node and, when the source is [react], a list
    of specifiers as the parser makes them. *)
Definition importOK (n : value) : bool :=
  if isImportDeclaration n
  then match optProp "source" n with
       | Obj source =>
           match lookup "value" source with
           | Str v =>
               if String.eqb v REACT_IMPORT_CORE_NAME
               then match optProp "specifiers" n with
                    | Arr l => forallb specifierOK l
                    | _ => false
                    end
               else true
           | _ => true
           end
       | _ => false
       end
  else true.

(** An import declaration from [react] with a specifier that gives React
    or [useState] a local name. *)
Definition bindsReact (n : value) : bool :=
  isImportDeclaration n
  && match optProp "value" (optProp "source" n) with
     | Str v => String.eqb v REACT_IMPORT_CORE_NAME
     | _ => false
     end
  && match optProp "specifiers" n with
     | Arr l => existsb bindingSpecifier l
     | _ => false
     end.

(** Every [Program] node of [v] imports React. *)
Fixpoint programsImportReact (v : value) : bool :=
  match v with
  | Obj fields =>
      (if isType "Program" v then importsReact v else true)
      && forallb (fun kv => programsImportReact (snd kv)) fields
  | Arr l => forallb programsImportReact l
  | _ => true
  end.

Definition reactOK (w : World) : Prop :=
  needUseStateImport (state w) = false /\ knowsReact (state w) = true.

(** A function or a class declaration: what [getInheritantDecComponent]
    stops at. *)
Definition isScope (v : value) : bool :=
  isFunctionDeclaration v || isFunctionExpression v
  || isArrowFunctionExpression v || isClassDeclaration v.

(** *** Literal initializers *)

(** A number, a string or a boolean. *)
Definition plain (d : value) : bool :=
  match d with
  | Num _ | Str _ | Bool _ => true
  | _ => false
  end.

(** A plain value or [null]. *)
Definition scalar (d : value) : bool :=
  plain d || match d with
             | Null => true
             | _ => false
             end.

(** The literal that stands for a plain value, and for [null]. *)
Definition literal (d : value) : value :=
  match d with
  | Num z => numericLiteral z
  | Str s => stringLiteral s
  | Bool b => booleanLiteral b
  | _ => nullLiteral
  end.

(** A key that an identifier can be: it is not empty and does not start
    with a digit. *)
Definition identifierKey (k : string) : bool :=
  match k with
  | EmptyString => false
  | String c _ => negb (isDigit c)
  end.

Definition notProto (kd : string * value) : bool :=
  negb (String.eqb (fst kd) "__proto__").

(** [{ k: d, ... }] *)
Definition objectLiteral (kds : list (string * value)) : value :=
  objectExpression
    (map (fun kd : string * value =>
            objectProperty (identifier (fst kd)) (literal (snd kd)) false false) kds).


(** *** What the traversal at the exit of an owner leaves *)

(** The name of an [Identifier] node. *)
Definition identifierName (v : value) : option string :=
  if isIdentifier v
  then match optProp "name" v with
       | Str n => Some n
       | _ => None
       end
  else None.

(** A declarator of a managed variable: its [id] is an identifier whose
    name starts with the prefix. *)
Definition managedDeclarator (pre : string) (d : value) : bool :=
  isVariableDeclarator d
  && match identifierName (optProp "id" d) with
     | Some n => JsString.startsWith n pre
     | None => false
     end.

(** A declaration of a managed variable is somewhere in [v], at any
    depth: a [VariableDeclaration] whose [declarations] hold a managed
    declarator. *)
Fixpoint hasManaged (pre : string) (v : value) : bool :=
  match v with
  | Obj fields =>
      (isVariableDeclaration v
       && match lookup "declarations" fields with
          | Arr l => existsb (managedDeclarator pre) l
          | _ => false
          end)
      || existsb (fun kv => hasManaged pre (snd kv)) fields
  | Arr l => existsb (hasManaged pre) l
  | _ => false
  end.

(** The node at [p] is held by the [declarations] of a
    [VariableDeclaration]. *)
Definition declaratorContext (p : path) : bool :=
  isVariableDeclaration (parent p)
  && match optProp "declarations" (parent p) with
     | Arr _ => true
     | _ => false
     end.

(** The items of the list that [up] leads up from are in declarator
    context. *)
Definition listContext (up : list frame) : Prop :=
  forall b d r, declaratorContext (mkPath d (InItem b r :: up)) = true.

Definition exitState (x : ExitStore) : PluginState := state (exitWorld x).

(** What the traversal keeps of a value: strings and identifier names of
    the result are those of the value it comes from. *)
Definition comesFrom (c c' : value) : Prop :=
  (forall s, c' = Str s -> c = Str s) /\
  (forall n, identifierName c' = Some n -> identifierName c = Some n).

(** A node from which [path.remove()] cannot take its child: a
    [for]-[in] or [for]-[of] loop, whose head must stay, and a [with]
    statement, whose body must. *)
Definition holdsFast (fields : list (string * value)) : bool :=
  isType "ForInStatement" (Obj fields) || isType "ForOfStatement" (Obj fields)
  || isType "WithStatement" (Obj fields).

(** No such node is in [v], at any depth. *)
Definition loose (v : value) : bool := negb (anyNode holdsFast v).

(** A node can be removed from every position on the way up through
    [fs], the root apart. *)
Fixpoint calm (fs : list frame) : bool :=
  match fs with
  | [] => true
  | _ :: rest => Traverse.removable Null fs && calm rest
  end.

(** The frames of [path.parentPath], for a path with the frames [fs]. *)
Fixpoint parentFrames (fs : list frame) : option (list frame) :=
  match fs with
  | [] => None
  | InItem _ _ :: rest => parentFrames rest
  | InField _ _ _ :: rest => Some rest
  end.

(** The frames of a node below the root whose parent is below the root
    too, with [calm] frames. *)
Definition steady (fs : list frame) : Prop :=
  fs <> [] /\ calm fs = true /\
  exists f r, parentFrames fs = Some (f :: r).

Section Settled.
Variable pre : string.

(** The result [c'] of the traversal of a field value [c]: no managed
    declaration is left in it, and where it is the list of declarators of
    a declaration, no managed declarator. *)
Definition fine (up : list frame) (c c' : value) : Prop :=
  hasManaged pre c' = false /\
  comesFrom c c' /\
  (forall l', c' = Arr l' -> listContext up ->
              existsb (managedDeclarator pre) l' = false).

(** The fields [added] are what the traversal made, in order, of the
    fields [todo] that follow the fields [before] in a node. *)
Inductive FieldsDone (up : list frame)
  : list (string * value) -> list (string * value) -> list (string * value)
    -> Prop :=
| FD_nil before : FieldsDone up before [] []
| FD_cons before k c rest c' added :
    fine (InField before k rest :: up) c c' ->
    FieldsDone up (before ++ [(k, c')]) rest added ->
    FieldsDone up before ((k, c) :: rest) ((k, c') :: added).

(** The result [v'] of the traversal of the value [v] at [fs]. *)
Definition settled (fs : list frame) (v v' : value) : Prop :=
  fine fs v v' /\
  (managedDeclarator pre v' = true -> managedDeclarator pre v = true) /\
  (declaratorContext (mkPath v fs) = true -> managedDeclarator pre v = false).

(** A value that stands where a field value was replaced or removed: no
    managed declaration in it, and neither a string, a list nor an
    identifier. *)
Definition wrapped (w : value) : Prop :=
  hasManaged pre w = false /\
  (forall s, w <> Str s) /\
  (forall l, w <> Arr l) /\
  identifierName w = None.

(** The frames a replaced field value is put back into keep a clean
    value clean, with it and without it, and steady frames steady. *)
Definition wrapper (inner : list frame) : Prop :=
  inner <> [] /\
  (forall c, hasManaged pre c = false -> wrapped (plug c inner)) /\
  wrapped (Traverse.plugGone inner) /\
  (forall up, up <> [] -> calm up = true -> steady (inner ++ up)).

End Settled.

(** The traversal that [functionDeclarationExit] runs for the entry [e]. *)
Definition exitRun (e : entry) : value -> list frame -> ExitStore -> Traverse.result :=
  Traverse.traverse exitWorld setExitWorld (exitEnter e) (ret tt)
                    exitEmbedded exitDetached.

(** What the traversal of [v] comes to, at every steady position and from
    every store whose plugin state is [st], when [v] is loose: it
    returns, with the frames and the plugin state it was given, and what
    it keeps of [v] is settled. *)
Definition traversed (e : entry) (pre : string) (st : PluginState) (v : value)
  : Prop :=
  forall fs x,
    exitState x = st ->
    steady fs ->
    loose v = true ->
    exists o x',
      exitRun e v fs x = (Normal o, fs, x') /\ exitState x' = st /\
      forall v', o = Traverse.Kept v' -> settled pre fs v v'.

(** The frames of the field a visitor replaced keep what [wrapper] asks. *)
Definition specialOK (pre : string) (special : option (string * list frame))
  : Prop :=
  match special with
  | Some (_, inner) => wrapper pre inner
  | None => True
  end.

End Properties.

(* ================================================================== *)
(** * Theorems *)
(* ================================================================== *)

(** ** The registry: idempotent registration and per-file reset *)

Section RegistryFacts.
Import Js Registry.

Lemma find_store_same (k : string) (e : entry) (r : registry) :
  find k (store k e r) = Some e.
Proof.
  induction r as [|[k' e'] rest IH]; simpl.
  - now rewrite String.eqb_refl.
  - destruct (String.eqb k k') eqn:E; simpl; rewrite E; auto.
Qed.

Lemma store_store (k : string) (e e' : entry) (r : registry) :
  store k e (store k e' r) = store k e r.
Proof.
  induction r as [|[k0 e0] rest IH]; simpl.
  - now rewrite String.eqb_refl.
  - destruct (String.eqb k k0) eqn:E; simpl; rewrite E; [reflexivity|].
    now rewrite IH.
Qed.

Lemma lookup_setField_same (k : string) (v : value) (fields : list (string * value)) :
  lookup k (setField k v fields) = v.
Proof.
  induction fields as [|[k' v'] rest IH]; simpl.
  - now rewrite String.eqb_refl.
  - destruct (String.eqb k k') eqn:E; simpl; rewrite E; auto.
Qed.

Lemma lookup_setField_other (k k' : string) (v : value) (l : list (string * value)) :
  k <> k' -> lookup k (setField k' v l) = lookup k l.
Proof.
  intros N. apply String.eqb_neq in N.
  induction l as [|[a x] l IH]; cbn [setField lookup]; [now rewrite N|].
  destruct (String.eqb k' a) eqn:E; cbn [lookup].
  - apply String.eqb_eq in E. subst a. now rewrite N.
  - now rewrite IH.
Qed.

Lemma arrIncludes_app (l1 l2 : list string) (x : string) :
  JsString.arrIncludes (l1 ++ l2) x
  = JsString.arrIncludes l1 x || JsString.arrIncludes l2 x.
Proof. unfold JsString.arrIncludes. apply existsb_app. Qed.


Lemma endsWith_unfold (s search : string) :
  JsString.endsWith s search
  = if String.eqb s search then true
    else match s with
         | EmptyString => false
         | String _ t => JsString.endsWith t search
         end.
Proof. destruct s; reflexivity. Qed.

Lemma endsWith_iff (s search : string) :
  JsString.endsWith s search = true <-> exists p, s = (p ++ search)%string.
Proof.
  split.
  - induction s as [|c t IH]; rewrite endsWith_unfold;
      destruct (String.eqb _ search) eqn:E; intros H; try discriminate.
    + apply String.eqb_eq in E. exists "". now subst.
    + apply String.eqb_eq in E. exists "". now subst.
    + destruct (IH H) as [p ->]. now exists (String c p).
  - intros [p ->]. induction p as [|c p IH].
    + rewrite endsWith_unfold. simpl (_ ++ _)%string.
      now rewrite String.eqb_refl.
    + rewrite endsWith_unfold.
      change (String c p ++ search)%string with (String c (p ++ search)).
      cbv beta iota. rewrite IH. now destruct (String.eqb _ _).
Qed.

Lemma registerVariable_known
    (r : registry) (K v : string) (d : value) (e : entry) :
  find K r = Some e ->
  JsString.arrIncludes (varNames e) v = true ->
  registerVariable K v d r = (Normal (ctxName e), r).
Proof.
  intros F I. unfold registerVariable, registerVariable_body, tryCatch.
  unfold bind, get, put, ret. cbv beta iota. rewrite F. cbv beta iota.
  rewrite F, I. reflexivity.
Qed.

Lemma registerVariable_new
    (r : registry) (K v : string) (d : value) :
  registered K v r = false ->
  exists e0,
    (find K r = Some e0 \/ (find K r = None /\ e0 = newEntry)) /\
    JsString.arrIncludes (varNames e0) v = false /\
    let ctx := (Constants._CCTX_CMP_NAME_PREFIX ++ K)%string in
    let e3 := mkEntry (varNames e0 ++ [v]) (Some ctx)
                      (setField v d (defaults e0)) in
    registerVariable K v d r = (Normal (Some ctx), store K e3 r) /\
    find K (store K e3 r) = Some e3.
Proof.
  unfold registered. intros Hnew.
  unfold registerVariable, registerVariable_body, tryCatch.
  unfold bind, get, put, ret.
  destruct (find K r) as [e0|] eqn:F0.
  - exists e0. split; [now left|]. split; [exact Hnew|].
    cbv beta iota zeta. rewrite F0, Hnew. cbn [varNames defaults ctxName].
    split; [reflexivity|apply find_store_same].
  - exists newEntry. split; [now right|]. split; [reflexivity|].
    cbv beta iota zeta. rewrite find_store_same.
    change (JsString.arrIncludes (varNames newEntry) v) with false.
    cbv beta iota. cbn [varNames defaults ctxName newEntry app].
    split; [|apply find_store_same].
    now rewrite store_store.
Qed.



(** C7. The per-file reset keeps every key, in order; an entry whose key
    ends with [_H] keeps its context name and has its variable names and
    defaults emptied; every other entry is unchanged. *)
Theorem resetVarsForFile_frame (r : registry) (H : string) :
  let '(c, r') := resetVarsForFile H r in
  c = Normal tt /\
  Forall2 (fun old new =>
             fst new = fst old /\
             ctxName (snd new) = ctxName (snd old) /\
             if JsString.endsWith (fst old) ("_" ++ H)%string
             then varNames (snd new) = [] /\ defaults (snd new) = []
             else snd new = snd old) r r'.
Proof.
  unfold resetVarsForFile, tryCatch, modify. cbn. split; [reflexivity|].
  induction r as [|[k e] rest IH]; cbn [resetVarsForFile_loop].
  - constructor.
  - constructor; [|exact IH].
    cbn [fst snd]. destruct (JsString.endsWith k _); cbn; auto.
Qed.

End RegistryFacts.

(** ** Induction on values and on the traversal *)

Section ValueInduction.
Import Js.
Variable P : value -> Prop.
Hypothesis P_Undefined : P Undefined.
Hypothesis P_Null : P Null.
Hypothesis P_Bool : forall b, P (Bool b).
Hypothesis P_Num : forall z, P (Num z).
Hypothesis P_Str : forall s, P (Str s).
Hypothesis P_Arr : forall items, Forall P items -> P (Arr items).
Hypothesis P_Obj :
  forall fields, Forall (fun kv => P (snd kv)) fields -> P (Obj fields).

Lemma value_nested_ind : forall v, P v.
Proof.
  fix IH 1. intros [| |b|z|s|items|fields].
  - exact P_Undefined.
  - exact P_Null.
  - apply P_Bool.
  - apply P_Num.
  - apply P_Str.
  - apply P_Arr. induction items as [|x rest IHl]; constructor.
    + apply IH.
    + exact IHl.
  - apply P_Obj. induction fields as [|[k x] rest IHl]; constructor.
    + apply IH.
    + exact IHl.
Qed.

End ValueInduction.

Section TraverseReturns.
Import Js Path Store Traverse.
Context {S : Type}.
Variable world : S -> World.
Variable setWorld : World -> S -> S.
Variable enter leave : M S unit.
Variable embedded : value -> value -> option (string * list step).
Variable detached : S -> value -> S -> S.
Hypothesis enter_returns : forall s, returns (fst (enter s)) = true.
Hypothesis leave_returns : forall s, returns (fst (leave s)) = true.

Let run := traverse world setWorld enter leave embedded detached.

Lemma inItems_returns (todo : list value) :
  Forall (fun c => forall fs st, returns (fst (fst (run c fs st))) = true) todo ->
  forall before up gone st,
    returns (fst (fst (inItems run before todo up gone st))) = true.
Proof.
  induction 1 as [|c rest Hc _ IH]; intros before up gone st; cbn [inItems].
  - now destruct gone.
  - specialize (Hc (InItem before rest :: up) st).
    destruct (run c _ st) as [[[o|e] fs'] s']; [|discriminate].
    destruct o; apply IH.
Qed.

Lemma inFields_returns (todo : list (string * value)) :
  Forall (fun kv => forall fs st, returns (fst (fst (run (snd kv) fs st))) = true)
         todo ->
  forall hook special before up gone st,
    returns (fst (fst (inFields run hook special before todo up gone st))) = true.
Proof.
  induction 1 as [|[k c] rest Hc _ IH]; intros hook special before up gone st;
    cbn [inFields].
  - reflexivity.
  - cbv zeta.
    match goal with
    | |- context [run c ?fs st] => specialize (Hc fs st); cbn [snd] in Hc;
                                   destruct (run c fs st) as [[[o|e] fs'] s']
    end; [|discriminate].
    destruct o; apply IH.
Qed.

Lemma inEmbedded_returns (todo : list (string * value)) :
  Forall (fun kv => forall fs st, returns (fst (fst (run (snd kv) fs st))) = true)
         todo ->
  forall k0 v1 fs1 inner st,
    returns (fst (fst (inEmbedded run k0 v1 fs1 inner todo st))) = true.
Proof.
  induction 1 as [|[k c] rest Hc _ IH]; intros k0 v1 fs1 inner st;
    cbn [inEmbedded].
  - reflexivity.
  - destruct (String.eqb k k0); [|apply IH].
    specialize (Hc (inner ++ fs1) st). cbn [snd] in Hc.
    destruct (run c _ st) as [[[o|e] fs'] s']; [|discriminate].
    now destruct o.
Qed.

(** Visitors that return make a traversal that returns. *)
Lemma traverse_returns (v : value) :
  forall fs st, returns (fst (fst (run v fs st))) = true.
Proof.
  induction v using value_nested_ind; intros fs st; try reflexivity.
  - apply inItems_returns. exact H.
  - unfold run. cbn [traverse].
    pose proof (enter_returns (visitAt world setWorld (mkPath (Obj fields) fs) st)) as He.
    destruct (enter _) as [[[]|e] s1]; [|discriminate]. clear He.
    assert (Hkids : forall special eff,
               returns
                 (fst (fst
                    match inFields run (removalHook (Obj fields)) special [] fields
                                   (frames (here (world s1))) false s1 with
                    | (Throw e, fs2, s2) => (Throw e, fs2, s2)
                    | (Normal (fields', gone), fs2, s2) =>
                        match eff with
                        | ParentRemoved =>
                            (Normal ParentGone, fs2, detached st (Obj fields') s2)
                        | _ =>
                            if gone then (Normal Gone, fs2, s2)
                            else
                              match leave (setWorld (setHere (mkPath (Obj fields') fs2)
                                                             (world s2)) s2) with
                              | (Throw e, s3) => (Throw e, fs2, s3)
                              | (Normal _, s3) =>
                                  (Normal (Kept (focus (here (world s3)))),
                                   frames (here (world s3)), s3)
                              end
                        end
                    end)) = true).
    { intros special eff.
      pose proof (inFields_returns fields H (removalHook (Obj fields)) special []
                    (frames (here (world s1))) false s1) as Hin.
      destruct (inFields _ _ _ _ _ _ _ _) as [[[[fields' gone]|e] fs2] s2];
        [|discriminate].
      assert (Hl : returns
                     (fst (fst
                        (if gone then (Normal Gone, fs2, s2)
                         else
                           match leave (setWorld (setHere (mkPath (Obj fields') fs2)
                                                          (world s2)) s2) with
                           | (Throw e, s3) => (Throw e, fs2, s3)
                           | (Normal _, s3) =>
                               (Normal (Kept (focus (here (world s3)))),
                                frames (here (world s3)), s3)
                           end))) = true).
      { destruct gone; [reflexivity|].
        pose proof (leave_returns
                      (setWorld (setHere (mkPath (Obj fields') fs2) (world s2)) s2))
          as Hl.
        now destruct (leave _) as [[[]|e] s3]. }
      destruct eff; auto. }
    destruct (effect (world s1)); cbv iota zeta.
    + apply (Hkids None Untouched).
    + match goal with
      | |- context [inFields _ _ ?sp _ _ _ _ _] => apply (Hkids sp Mutated)
      end.
    + destruct (embedded _ _) as [[k0 route]|]; [|reflexivity].
      destruct (framesInside _ _) as [inner|]; [|reflexivity].
      apply inEmbedded_returns. exact H.
    + reflexivity.
    + apply (Hkids None ParentRemoved).
Qed.

End TraverseReturns.

(** ** The import binder *)

Section ImportBinder.
Import Js Constants Ast Path Registry Store AstHelpers Visitors Scenario Properties.

Lemma buildRequireDeclaration_run (ident lit : string) (w : World)
    (fields : list (string * value)) (body : list value) :
  focus (here w) = Obj fields ->
  lookup "body" fields = Arr body ->
  buildRequireDeclaration ident lit w
  = (Normal tt,
     setEffect Mutated
       (setHere (mkPath (Obj (setField "body"
                                (Arr (requireDeclaration ident lit :: body)) fields))
                        (frames (here w))) w)).
Proof.
  intros Hf Hb.
  unfold buildRequireDeclaration, thisNode, mutateHere, tryCatch, bind, get, lift, ret,
    modify, replaceWith.
  rewrite Hf. unfold unshiftContainer, _CCTX_BODY. rewrite Hb. reflexivity.
Qed.

(** C8.  On leaving the [Program] node of a file the import binder puts
    the missing [require] statements at the top of the body of the file:
    the shared-context binding first, the fallback React binding second,
    the statements of the file after them.  Every other field of the
    [Program] node stays as it is, its directives among them: a
    ['use strict'] directive that opens the file is no statement of the
    body, it still opens the file, and the insertion comes after it. *)
Theorem import_binder_inserts_after_directives
    (w : World) (fields : list (string * value)) (body : list value) :
  focus (here w) = Obj fields ->
  isType "Program" (Obj fields) = true ->
  lookup "body" fields = Arr body ->
  let out := focus (here (snd (pluginLeave w))) in
  fst (pluginLeave w) = Normal tt /\
  optProp "body" out = Arr (injectedRequires (host w) (state w) ++ body) /\
  (forall k, k <> "body" -> optProp k out = lookup k fields) /\
  fileText out
  = directivesOf (Obj fields) ++ injectedRequires (host w) (state w) ++ body.
Proof.
  intros Hf Ht Hb. cbv zeta.
  assert (E : pluginLeave w = programExit w).
  { unfold pluginLeave, bind, get. now rewrite Hf, Ht. }
  rewrite E. clear E Ht.
  assert (D : "directives" <> "body") by discriminate.
  unfold programExit, bindMissingImport, tryCatch, bind, get, ret, injectedRequires,
    fileText, directivesOf.
  destruct (needUseStateImport (state w)) eqn:U.
  - rewrite (buildRequireDeclaration_run _ _ w fields body Hf Hb).
    cbn [state setEffect setHere needsGblContext].
    destruct (needsGblContext (state w)) eqn:G.
    + erewrite buildRequireDeclaration_run;
        [|reflexivity|cbn [here setEffect setHere focus]; apply lookup_setField_same].
      cbn [fst snd here setEffect setHere focus optProp host app].
      rewrite !lookup_setField_same.
      repeat split;
        try (intros k N); rewrite ?lookup_setField_other by assumption; reflexivity.
    + cbn [fst snd here setEffect setHere focus optProp host app].
      rewrite !lookup_setField_same.
      repeat split;
        try (intros k N); rewrite ?lookup_setField_other by assumption; reflexivity.
  - destruct (needsGblContext (state w)) eqn:G.
    + rewrite (buildRequireDeclaration_run _ _ w fields body Hf Hb).
      cbn [fst snd here setEffect setHere focus optProp host app].
      rewrite !lookup_setField_same.
      repeat split;
        try (intros k N); rewrite ?lookup_setField_other by assumption; reflexivity.
    + cbn [fst snd app]. rewrite Hf. cbn [optProp]. rewrite Hb.
      repeat split; reflexivity.
Qed.

(** [strictFile] at its exit, both bindings missing: the directive stays
    in front of the two [require] statements. *)
Lemma import_binder_inserts_after_directives_witness :
  let w := mkWorld moduleHost []
                   (mkState (Some "/app/src/Counter.js") (Some "_$_")
                            (Some emptyImportState) true true)
                   (mkPath strictFile []) false Untouched in
  let out := focus (here (snd (pluginLeave w))) in
  fst (pluginLeave w) = Normal tt /\
  optProp "body" out
  = Arr (injectedRequires (host w) (state w)
         ++ [component "Counter" [letDecl "_$_count" (numericLiteral 0)]]) /\
  (forall k, k <> "body" ->
             optProp k out
             = lookup k [("type", Str "Program");
                         ("body", Arr [component "Counter"
                                         [letDecl "_$_count" (numericLiteral 0)]]);
                         ("directives", Arr [directive "use strict"])]) /\
  fileText out
  = directivesOf strictFile
    ++ injectedRequires (host w) (state w)
    ++ [component "Counter" [letDecl "_$_count" (numericLiteral 0)]].
Proof.
  apply (import_binder_inserts_after_directives
           (mkWorld moduleHost []
                    (mkState (Some "/app/src/Counter.js") (Some "_$_")
                             (Some emptyImportState) true true)
                    (mkPath strictFile []) false Untouched)
           [("type", Str "Program");
            ("body", Arr [component "Counter" [letDecl "_$_count" (numericLiteral 0)]]);
            ("directives", Arr [directive "use strict"])]
           [component "Counter" [letDecl "_$_count" (numericLiteral 0)]]);
    reflexivity.
Defined.

(** [strictFile] through the whole pass: the directive is where it was,
    and the two [require] statements are the first statements of the
    body. *)
Lemma use_strict_directive_stays_first :
  let out := output (transformFile moduleHost [] (Some "/app/src/Counter.js")
                       strictFile) in
  directivesOf out = [directive "use strict"] /\
  nth_error (statements out) 0
    = Some (requireDeclaration "_gblContext" "/app/src/scopeContext/gblContext.js") /\
  nth_error (statements out) 1 = Some (requireDeclaration "_react" "react") /\
  hd_error (fileText out) = Some (directive "use strict").
Proof.
  vm_compute. repeat split.
Qed.

(** A file whose first statement is [('use strict');] in parentheses, which
    is no directive but a statement of the body: the two [require]
    statements come out in front of it. *)
Lemma requires_precede_a_string_statement :
  let out := output (transformFile moduleHost [] (Some "/app/src/Counter.js")
                       (program [useStrictStatement;
                                 component "Counter"
                                   [letDecl "_$_count" (numericLiteral 0)]])) in
  nth_error (statements out) 0
    = Some (requireDeclaration "_gblContext" "/app/src/scopeContext/gblContext.js") /\
  nth_error (statements out) 1 = Some (requireDeclaration "_react" "react") /\
  nth_error (statements out) 2 = Some useStrictStatement.
Proof.
  vm_compute. repeat split.
Qed.

End ImportBinder.

(** ** Reads and writes of managed variables *)

Ltac run_js :=
  unfold Js.tryCatch, Js.bind, Js.get, Js.put, Js.ret, Js.lift, Js.throw,
    Js.modify, Visitors.modifyState, Store.onRegistry, Js.zoom, Js.andThen,
    Js.orElse, AstHelpers.thisNode, AstHelpers.replaceHere.

Ltac world_fields :=
  cbn [Store.host Store.state Store.here Store.virtualRegistry Store.seen
       Store.effect Path.focus Path.frames Store.setState Store.setRegistry
       Store.setHere Store.setEffect Store.setSeen Path.replaceWith
       Store.setNeedsGblContext Store.importState].

Section ReadsAndWrites.
Import Js Ast Path Registry Store Utility AstHelpers Visitors Scenario.

Lemma truthyKey_nonempty (K : string) : K <> "" -> truthyKey (Some K) = Some K.
Proof. unfold truthyKey. destruct K; [congruence|reflexivity]. Qed.

Lemma mustBeNode_node (what : string) (e : value) :
  typeOf e <> None -> mustBeNode what e = Normal e.
Proof. unfold mustBeNode. destruct (typeOf e); congruence. Qed.

(** What [assignmentExpressionVisitor] does to an assignment to a managed
    variable that it classifies as local. *)
Lemma assignmentExpressionVisitor_local
    (w : World) (op x pre K B : string) (e : value) (fp : option path)
    (i : ImportState) :
  isExcludeFile (host w) (fileNameOf (state w)) = true ->
  focus (here w) = assignmentExpression op (identifier x) e ->
  casperConfig (state w) = Some pre ->
  JsString.startsWith x pre = true ->
  findContextByVar_loop x (virtualRegistry w) = Some K -> K <> "" ->
  getRootParentComponent (here w) = Some (fp, Some B) -> B <> "" ->
  JsString.startsWith K B = true ->
  implicitGlobals (host w) = true ->
  importState (state w) = Some i ->
  typeOf e <> None ->
  assignmentExpressionVisitor w =
  (Normal tt,
   mkWorld (host w) (virtualRegistry w)
     ((if negb (truthy (reactId i)) && negb (truthy (useStateId i))
       then setNeedUseStateImport true else fun s => s)
        (setNeedsGblContext true (setNeedsGblContext true (state w))))
     (mkPath
        (callExpression
           (identifier
              ("set" ++ JsString.replace K Constants._CCTX_CMP_NAME_PREFIX ""))
           [updater x e])
        (frames (here w)))
     (seen w) Rewritten).
Proof.
  intros Hfile Hfocus Hcfg Hpre Hfind HK Hroot HB Hlocal Himp Himport He.
  destruct w as [h r st [foc frs] sn eff]. world_fields. cbn [host] in *.
  cbn [host state here virtualRegistry focus frames seen] in *. subst foc.
  pose proof (truthyKey_nonempty K HK) as HtK.
  pose proof (fun what => mustBeNode_node what e He) as Hnode.
  unfold assignmentExpressionVisitor, assignmentExpressionVisitor_body.
  unfold findContextByVar, markUseStateImport, replaceWithSetState,
    buildSpreadObject, buildSpreadObject_body.
  repeat run_js. world_fields.
  rewrite Hfile. cbn [negb].
  change (prop "left" (assignmentExpression op (identifier x) e))
    with (Normal (identifier x)).
  change (prop "right" (assignmentExpression op (identifier x) e)) with (Normal e).
  cbv beta iota.
  change (prop "type" (identifier x)) with (Normal (Str "Identifier")).
  change (prop "name" (identifier x)) with (Normal (Str x)).
  change (optProp "name" (identifier x)) with (Str x).
  cbv beta iota.
  change (negb (String.eqb "Identifier" Constants.IDENTIFIER)) with false.
  cbv iota.
  unfold nameStartsWithPrefix, prefixOf. rewrite Hcfg. unfold andThen.
  rewrite Hpre. cbn [negb mustBeString]. cbv beta iota. world_fields.
  rewrite Hfind, HtK, Hroot, Himp. cbv beta iota.
  destruct B as [|b0 B']; [congruence|]. cbv beta iota. world_fields.
  rewrite Himport, Hlocal, !Hnode. cbv beta iota.
  destruct (negb (truthy (reactId i)) && negb (truthy (useStateId i)));
    cbv beta iota; world_fields; reflexivity.
Qed.

Lemma spliceOwnerBody_identifier (depth index : nat) (decl : value) (x : string)
    (fs : list frame) :
  exists fs',
    spliceOwnerBody depth index decl (mkPath (identifier x) fs)
    = mkPath (identifier x) fs'.
Proof.
  unfold spliceOwnerBody. cbn [frames focus].
  destruct (length fs - depth); eexists; reflexivity.
Qed.

(** Injecting the context-read declaration from an identifier leaves the
    identifier, the registry and the file state as they are. *)
Lemma buildUseContextInstance_identifier
    (p : option path) (K x : string) (w : World) :
  focus (here w) = identifier x ->
  exists fs',
    buildUseContextInstance p K w =
    (Normal tt, mkWorld (host w) (virtualRegistry w) (state w)
                        (mkPath (identifier x) fs') (seen w) (effect w)).
Proof.
  intros Hf. destruct w as [h r st [foc frs] sn eff].
  cbn [here focus] in Hf. subst foc.
  unfold buildUseContextInstance. repeat run_js. world_fields.
  destruct (getInheritantComponent p) as [cmp|]; [|eexists; reflexivity].
  destruct (prop Constants._CCTX_BODY (focus cmp)) as [bodyNode|err];
    [|eexists; reflexivity].
  destruct (negb (isBlockStatement bodyNode)); [eexists; reflexivity|].
  destruct (isContextInstanceDeclare bodyNode _); [eexists; reflexivity|].
  destruct (useContextDeclaration _ _) as [ctxDecl|err]; [|eexists; reflexivity].
  destruct (items _ _) as [stmts|err]; [|eexists; reflexivity].
  world_fields.
  destruct (spliceOwnerBody_identifier (length (frames cmp))
              (getInsertionIndex stmts) ctxDecl x frs) as [fs' ->].
  eexists; reflexivity.
Qed.

(** C1, where the code departs from it.  What [identifierVisitor] does
    to a qualifying read of a registered variable: the read is classified
    local exactly when the key the variable is registered under (the
    declaring owner's name, [_], the file hash) starts with the name of
    the root owner ([null] read as a string when there is none), which is
    the case for the declaring owner and for every owner whose name is a
    prefix of that key.  A local read becomes [key["x"]] with the key's
    first letter in lower case; any other read becomes
    [CTX_key.key["x"]]. *)
Theorem identifierVisitor_read
    (w : World) (x pre : string) (c : ascii) (K : string)
    (fp : option path) (cmp : option string) (i : ImportState) :
  isExcludeFile (host w) (fileNameOf (state w)) = true ->
  focus (here w) = identifier x ->
  casperConfig (state w) = Some pre ->
  JsString.startsWith x pre = true ->
  identifierGuards (here w) = Normal None ->
  seen w = false ->
  getRootParentComponent (here w) = Some (fp, cmp) ->
  findContextByVar_loop x (virtualRegistry w) = Some (String c K) ->
  importState (state w) = Some i ->
  exists fs' st',
    identifierVisitor w =
    (Normal tt,
     mkWorld (host w) (virtualRegistry w) st'
       (mkPath
          (if startsWithComponent (String c K) cmp
           then memberExpression (identifier (String (JsString.toLowerCase c) K))
                                 (stringLiteral x) true
           else memberExpression
                  (memberExpression
                     (identifier (Constants._CCTX_ ++ String c K))
                     (identifier (String (JsString.toLowerCase c) K)) false)
                  (stringLiteral x) true)
          fs')
       true Rewritten)
    /\ (startsWithComponent (String c K) cmp = true -> fs' = frames (here w)).
Proof.
  intros Hfile Hfocus Hcfg Hpre Hguard Hseen Hroot Hfind Himport.
  destruct w as [h r st [foc frs] sn eff].
  cbn [host state here virtualRegistry focus frames seen] in *. subst foc sn.
  unfold identifierVisitor, identifierVisitor_body.
  unfold findContextByVar, markUseStateImport, replaceWithState,
    replaceWithContextState.
  repeat run_js. world_fields.
  rewrite Hfile. cbn [negb].
  change (optProp "name" (identifier x)) with (Str x).
  unfold nameStartsWithPrefix, prefixOf. rewrite Hcfg. unfold andThen.
  rewrite Hpre. cbn [negb]. rewrite Hguard. cbv beta iota. world_fields.
  rewrite Hroot. cbv beta iota.
  change (prop "name" (identifier x)) with (Normal (Str x)).
  cbn [mustBeString]. cbv beta iota. world_fields.
  rewrite Hfind. cbn [truthyKey String.eqb]. cbv beta iota. world_fields.
  rewrite Himport.
  set (st' := (if negb (truthy (reactId i)) && negb (truthy (useStateId i))
               then setNeedUseStateImport true else fun s => s)
                (setNeedsGblContext true (setNeedsGblContext true st))).
  destruct (startsWithComponent (String c K) cmp) eqn:Hloc.
  - exists frs, st'. split; [|reflexivity]. subst st'.
    destruct (negb (truthy (reactId i)) && negb (truthy (useStateId i)));
      cbv beta iota; world_fields; reflexivity.
  - subst st'.
    destruct (negb (truthy (reactId i)) && negb (truthy (useStateId i)));
      cbv beta iota; world_fields;
      match goal with
      | |- context [buildUseContextInstance ?p ?k ?w0] =>
          destruct (buildUseContextInstance_identifier p k x w0 eq_refl)
            as [fs' ->]
      end; world_fields; cbv beta iota;
      change (prop "name" (identifier x)) with (Normal (Str x));
      cbn [charAt0Lower JsString.lowerFirst mustBeString]; cbv beta iota;
      world_fields; do 2 eexists; (split; [reflexivity|discriminate]).
Qed.

Lemma identifierVisitor_read_witness :
  exists fs' st',
    identifierVisitor atAdmRead =
    (Normal tt,
     mkWorld (host atAdmRead) (virtualRegistry atAdmRead) st'
       (mkPath (memberExpression (identifier "admin_1a2b3c4d")
                                 (stringLiteral "_$_adminName") true)
               fs')
       true Rewritten)
    /\ (true = true -> fs' = frames (here atAdmRead)).
Proof.
  refine (identifierVisitor_read atAdmRead "_$_adminName" "_$_" "A"%char
            "dmin_1a2b3c4d" _ (Some "Adm") emptyImportState _ _ _ _ _ _ _ _ _);
    reflexivity.
Defined.

(** The file in which the code departs from C1.  [Admin] declares
    [_$_adminName]; [Adm] and [Customer] read it.  The read in [Customer]
    goes through the injected context-read binding.  The read in [Adm],
    an owner other than the declaring one, is classified local, because
    the key [Admin_1a2b3c4d] starts with [Adm]: it becomes
    [admin_1a2b3c4d["_$_adminName"]] and no context-read binding is
    injected into [Adm]. *)
Theorem read_in_owner_named_by_a_prefix_is_local :
  let out := compile moduleHost "/app/src/Admin.js" adminFile in
  bodyOf "Adm" out =
    [expressionStatement
       (memberExpression (identifier "admin_1a2b3c4d")
                         (stringLiteral "_$_adminName") true)] /\
  bodyOf "Customer" out =
    [useContextOf "Admin_1a2b3c4d";
     expressionStatement
       (memberExpression
          (memberExpression (identifier "CTX_Admin_1a2b3c4d")
                            (identifier "admin_1a2b3c4d") false)
          (stringLiteral "_$_adminName") true)].
Proof. vm_compute. split; reflexivity. Qed.

(** Where the assignment visitor carries out the
    local rewrite of [x = rhs] (the variable is found under scope key [K],
    the root owner's name is a prefix of [K], and the host lets the
    visitor's assignment to its undeclared [inheritantCMP] through), the
    assignment node is replaced by the call
    [setK'(prevState => ({ ...prevState, x: rhs }))], where [K'] is [K]
    without its first [_$_ctx_]: the callee is named after the scope key,
    owner name and file hash, and the updater spreads the previous state
    and then sets the one key.  Nothing else of the tree and nothing of
    the registry changes. *)
Theorem assignment_local_setter
    (w : World) (op x pre K B : string) (rhs : value) (fp : option path)
    (i : ImportState) :
  isExcludeFile (host w) (fileNameOf (state w)) = true ->
  focus (here w) = assignmentExpression op (identifier x) rhs ->
  casperConfig (state w) = Some pre ->
  JsString.startsWith x pre = true ->
  findContextByVar_loop x (virtualRegistry w) = Some K -> K <> "" ->
  getRootParentComponent (here w) = Some (fp, Some B) -> B <> "" ->
  JsString.startsWith K B = true ->
  implicitGlobals (host w) = true ->
  importState (state w) = Some i ->
  typeOf rhs <> None ->
  let w' := snd (assignmentExpressionVisitor w) in
  fst (assignmentExpressionVisitor w) = Normal tt /\
  focus (here w') =
    callExpression
      (identifier ("set" ++ JsString.replace K Constants._CCTX_CMP_NAME_PREFIX ""))
      [arrowFunctionExpression [identifier "prevState"]
         (objectExpression
            [spreadElement (identifier "prevState");
             objectProperty (identifier x) rhs false false])] /\
  frames (here w') = frames (here w) /\
  virtualRegistry w' = virtualRegistry w.
Proof.
  intros. subst w'.
  erewrite assignmentExpressionVisitor_local by eassumption.
  repeat split.
Qed.

(** [_$_count = 5] inside [Counter], whose variable is registered under
    [Counter_1a2b3c4d]: the call is to [setCounter_1a2b3c4d]. *)
Lemma assignment_local_setter_witness :
  let w' := snd (assignmentExpressionVisitor atCounterAssignment) in
  fst (assignmentExpressionVisitor atCounterAssignment) = Normal tt /\
  focus (here w') =
    callExpression (identifier "setCounter_1a2b3c4d")
      [arrowFunctionExpression [identifier "prevState"]
         (objectExpression
            [spreadElement (identifier "prevState");
             objectProperty (identifier "_$_count") (numericLiteral 5) false false])] /\
  frames (here w') = frames (here atCounterAssignment) /\
  virtualRegistry w' = virtualRegistry atCounterAssignment.
Proof.
  refine (assignment_local_setter atCounterAssignment "=" "_$_count" "_$_"
            "Counter_1a2b3c4d" "Counter" (numericLiteral 5)
            (getFunctionParent (here atCounterAssignment)) emptyImportState
            _ _ _ _ _ _ _ _ _ _ _ _);
    first [reflexivity | discriminate].
Defined.

(** The file [function Counter() { let _$_count = 0; _$_count = 5; }]: no
    statement of the output calls a setter named [setCounter], neither in
    a host that lets the visitor's undeclared assignment through (the call
    is to [setCounter_1a2b3c4d]) nor in one that runs the plugin as a
    module (the assignment is left as it was). *)
Lemma assignment_setter_is_not_setOwner :
  let claimed :=
    expressionStatement
      (callExpression (identifier "setCounter")
                      [updater "_$_count" (numericLiteral 5)]) in
  let out1 := compile (hostWith "1a2b3c4d" true) "/app/src/Counter.js"
                      counterAssignFile in
  let out2 := compile (hostWith "1a2b3c4d" false) "/app/src/Counter.js"
                      counterAssignFile in
  ~ In claimed (bodyOf "Counter" out1) /\
  ~ In claimed (bodyOf "Counter" out2) /\
  nth_error (bodyOf "Counter" out1) 1 =
    Some (expressionStatement
            (callExpression (identifier "setCounter_1a2b3c4d")
                            [updater "_$_count" (numericLiteral 5)])) /\
  nth_error (bodyOf "Counter" out2) 1 =
    Some (expressionStatement
            (assignmentExpression "=" (identifier "_$_count") (numericLiteral 5))).
Proof.
  vm_compute. repeat split; try reflexivity;
    intros [H|[H|[]]]; discriminate H.
Qed.

End ReadsAndWrites.

(** ** Owner-exit synthesis *)

Section OwnerExit.
Import Js Ast Path Registry Store Utility AstHelpers Visitors Scenario.

(** The names [buildCtxUseStateDeclaration] binds: the scope key with its
    first letter in lower case, and [set] before the scope key with its
    first letter in upper case. *)
Lemma useStateDeclaration_names
    (st : PluginState) (i : ImportState) (objProps : list value)
    (c : ascii) (K : string) :
  importState st = Some i ->
  exists callee,
    useStateDeclaration st objProps (String c K) =
    Normal
      (variableDeclaration "const"
         [variableDeclarator
            (arrayPattern
               [identifier (String (JsString.toLowerCase c) K);
                identifier ("set" ++ String (JsString.toUpperCase c) K)])
            (callExpression (sequenceExpression [numericLiteral 0; callee])
                            [objectExpression objProps])]).
Proof.
  intros Hi. unfold useStateDeclaration. rewrite Hi. cbn. eexists. reflexivity.
Qed.

(** C3, as the code has it.  For the file
    [function Counter() { let _$_count = 0; return _$_count; }] with path
    hash [1a2b3c4d] and no React import, the body of [Counter] comes out
    as one local-state declaration bound as
    [[counter_1a2b3c4d, setCounter_1a2b3c4d]] (the scope key, owner name
    and file hash, with its first letter in lower and in upper case) with
    initializer [{ _$_count: 0 }] (the key is the variable's full name),
    followed by the return statement, in which the read is
    [counter_1a2b3c4d["_$_count"]]. *)
Theorem counter_scenario :
  bodyOf "Counter" (compile moduleHost "/app/src/Counter.js" counterFile) =
  [useStateOf "counter_1a2b3c4d" "setCounter_1a2b3c4d"
     [objectProperty (identifier "_$_count") (numericLiteral 0) false false];
   returnStatement
     (providerOf "Counter_1a2b3c4d" "counter_1a2b3c4d" "setCounter_1a2b3c4d"
        (memberExpression (identifier "counter_1a2b3c4d")
                          (stringLiteral "_$_count") true))].
Proof. vm_compute. reflexivity. Qed.

(** The same file: no statement of the output binds [[counter,
    setCounter]], whatever it is initialised with, and the returned read
    is not [counter["count"]]. *)
Lemma counter_scenario_not_as_claimed :
  let body := bodyOf "Counter"
                (compile moduleHost "/app/src/Counter.js" counterFile) in
  ~ (exists init,
        In (variableDeclaration "const"
              [variableDeclarator
                 (arrayPattern [identifier "counter"; identifier "setCounter"])
                 init])
           body) /\
  ~ (exists wrap,
        In (returnStatement
              (wrap (memberExpression (identifier "counter")
                                      (stringLiteral "count") true)))
           body /\
        forall read, wrap read = read \/
                     exists K a setA, wrap read = providerOf K a setA read).
Proof.
  vm_compute. split.
  - intros [init [H|[H|[]]]]; discriminate H.
  - intros [wrap [[H|[H|[]]] Hw]]; try discriminate H.
    destruct (Hw (Obj
                    [("type", Str "MemberExpression");
                     ("object", Obj [("type", Str "Identifier"); ("name", Str "counter")]);
                     ("property", Obj [("type", Str "StringLiteral"); ("value", Str "count")]);
                     ("computed", Bool true)])) as [E|(K & a & setA & E)];
      rewrite E in H; vm_compute in H; discriminate H.
Qed.

End OwnerExit.

(** ** Code that returns, and code that keeps a part of the store *)

Section MonadFacts.
Import Js Properties.
Context {S : Type}.

Lemma neverThrows_ret {A} (a : A) : neverThrows (ret a : M S A).
Proof. intros s. reflexivity. Qed.

Lemma neverThrows_tryCatch {A} (m : M S A) (h : JsError -> M S A) :
  (forall e, neverThrows (h e)) -> neverThrows (tryCatch m h).
Proof.
  intros Hh s. unfold tryCatch. destruct (m s) as [[a|e] s']; [reflexivity|].
  apply Hh.
Qed.

Lemma neverThrows_caught {A} (m : M S A) (a : A) :
  neverThrows (tryCatch m (fun _ => ret a)).
Proof. apply neverThrows_tryCatch. intros e. apply neverThrows_ret. Qed.

Lemma neverThrows_bind {A B} (m : M S A) (k : A -> M S B) :
  neverThrows m -> (forall a, neverThrows (k a)) -> neverThrows (bind m k).
Proof.
  intros Hm Hk s. unfold bind. specialize (Hm s).
  destruct (m s) as [[a|e] s']; [apply Hk|discriminate].
Qed.

Section Keeps.
Context {X : Type}.
Variable f : S -> X.

Lemma keeps_ret {A} (a : A) : keeps f (ret a : M S A).
Proof. intros s. reflexivity. Qed.

Lemma keeps_throw {A} (e : JsError) : keeps f (throw e : M S A).
Proof. intros s. reflexivity. Qed.

Lemma keeps_lift {A} (c : completion A) : keeps f (lift c : M S A).
Proof. intros s. reflexivity. Qed.

Lemma keeps_get : keeps f (get : M S S).
Proof. intros s. reflexivity. Qed.

Lemma keeps_modify (g : S -> S) :
  (forall s, f (g s) = f s) -> keeps f (modify g).
Proof. intros Hg s. apply Hg. Qed.

Lemma keeps_bind {A B} (m : M S A) (k : A -> M S B) :
  keeps f m -> (forall a, keeps f (k a)) -> keeps f (bind m k).
Proof.
  intros Hm Hk s. unfold bind. specialize (Hm s).
  destruct (m s) as [[a|e] s']; cbn in *; [|exact Hm].
  rewrite <- Hm. apply Hk.
Qed.

Lemma keeps_tryCatch {A} (m : M S A) (h : JsError -> M S A) :
  keeps f m -> (forall e, keeps f (h e)) -> keeps f (tryCatch m h).
Proof.
  intros Hm Hh s. unfold tryCatch. specialize (Hm s).
  destruct (m s) as [[a|e] s']; cbn in *; [exact Hm|].
  rewrite <- Hm. apply Hh.
Qed.

Lemma keeps_zoom {T A} (proj : S -> T) (upd : T -> S -> S) (m : M T A) :
  (forall t s, f (upd t s) = f s) -> keeps f (zoom proj upd m).
Proof.
  intros Hu s. unfold zoom. destruct (m (proj s)) as [c t']. apply Hu.
Qed.

End Keeps.
End MonadFacts.

Ltac keeps_step :=
  first [ apply keeps_ret | apply keeps_throw | apply keeps_lift | apply keeps_get
        | apply keeps_modify; intros []; reflexivity
        | apply keeps_zoom; intros ? []; reflexivity
        | apply keeps_bind; [|intros ?]
        | apply keeps_tryCatch; [|intros ?]
        | match goal with
          | |- Properties.keeps _ (if ?b then _ else _) => destruct b
          | |- Properties.keeps _ (match ?x with _ => _ end) => destruct x
          end ].

(** Case analysis on the innermost scrutinee of the goal. *)
Ltac innermost :=
  match goal with
  | |- context [if ?b then _ else _] =>
      lazymatch b with
      | context [if _ then _ else _] => fail
      | context [match _ with _ => _ end] => fail
      | _ => destruct b eqn:?
      end
  | |- context [match ?x with _ => _ end] =>
      lazymatch x with
      | context [if _ then _ else _] => fail
      | context [match _ with _ => _ end] => fail
      | _ => destruct x eqn:?
      end
  end.

Ltac keeps_all :=
  unfold Visitors.modifyState, Store.onRegistry, Visitors.markUseStateImport,
    AstHelpers.thisNode, AstHelpers.replaceHere;
  repeat keeps_step.

(** ** No operation of the pass throws *)

Section NoThrow.
Import Js Ast Path Registry Store Utility AstHelpers Visitors Post Properties Scenario.

Lemma pluginEnter_returns : neverThrows pluginEnter.
Proof.
  intros w. unfold pluginEnter, bind, get.
  repeat match goal with
         | |- context [if ?b then _ else _] => destruct b
         end;
    try reflexivity;
    [apply (neverThrows_caught _ tt w)..].
Qed.

Lemma pluginLeave_returns : neverThrows pluginLeave.
Proof.
  intros w. unfold pluginLeave, bind, get.
  repeat match goal with
         | |- context [if ?b then _ else _] => destruct b
         end;
    try reflexivity;
    [apply (neverThrows_caught _ tt w)..].
Qed.

Lemma transformFile_returns (h : Host) (r : registry) (fileName : option string)
    (prog : value) :
  returns (fst (transformFile h r fileName prog)) = true.
Proof.
  unfold transformFile.
  pose proof (traverse_returns (fun w => w) (fun w _ => w) pluginEnter pluginLeave
                pluginEmbedded (fun _ _ w => w)
                pluginEnter_returns pluginLeave_returns prog []
                (mkWorld h r (initialState fileName) (mkPath prog []) false Untouched))
    as H.
  destruct (Traverse.traverse _ _ _ _ _ _ _ _ _) as [[[o|e] fs] w']; [|discriminate].
  destruct o; reflexivity.
Qed.

Lemma failsClean_never {A} (m : M World A) : neverThrows m -> failsClean m.
Proof. intros H w F. rewrite H in F. discriminate. Qed.

Lemma failsClean_keeps {A} (m : M World A) : keeps here m -> failsClean m.
Proof. intros H w _. apply H. Qed.

Lemma failsClean_bind {A B} (m : M World A) (k : A -> M World B) :
  keeps here m -> (forall a, failsClean (k a)) -> failsClean (bind m k).
Proof.
  intros Hm Hk w. unfold bind. specialize (Hm w).
  destruct (m w) as [[a|e] w']; cbn in *; [|intros _; exact Hm].
  intros F. rewrite <- Hm. apply Hk, F.
Qed.

Ltac clean_step :=
  first [ apply failsClean_never;
          solve [ apply neverThrows_caught
                | apply neverThrows_ret
                | apply neverThrows_bind;
                  [apply neverThrows_caught|intros ?; apply neverThrows_caught] ]
        | apply failsClean_keeps; solve [keeps_all]
        | apply failsClean_bind; [solve [keeps_all]|intros ?]
        | match goal with
          | |- failsClean (if ?b then _ else _) => destruct b
          | |- failsClean (match ?x with _ => _ end) => destruct x
          end ].

Lemma identifierVisitor_body_failsClean : failsClean identifierVisitor_body.
Proof. unfold identifierVisitor_body. repeat clean_step. Qed.

Lemma assignmentExpressionVisitor_body_failsClean :
  failsClean assignmentExpressionVisitor_body.
Proof. unfold assignmentExpressionVisitor_body. repeat clean_step. Qed.

Lemma degrades_caught {A} (body : M World A) (sentinel : A) :
  failsClean body -> degrades body (tryCatch body (fun _ => ret sentinel)) sentinel.
Proof.
  intros Hc w F. specialize (Hc w F). unfold tryCatch.
  destruct (body w) as [[a|e] w']; [discriminate|]. split; [reflexivity|exact Hc].
Qed.

Ltac all_or_nothing :=
  intros w;
  unfold thisNode, replaceHere, mutateHere;
  unfold tryCatch, bind, get, lift, modify, ret, throw;
  repeat (innermost; cbv beta iota zeta); cbn [snd];
  first [ left; reflexivity | right; eexists _, _; reflexivity ].

(** The builders and the replacers put their node in place as their last
    step: one that fails has changed nothing. *)
Lemma builders_allOrNothing :
  (forall ident lit, allOrNothing (buildRequireDeclaration ident lit)) /\
  (forall returnNode stateName, allOrNothing (buildCtxProvider returnNode stateName)) /\
  (forall objProps key, allOrNothing (buildCtxUseStateDeclaration objProps key)) /\
  (forall p ctxName, allOrNothing (buildUseContextInstance p ctxName)) /\
  (forall ctxName, allOrNothing (replaceWithState ctxName)) /\
  (forall ctxName, allOrNothing (replaceWithContextState ctxName)) /\
  (forall ctxName f, allOrNothing (replaceWithSetState ctxName f)) /\
  (forall ctxName f, allOrNothing (replaceWithContextSetState ctxName f)).
Proof.
  repeat match goal with
         | |- _ /\ _ => split
         end; intros.
  - unfold buildRequireDeclaration. all_or_nothing.
  - unfold buildCtxProvider. all_or_nothing.
  - unfold buildCtxUseStateDeclaration. all_or_nothing.
  - unfold buildUseContextInstance. all_or_nothing.
  - unfold replaceWithState. all_or_nothing.
  - unfold replaceWithContextState. all_or_nothing.
  - unfold replaceWithSetState. all_or_nothing.
  - unfold replaceWithContextSetState. all_or_nothing.
Qed.

(** C9.  Every operation of the pass returns, on every input and from
    every store: the registry operations, the node builders and
    replacers, the visitors, the emission of the artifacts, and the
    traversal of a whole file with the plugin's visitors.  A throw inside
    [registerVariable] comes out as the empty result; a builder or a
    replacer does all of its work or leaves the world as it was; a throw
    inside the identifier or the assignment visitor comes out as a plain
    return with the visited node as it was. *)
Theorem no_operation_throws :
  ((forall K v d, neverThrows (registerVariable K v d)) /\
   (forall v, neverThrows (findContextByVar v)) /\
   (forall H, neverThrows (resetVarsForFile H))) /\
  ((forall ident lit, neverThrows (buildRequireDeclaration ident lit)) /\
   (forall returnNode stateName, neverThrows (buildCtxProvider returnNode stateName)) /\
   (forall objProps key, neverThrows (buildCtxUseStateDeclaration objProps key)) /\
   (forall p ctxName, neverThrows (buildUseContextInstance p ctxName)) /\
   (forall ctxName, neverThrows (replaceWithState ctxName)) /\
   (forall ctxName, neverThrows (replaceWithContextState ctxName)) /\
   (forall ctxName f, neverThrows (replaceWithSetState ctxName f)) /\
   (forall ctxName f, neverThrows (replaceWithContextSetState ctxName f))) /\
  (neverThrows programEnter /\ neverThrows programExit /\
   neverThrows variableDeclarationVisitor /\
   neverThrows assignmentExpressionVisitor /\
   neverThrows identifierVisitor /\
   neverThrows functionDeclarationExit /\
   neverThrows functionReturnVariableDelarationVisitor /\
   (forall e, neverThrows (functionDeclarationReturnStatementVisitor e))) /\
  ((forall em r, neverThrows (generateContextContent em r)) /\
   (forall em r, neverThrows (generateLintGlobalJS em r)) /\
   (forall em r, neverThrows (postProcess em r))) /\
  (forall h r fileName prog,
      returns (fst (transformFile h r fileName prog)) = true) /\
  ((forall K v d r,
       returns (fst (registerVariable_body K v d r)) = false ->
       fst (registerVariable K v d r) = Normal None) /\
   degrades identifierVisitor_body identifierVisitor tt /\
   degrades assignmentExpressionVisitor_body assignmentExpressionVisitor tt) /\
  ((forall ident lit, allOrNothing (buildRequireDeclaration ident lit)) /\
   (forall returnNode stateName, allOrNothing (buildCtxProvider returnNode stateName)) /\
   (forall objProps key, allOrNothing (buildCtxUseStateDeclaration objProps key)) /\
   (forall p ctxName, allOrNothing (buildUseContextInstance p ctxName)) /\
   (forall ctxName, allOrNothing (replaceWithState ctxName)) /\
   (forall ctxName, allOrNothing (replaceWithContextState ctxName)) /\
   (forall ctxName f, allOrNothing (replaceWithSetState ctxName f)) /\
   (forall ctxName f, allOrNothing (replaceWithContextSetState ctxName f))).
Proof.
  split; [|split; [|split; [|split; [|split; [|split; [|exact builders_allOrNothing]]]]]];
  repeat match goal with
         | |- _ /\ _ => split
         end;
    try (intros; solve [apply neverThrows_caught]).
  - intros. apply transformFile_returns.
  - intros K v d r. unfold registerVariable, tryCatch.
    destruct (registerVariable_body K v d r) as [[a|e] r']; [discriminate|reflexivity].
  - apply degrades_caught, identifierVisitor_body_failsClean.
  - apply degrades_caught, assignmentExpressionVisitor_body_failsClean.
Qed.

(** A throw that is caught: in module code the assignment visitor's
    [inheritantCMP = componentName] raises a ReferenceError, and the
    assignment stays as it was. *)
Lemma assignment_in_module_code_is_caught :
  fst (assignmentExpressionVisitor_body atModuleAssignment)
    = Throw (ReferenceError "inheritantCMP") /\
  fst (assignmentExpressionVisitor atModuleAssignment) = Normal tt /\
  here (snd (assignmentExpressionVisitor atModuleAssignment))
    = here atModuleAssignment.
Proof. vm_compute. repeat split. Qed.

End NoThrow.

(** ** The identifiers the rewrite pass processes *)

Section ProcessedIdentifiers.
Import Js Constants Ast Path Registry Store Utility AstHelpers Visitors
       Properties Scenario.

Lemma find_existsb {A} (f : A -> bool) (l : list A) :
  existsb f l = match List.find f l with
                | Some _ => true
                | None => false
                end.
Proof.
  induction l as [|a l IH]; cbn; [reflexivity|].
  destruct (f a); [reflexivity|exact IH].
Qed.

(** The guards of [identifierVisitor] fire exactly in the excluded
    positions. *)
Lemma identifierGuards_excluded (p : path) (fields : list (string * value)) :
  parent p = Obj fields ->
  match identifierGuards p with
  | Normal (Some _) => excludedPosition p = true
  | Normal None => excludedPosition p = false
  | Throw _ => False
  end.
Proof.
  intros Hp. unfold identifierGuards, excludedPosition, findParent.
  rewrite (find_existsb isJSXAncestor).
  unfold isVariableDeclarator, isAssignmentExpression, isObjectProperty, isType, typeOf.
  rewrite Hp. cbn [prop optProp andThen].
  unfold VARIABLE_DECLARATOR, ASSIGNMENT_EXPRESSION, UPDATE_EXPRESSION,
    _CCTX_ID, _CCTX_LEFT, _CCTX_ARGUMENT, _CCTX_KEY.
  destruct (lookup "type" fields) as [| |b|z|ty|l|fs]; cbn [andb orb].
  all: repeat match goal with
         | |- context [if ?b then _ else _] =>
             destruct b eqn:?; cbn [andb orb negb]
         | |- context [match List.find ?f ?l with _ => _ end] =>
             destruct (List.find f l); cbn [andb orb negb]
         end; try reflexivity; try congruence.
Qed.

Lemma bind_get {S B} (k : S -> M S B) (s : S) : bind get k s = k s s.
Proof. reflexivity. Qed.

Lemma bind_lift {S A B} (a : A) (k : A -> M S B) (s : S) :
  bind (lift (Normal a)) k s = k a s.
Proof. reflexivity. Qed.

Lemma bind_modify {S B} (g : S -> S) (k : unit -> M S B) (s : S) :
  bind (modify g) k s = k tt (g s).
Proof. reflexivity. Qed.

(** C4, as the code has it.  In a file the plugin handles, an identifier
    with a parent node whose name starts with the configured prefix is
    processed (marked as seen, then looked up) exactly when its position
    is not excluded, and in an excluded position the visitor changes
    nothing.  The excluded positions are the [id] of a declarator, the
    [left] of an assignment, the [argument] of an update expression, a
    property key that is not computed, every position below a JSX
    expression container, attribute, opening or closing element or member
    expression, and every position that is not a reference. *)
Theorem identifierVisitor_processes
    (w : World) (pre name : string) (fields : list (string * value)) :
  isExcludeFile (host w) (fileNameOf (state w)) = true ->
  casperConfig (state w) = Some pre ->
  optProp "name" (focus (here w)) = Str name ->
  JsString.startsWith name pre = true ->
  parent (here w) = Obj fields ->
  seen w = false ->
  seen (snd (identifierVisitor w)) = negb (excludedPosition (here w)) /\
  (excludedPosition (here w) = true -> snd (identifierVisitor w) = w).
Proof.
  intros Hf Hc Hn Hs Hp Hseen.
  pose proof (identifierGuards_excluded (here w) fields Hp) as G.
  assert (Hpre : nameStartsWithPrefix (optProp "name" (focus (here w))) (state w)
                 = Normal true).
  { unfold nameStartsWithPrefix, prefixOf. rewrite Hn, Hc. cbn.
    rewrite Hs. reflexivity. }
  unfold identifierVisitor, identifierVisitor_body, tryCatch.
  rewrite bind_get. rewrite Hf. cbn [negb]. rewrite Hpre, bind_lift. cbn [negb].
  destruct (identifierGuards (here w)) as [[sk|]|e]; [| |contradiction];
    rewrite bind_lift, G.
  - cbn. split; [exact Hseen|reflexivity].
  - rewrite Hseen, bind_modify. cbn [negb]. split; [|discriminate].
    match goal with
    | |- seen (snd (match ?m ?s with _ => _ end)) = true =>
        assert (K : keeps seen (tryCatch m (fun _ => ret tt)))
    end.
    { unfold replaceWithState, replaceWithContextState, buildUseContextInstance.
      keeps_all. }
    specialize (K (setSeen true w)). unfold tryCatch in K.
    rewrite K. destruct w; reflexivity.
Qed.

Lemma identifierVisitor_processes_witness :
  excludedPosition (here atMarkupChildRead) = true /\
  seen (snd (identifierVisitor atMarkupChildRead))
    = negb (excludedPosition (here atMarkupChildRead)) /\
  (excludedPosition (here atMarkupChildRead) = true ->
   snd (identifierVisitor atMarkupChildRead) = atMarkupChildRead).
Proof.
  split; [reflexivity|].
  eapply (identifierVisitor_processes atMarkupChildRead "_$_" "_$_count");
    reflexivity.
Defined.

(** [function Counter() { let _$_count = 0; <p>{_$_count}</p>; }]: the
    state of [Counter] is synthesised, and the read in the expression
    child of the element comes out as it went in. *)
Lemma markup_child_read_is_left_alone :
  let read := identifier "_$_count" in
  let element child :=
    expressionStatement
      (jsxElement (jsxOpeningElement (jsxIdentifier "p") [])
                  (jsxClosingElement (jsxIdentifier "p"))
                  [jsxExpressionContainer child]) in
  bodyOf "Counter" (compile moduleHost "/app/src/Counter.js" markupChildFile) =
  [useStateOf "counter_1a2b3c4d" "setCounter_1a2b3c4d"
     [objectProperty (identifier "_$_count") (numericLiteral 0) false false];
   element read] /\
  element read
    <> element (memberExpression (identifier "counter_1a2b3c4d")
                                 (stringLiteral "_$_count") true).
Proof. vm_compute. split; [reflexivity|discriminate]. Qed.

End ProcessedIdentifiers.

(** ** Assignments in module code *)

Section AssignmentInModuleCode.
Import Js Constants Ast Path Registry Store Utility AstHelpers Visitors
       Properties Scenario.

Lemma keeps_bind_throw {S A B X} (f : S -> X) (e : JsError) (k : A -> M S B) :
  keeps f (bind (throw e) k).
Proof. intros s. reflexivity. Qed.

(** C2, where the code departs from it.  The assignment visitor assigns
    to [inheritantCMP], a name that is declared nowhere.  In module code
    that assignment raises a ReferenceError, which the visitor catches:
    whatever assignment is visited, the visitor returns and the
    assignment is as it was. *)
Theorem assignment_left_alone_in_module_code (w : World) :
  implicitGlobals (host w) = false ->
  fst (assignmentExpressionVisitor w) = Normal tt /\
  here (snd (assignmentExpressionVisitor w)) = here w.
Proof.
  intros Hm. split.
  - pose proof (neverThrows_caught assignmentExpressionVisitor_body tt w) as R.
    unfold assignmentExpressionVisitor.
    destruct (tryCatch _ _ w) as [[[]|e] w']; [reflexivity|discriminate R].
  - unfold assignmentExpressionVisitor, assignmentExpressionVisitor_body, tryCatch.
    rewrite bind_get. rewrite Hm.
    match goal with
    | |- here (snd (match ?m w with _ => _ end)) = _ =>
        assert (K : keeps here (tryCatch m (fun _ => ret tt)))
    end.
    { unfold modifyState, onRegistry.
      repeat first [ apply keeps_bind_throw | keeps_step ]. }
    apply (K w).
Qed.

Lemma assignment_left_alone_in_module_code_witness :
  fst (assignmentExpressionVisitor atModuleAssignment) = Normal tt /\
  here (snd (assignmentExpressionVisitor atModuleAssignment))
    = here atModuleAssignment.
Proof.
  apply (assignment_left_alone_in_module_code atModuleAssignment). reflexivity.
Defined.

End AssignmentInModuleCode.

(** ** The traversal at the exit of an owner *)

Section ExitTraversal.
Import Js Constants Ast Path Registry Store Utility AstHelpers Traverse Visitors
       Properties Scenario.

(** What the visitor of the declarators does with a managed declarator
    that is the only one of a declaration in a list of statements,
    whatever encloses the list, be it the body of the owner or of a
    function nested in it: the pair of its name and its initializer is
    recorded, and the declaration is removed. *)
Lemma managed_declarator_is_recorded
    (x : ExitStore) (pre name kind : string) (init : value)
    (before after : list value) (up : list frame) :
  casperConfig (state (exitWorld x)) = Some pre ->
  JsString.startsWith name pre = true ->
  here (exitWorld x)
    = mkPath (variableDeclarator (identifier name) init)
             (InItem [] [] :: InField [("type", Str "VariableDeclaration");
                                       ("kind", Str kind)]
                                      "declarations" []
              :: InItem before after :: up) ->
  let x' := snd (functionReturnVariableDelarationVisitor x) in
  localStateVars x' = localStateVars x ++ [(name, init)] /\
  effect (exitWorld x') = ParentRemoved.
Proof.
  intros Hp Hs Hh x'. subst x'.
  unfold functionReturnVariableDelarationVisitor,
    functionReturnVariableDelarationVisitor_body, tryCatch.
  rewrite bind_get. rewrite Hh. unfold prefixOf. rewrite Hp.
  cbn. rewrite Hs. cbn. split; reflexivity.
Qed.

(** X26.  A managed declarator that is the only one of the declaration in
    the head of a [for]-[of] or [for]-[in] loop: the pair of its name and
    its initializer is recorded, but the removal of the declaration
    throws, the visitor catches it, and the declaration stays where it
    is. *)
Theorem loop_head_declaration_is_recorded_and_stays
    (x : ExitStore) (pre name kind loop : string) (init : value)
    (rest : list (string * value)) (up : list frame) :
  casperConfig (state (exitWorld x)) = Some pre ->
  JsString.startsWith name pre = true ->
  loop = "ForOfStatement" \/ loop = "ForInStatement" ->
  here (exitWorld x)
    = mkPath (variableDeclarator (identifier name) init)
             (InItem [] [] :: InField [("type", Str "VariableDeclaration");
                                       ("kind", Str kind)]
                                      "declarations" []
              :: InField [("type", Str loop)] "left" rest :: up) ->
  functionReturnVariableDelarationVisitor x
  = (Normal tt, mkExit (exitWorld x) (localStateVars x ++ [(name, init)])).
Proof.
  intros Hp Hs Hl Hh.
  unfold functionReturnVariableDelarationVisitor,
    functionReturnVariableDelarationVisitor_body, tryCatch.
  rewrite bind_get. rewrite Hh. unfold prefixOf. rewrite Hp.
  destruct Hl; subst loop; cbn; rewrite Hs; cbn; destruct x; reflexivity.
Qed.

Lemma loop_head_declaration_is_recorded_and_stays_witness :
  let x := mkExit
             (mkWorld moduleHost [] (state atCounterAssignment)
                (pathAt [Traverse.Field "body"; Traverse.Item 0; Traverse.Field "body";
                         Traverse.Field "body"; Traverse.Item 1; Traverse.Field "left";
                         Traverse.Field "declarations"; Traverse.Item 0] loopFile)
                false Untouched) [("_$_n", numericLiteral 0)] in
  functionReturnVariableDelarationVisitor x
  = (Normal tt, mkExit (exitWorld x) (localStateVars x ++ [("_$_item", Null)])).
Proof.
  cbv zeta.
  eapply (loop_head_declaration_is_recorded_and_stays _ "_$_" "_$_item" "const"
            "ForOfStatement" Null);
    [reflexivity|reflexivity|now left|reflexivity].
Defined.

(** [loopFile] through the whole pass: at the exit of [List] the variable
    of the loop is recorded, with [null] for the initializer it does not
    have, and the loop comes out as it went in. *)
Lemma declaration_in_a_loop_head_stays :
  let body := bodyOf "List" (compile moduleHost "/app/src/List.js" loopFile) in
  nth_error body 0
  = Some (useStateOf "list_1a2b3c4d" "setList_1a2b3c4d"
            [objectProperty (identifier "_$_n") (numericLiteral 0) false false;
             objectProperty (identifier "_$_item") nullLiteral false false]) /\
  nth_error body 1
  = Some (forOfStatement
            (variableDeclaration "const"
               [variableDeclarator (identifier "_$_item") Null])
            (identifier "items") (blockStatement [])).
Proof. vm_compute. split; reflexivity. Qed.

(** C5, where the code departs from it.  The traversal that
    [functionDeclarationExit] runs for an owner does not stop at the
    functions nested in the owner.  In [nestedFile] the declaration of
    [_$_y] inside the arrow function is removed and recorded with the
    owner's own [_$_x], and the return statement of the arrow function is
    wrapped in the owner's provider, like the owner's own. *)
Theorem nested_function_is_traversed :
  let body := bodyOf "App" (compile moduleHost "/app/src/App.js" nestedFile) in
  body =
    [useStateOf "app_1a2b3c4d" "setApp_1a2b3c4d"
       [objectProperty (identifier "_$_x") (numericLiteral 0) false false;
        objectProperty (identifier "_$_y") (numericLiteral 1) false false];
     constDecl "Inner"
       (arrowFunctionExpression []
          (blockStatement
             [returnStatement
                (providerOf "App_1a2b3c4d" "app_1a2b3c4d" "setApp_1a2b3c4d"
                            (numericLiteral 2))]));
     returnStatement
       (providerOf "App_1a2b3c4d" "app_1a2b3c4d" "setApp_1a2b3c4d"
                   (numericLiteral 1))] /\
  boundFunctionBody 1 body
    <> [letDecl "_$_y" (numericLiteral 1); returnStatement (numericLiteral 2)].
Proof. vm_compute. split; [reflexivity|discriminate]. Qed.

End ExitTraversal.

(** ** Components bound to a variable *)

Section BoundFunctions.
Import Js Constants Ast Path Registry Store Utility AstHelpers Traverse Visitors
       Properties Scenario.




(** [arrowFile], a component bound at the top of a file: its variable is
    registered under [App_1a2b3c4d]; the file comes out with the two
    [require] statements in front and the declaration of [App] as it
    was, with the managed declaration in place, no local-state
    declaration and the return statement not wrapped. *)
Lemma top_level_arrow_component_is_left_alone :
  let r := transformFile moduleHost [] (Some "/app/src/App.js") arrowFile in
  map (fun kv => (fst kv, varNames (snd kv))) (virtualRegistry (snd r))
    = [("App_1a2b3c4d", ["_$_x"])] /\
  statements (output r) =
    [requireDeclaration "_gblContext" "/app/src/scopeContext/gblContext.js";
     requireDeclaration "_react" "react";
     constDecl "App"
       (arrowFunctionExpression []
          (blockStatement [letDecl "_$_x" (numericLiteral 0);
                           returnStatement (numericLiteral 1)]))].
Proof. vm_compute. split; reflexivity. Qed.

(** C10, where the code departs from it.  [panelFile], a component bound
    inside a function declaration that owns a managed variable: the
    variable of [Panel] is registered under [Panel_1a2b3c4d], and no
    visitor runs at the exit of [Panel]; but the traversal at the exit of
    [Page] goes into [Panel], removes the declaration from its body and
    wraps its return statement in the provider of [Page]. *)
Theorem component_inside_a_function_is_synthesised :
  let r := transformFile moduleHost [] (Some "/app/src/Page.js") panelFile in
  registered "Panel_1a2b3c4d" "_$_open" (virtualRegistry (snd r)) = true /\
  boundFunctionBody 1 (bodyOf "Page" (output r)) =
    [returnStatement
       (providerOf "Page_1a2b3c4d" "page_1a2b3c4d" "setPage_1a2b3c4d"
                   (numericLiteral 3))] /\
  ~ In (letDecl "_$_open" (numericLiteral 2))
       (boundFunctionBody 1 (bodyOf "Page" (output r))).
Proof.
  vm_compute. repeat split. intros [H|[]]; discriminate H.
Qed.

End BoundFunctions.

(** ** The registry: what is registered can be found *)

Section RegistryInvariants.
Import Js Constants Registry Properties.

Lemma hasEntry_find (K : string) (r : registry) :
  hasEntry K r = match find K r with Some _ => true | None => false end.
Proof.
  induction r as [|[k e] r IH]; cbn; [reflexivity|].
  destruct (String.eqb K k); [reflexivity|exact IH].
Qed.


Lemma store_keys (K : string) (e : entry) (r : registry) :
  map fst (store K e r) = if hasEntry K r then map fst r else map fst r ++ [K].
Proof.
  induction r as [|[k e'] r IH]; [reflexivity|].
  cbn [store]. unfold hasEntry. cbn [existsb fst].
  destruct (String.eqb K k) eqn:E; cbn [orb map fst]; [reflexivity|].
  fold (hasEntry K r). rewrite IH. destruct (hasEntry K r); reflexivity.
Qed.

Lemma find_store_other (K K' : string) (e : entry) (r : registry) :
  K' <> K -> find K' (store K e r) = find K' r.
Proof.
  intros N. induction r as [|[k e'] r IH]; cbn.
  - apply String.eqb_neq in N. now rewrite N.
  - destruct (String.eqb K k) eqn:E; cbn.
    + apply String.eqb_eq in E. subst k. apply String.eqb_neq in N. now rewrite N.
    + now rewrite IH.
Qed.






Lemma resetVarsForFile_run (H : string) (r : registry) :
  resetVarsForFile H r = (Normal tt, resetVarsForFile_loop ("_" ++ H) r).
Proof. reflexivity. Qed.

Lemma reset_keys (suffix : string) (r : registry) :
  map fst (resetVarsForFile_loop suffix r) = map fst r.
Proof.
  induction r as [|[k e] r IH]; cbn; [reflexivity|].
  rewrite IH. now destruct (JsString.endsWith k suffix).
Qed.


(** What [findContextByVar] answers. *)
Lemma findContextByVar_run (v : string) (r : registry) :
  findContextByVar v r = (Normal (findContextByVar_loop v r), r).
Proof. reflexivity. Qed.

Lemma findContextByVar_store_new (K v : string) (e : entry) (r : registry) :
  JsString.arrIncludes (varNames e) v = true ->
  exists K', findContextByVar_loop v (store K e r) = Some K' /\
             (K' = K \/ findContextByVar_loop v r = Some K').
Proof.
  intros I. induction r as [|[k e'] r IH]; cbn.
  - rewrite I. exists K. auto.
  - destruct (String.eqb K k) eqn:E; cbn.
    + apply String.eqb_eq in E. subst k. rewrite I. exists K. auto.
    + destruct (JsString.arrIncludes (varNames e') v); [exists k; auto|exact IH].
Qed.

Lemma findContextByVar_none_store (K v : string) (e : entry) (r : registry) :
  JsString.arrIncludes (varNames e) v = true ->
  findContextByVar_loop v r = None ->
  findContextByVar_loop v (store K e r) = Some K.
Proof.
  intros I N. destruct (findContextByVar_store_new K v e r I) as (K' & E & [->|H]);
    [exact E|congruence].
Qed.

(** X1.  A variable that was just registered is found: the lookup gives
    the key it was registered under, or the key of an entry before it that
    lists the same name: a name is looked up in all the entries, in the
    order of their keys, whatever component and file they belong to. *)
Theorem register_then_find (r : registry) (K v : string) (d : value) :
  let r1 := snd (registerVariable K v d r) in
  exists K',
    findContextByVar v r1 = (Normal (Some K'), r1) /\
    (K' = K \/ findContextByVar_loop v r = Some K') /\
    (findContextByVar_loop v r = None -> K' = K).
Proof.
  intros r1. subst r1. rewrite findContextByVar_run.
  assert (H : exists K', findContextByVar_loop v (snd (registerVariable K v d r)) = Some K'
                         /\ (K' = K \/ findContextByVar_loop v r = Some K')).
  { destruct (registered K v r) eqn:R.
    - unfold registered in R. destruct (find K r) as [e|] eqn:F; [|discriminate].
      rewrite (registerVariable_known r K v d e F R). cbn [snd].
      clear d. revert F R. induction r as [|[k e'] r IH]; cbn; [discriminate|].
      destruct (String.eqb K k) eqn:E; intros F R.
      + inversion F; subst e'. rewrite R. apply String.eqb_eq in E. exists k. auto.
      + destruct (JsString.arrIncludes (varNames e') v); [exists k; auto|].
        destruct (IH F R) as (K' & E' & _). exists K'. auto.
    - destruct (registerVariable_new r K v d R) as (e0 & _ & Hno & E & _).
      cbv zeta in E. rewrite E. cbn [snd].
      apply findContextByVar_store_new. cbn [varNames].
      rewrite arrIncludes_app. cbn. rewrite String.eqb_refl. apply orb_true_r. }
  destruct H as (K' & E & D). exists K'. split; [now rewrite E|]. split; [exact D|].
  intros N. destruct D as [->|D]; [reflexivity|congruence].
Qed.

(** Registering under [K] leaves the other entries as they are, makes at
    most the key [K], last, and keeps what is registered. *)
Lemma registerVariable_frame (r : registry) (K v : string) (d : value) :
  let r1 := snd (registerVariable K v d r) in
  (forall K', K' <> K -> find K' r1 = find K' r) /\
  map fst r1 = (if hasEntry K r then map fst r else map fst r ++ [K]) /\
  (forall K' v', registered K' v' r = true -> registered K' v' r1 = true).
Proof.
  intros r1. subst r1.
  destruct (registered K v r) eqn:R.
  - pose proof R as R'. unfold registered in R. destruct (find K r) as [e|] eqn:F; [|discriminate].
    rewrite (registerVariable_known r K v d e F R). cbn [snd].
    rewrite hasEntry_find, F. auto.
  - destruct (registerVariable_new r K v d R) as (e0 & He0 & Hno & E & F3).
    cbv zeta in E, F3. rewrite E. cbn [snd]. split; [|split].
    + intros K' N. now apply find_store_other.
    + apply store_keys.
    + intros K' v' R'. unfold registered in *.
      destruct (String.eqb K' K) eqn:EK.
      * apply String.eqb_eq in EK. subst K'. rewrite F3. cbn [varNames].
        rewrite arrIncludes_app.
        destruct He0 as [F|[F ->]]; rewrite F in R'; [now rewrite R'|discriminate].
      * apply String.eqb_neq in EK. now rewrite find_store_other.
Qed.

Lemma reset_loop_idempotent (suffix : string) (r : registry) :
  resetVarsForFile_loop suffix (resetVarsForFile_loop suffix r)
  = resetVarsForFile_loop suffix r.
Proof.
  induction r as [|[k e] r IH]; cbn; [reflexivity|].
  destruct (JsString.endsWith k suffix) eqn:E; cbn; rewrite E, IH; reflexivity.
Qed.

Lemma reset_loop_find (suffix K : string) (r : registry) :
  find K (resetVarsForFile_loop suffix r)
  = match find K r with
    | Some e => Some (if JsString.endsWith K suffix
                      then mkEntry [] (ctxName e) [] else e)
    | None => None
    end.
Proof.
  induction r as [|[k e] r IH]; cbn; [reflexivity|].
  destruct (JsString.endsWith k suffix) eqn:E; cbn;
    destruct (String.eqb K k) eqn:EK; try exact IH;
    apply String.eqb_eq in EK; subst k; now rewrite E.
Qed.

Lemma reset_loop_lookup (suffix v : string) (r : registry) :
  (forall K, findContextByVar_loop v (resetVarsForFile_loop suffix r) = Some K ->
             JsString.endsWith K suffix = false) /\
  (forall K, findContextByVar_loop v r = Some K ->
             JsString.endsWith K suffix = false ->
             findContextByVar_loop v (resetVarsForFile_loop suffix r) = Some K).
Proof.
  induction r as [|[k e] r [IH1 IH2]]; cbn; [split; discriminate|].
  destruct (JsString.endsWith k suffix) eqn:E; cbn.
  - split; [exact IH1|]. intros K.
    destruct (JsString.arrIncludes (varNames e) v); [|apply IH2].
    intros F N. inversion F; subst. congruence.
  - destruct (JsString.arrIncludes (varNames e) v).
    + split; intros K F; inversion F; subst; auto.
    + split; assumption.
Qed.

(** X2.  Resetting a file twice is resetting it once; after the reset no
    variable is registered under a key of the file and no lookup answers
    with a key of the file; a lookup that answered with the key of another
    file answers as before. *)
Theorem reset_forgets_the_file (r : registry) (H v : string) :
  let r' := snd (resetVarsForFile H r) in
  snd (resetVarsForFile H r') = r' /\
  (forall K, JsString.endsWith K ("_" ++ H) = true -> registered K v r' = false) /\
  (forall K, findContextByVar_loop v r' = Some K ->
             JsString.endsWith K ("_" ++ H) = false) /\
  (forall K, findContextByVar_loop v r = Some K ->
             JsString.endsWith K ("_" ++ H) = false ->
             findContextByVar_loop v r' = Some K).
Proof.
  cbv zeta. rewrite !resetVarsForFile_run. cbn [snd].
  split; [apply reset_loop_idempotent|]. split; [|apply reset_loop_lookup].
  intros K E. unfold registered. rewrite reset_loop_find, E.
  now destruct (find K r).
Qed.



End RegistryInvariants.

(** ** Invariants of a traversal *)

Section TraverseInvariant.
Import Js Ast Path Store Traverse.
Context {S : Type}.
Variable world : S -> World.
Variable setWorld : World -> S -> S.
Variable enter leave : M S unit.
Variable embedded : value -> value -> option (string * list step).
Variable detached : S -> value -> S -> S.
(** the invariant, what holds before a node is entered, and the nodes
    the traversal is about *)
Variable Inv : S -> Prop.
Variable Pre : value -> S -> Prop.
Variable C : value -> bool.
Hypothesis C_fields :
  forall fields, C (Obj fields) = true -> Forall (fun kv => C (snd kv) = true) fields.
Hypothesis C_items :
  forall items, C (Arr items) = true -> Forall (fun c => C c = true) items.
Hypothesis Pre_of_Inv : forall v s, Inv s -> Pre v s.
Hypothesis Pre_plain : forall v s, Pre v s -> (forall f, v <> Obj f) -> Inv s.
Hypothesis enter_ok :
  forall v fs s, C v = true -> Pre v s ->
                 Inv (snd (enter (visitAt world setWorld (mkPath v fs) s))).
Hypothesis leave_ok :
  forall p s, Inv s -> Inv (snd (leave (setWorld (setHere p (world s)) s))).
Hypothesis detached_ok : forall s0 n s, Inv s -> Inv (detached s0 n s).

Let run := traverse world setWorld enter leave embedded detached.

Let holdsAfter (v : value) : Prop :=
  forall fs s, C v = true -> Pre v s -> Inv (snd (run v fs s)).

Lemma inItems_holds (todo : list value) :
  Forall holdsAfter todo ->
  Forall (fun c => C c = true) todo ->
  forall before up gone s,
    Inv s -> Inv (snd (inItems run before todo up gone s)).
Proof.
  induction 1 as [|c rest Hc _ IH]; intros HC before up gone s I; cbn [inItems].
  - exact I.
  - inversion HC as [|? ? Cc Crest]; subst.
    specialize (Hc (InItem before rest :: up) s Cc (Pre_of_Inv _ _ I)).
    destruct (run c _ s) as [[[o|e] fs'] s']; cbn [snd] in *; [|exact Hc].
    destruct o; apply IH; assumption.
Qed.

Lemma inFields_holds (todo : list (string * value)) :
  Forall (fun kv => holdsAfter (snd kv)) todo ->
  Forall (fun kv => C (snd kv) = true) todo ->
  forall hook special before up gone s,
    Inv s -> Inv (snd (inFields run hook special before todo up gone s)).
Proof.
  induction 1 as [|[k c] rest Hc _ IH]; intros HC hook special before up gone s I;
    cbn [inFields].
  - exact I.
  - inversion HC as [|? ? Cc Crest]; subst. cbn [snd] in Hc, Cc. cbv zeta.
    match goal with
    | |- context [run c ?fs s] =>
        specialize (Hc fs s Cc (Pre_of_Inv _ _ I));
        destruct (run c fs s) as [[[o|e] fs'] s']
    end; cbn [snd] in *; [|exact Hc].
    destruct o; apply IH; assumption.
Qed.

Lemma inEmbedded_holds (todo : list (string * value)) :
  Forall (fun kv => holdsAfter (snd kv)) todo ->
  Forall (fun kv => C (snd kv) = true) todo ->
  forall k0 v1 fs1 inner s,
    Inv s -> Inv (snd (inEmbedded run k0 v1 fs1 inner todo s)).
Proof.
  induction 1 as [|[k c] rest Hc _ IH]; intros HC k0 v1 fs1 inner s I;
    cbn [inEmbedded].
  - exact I.
  - inversion HC as [|? ? Cc Crest]; subst. cbn [snd] in Hc, Cc.
    destruct (String.eqb k k0); [|now apply IH].
    specialize (Hc (inner ++ fs1) s Cc (Pre_of_Inv _ _ I)).
    destruct (run c _ s) as [[[o|e] fs'] s']; cbn [snd] in *; [|exact Hc].
    now destruct o.
Qed.

Lemma traverse_holds (v : value) : holdsAfter v.
Proof.
  induction v as [| | b | z | s0 | items IH | fields IH] using value_nested_ind;
    intros fs s Cv P.
  1-5: cbn; apply (Pre_plain _ _ P); discriminate.
  - apply inItems_holds; [exact IH|now apply C_items|].
    apply (Pre_plain _ _ P). discriminate.
  - unfold run. cbn [traverse].
    pose proof (enter_ok (Obj fields) fs s Cv P) as I1.
    destruct (enter _) as [[[]|e] s1]; cbn [snd] in *; [|exact I1].
    pose proof (C_fields fields Cv) as Ck.
    assert (Hkids : forall special eff,
               Inv (snd
                    match inFields run (removalHook (Obj fields)) special [] fields
                                   (frames (here (world s1))) false s1 with
                    | (Throw e, fs2, s2) => (Throw e, fs2, s2)
                    | (Normal (fields', gone), fs2, s2) =>
                        match eff with
                        | ParentRemoved =>
                            (Normal ParentGone, fs2, detached s (Obj fields') s2)
                        | _ =>
                            if gone then (Normal Gone, fs2, s2)
                            else
                              match leave (setWorld (setHere (mkPath (Obj fields') fs2)
                                                             (world s2)) s2) with
                              | (Throw e, s3) => (Throw e, fs2, s3)
                              | (Normal _, s3) =>
                                  (Normal (Kept (focus (here (world s3)))),
                                   frames (here (world s3)), s3)
                              end
                        end
                    end)).
    { intros special eff.
      pose proof (inFields_holds fields IH Ck (removalHook (Obj fields)) special []
                    (frames (here (world s1))) false s1 I1) as I2.
      destruct (inFields _ _ _ _ _ _ _ _) as [[[[fields' gone]|e] fs2] s2];
        cbn [snd] in *; [|exact I2].
      assert (Hl : Inv (snd
                        (if gone then (Normal Gone, fs2, s2)
                         else
                           match leave (setWorld (setHere (mkPath (Obj fields') fs2)
                                                          (world s2)) s2) with
                           | (Throw e, s3) => (Throw e, fs2, s3)
                           | (Normal _, s3) =>
                               (Normal (Kept (focus (here (world s3)))),
                                frames (here (world s3)), s3)
                           end))).
      { destruct gone; [exact I2|].
        pose proof (leave_ok (mkPath (Obj fields') fs2) s2 I2) as I3.
        now destruct (leave _) as [[[]|e] s3]. }
      destruct eff; auto. cbn [snd]. now apply detached_ok. }
    destruct (effect (world s1)); cbv iota zeta.
    + apply (Hkids None Untouched).
    + match goal with
      | |- context [inFields _ _ ?sp _ _ _ _ _] => apply (Hkids sp Mutated)
      end.
    + destruct (embedded _ _) as [[k0 route]|]; [|exact I1].
      destruct (framesInside _ _) as [inner|]; [|exact I1].
      now apply inEmbedded_holds.
    + exact I1.
    + apply (Hkids None ParentRemoved).
Qed.

Lemma traverseChildren_holds (v : value) (fs : list frame) (s : S) :
  C v = true -> Inv s ->
  Inv (snd (traverseChildren world setWorld enter leave embedded detached v fs s)).
Proof.
  intros Cv I. unfold traverseChildren.
  destruct v as [| | b | z | s0 | items | fields];
    try (apply traverse_holds; [exact Cv|now apply Pre_of_Inv]).
  pose proof (inFields_holds fields) as H. fold run.
  assert (Hk : Forall (fun kv => holdsAfter (snd kv)) fields).
  { apply Forall_forall. intros kv _. apply traverse_holds. }
  specialize (H Hk (C_fields fields Cv) (removalHook (Obj fields)) None [] fs false s I).
  destruct (inFields _ _ _ _ _ _ _ _) as [[[[fields' gone]|e] fs2] s2]; exact H.
Qed.

End TraverseInvariant.

(** ** Visitors that do nothing *)

Section TraverseIdentity.
Import Js Ast Path Store Traverse.
Variable enter leave : M World unit.
Variable embedded : value -> value -> option (string * list step).
Variable Inv : World -> Prop.
Variable Pre : value -> World -> Prop.
Variable C : value -> bool.
Hypothesis C_fields :
  forall fields, C (Obj fields) = true -> Forall (fun kv => C (snd kv) = true) fields.
Hypothesis C_items :
  forall items, C (Arr items) = true -> Forall (fun c => C c = true) items.
Hypothesis Pre_of_Inv : forall v w, Inv w -> Pre v w.
Hypothesis Pre_plain : forall v w, Pre v w -> (forall f, v <> Obj f) -> Inv w.
Hypothesis enter_quiet :
  forall v fs w, C v = true -> Pre v w ->
    let r := enter (setEffect Untouched (setSeen false (setHere (mkPath v fs) w))) in
    fst r = Normal tt /\ Inv (snd r) /\ here (snd r) = mkPath v fs
    /\ effect (snd r) = Untouched.
Hypothesis leave_quiet :
  forall v fs w, C v = true -> Inv w ->
    let r := leave (setHere (mkPath v fs) w) in
    fst r = Normal tt /\ Inv (snd r) /\ here (snd r) = mkPath v fs.

Let run := traverse (fun w : World => w) (fun w _ => w) enter leave embedded
                    (fun _ _ w => w).

Let passes (v : value) : Prop :=
  forall fs w, C v = true -> Pre v w ->
               exists w', run v fs w = (Normal (Kept v), fs, w') /\ Inv w'.

Lemma inItems_passes (todo : list value) :
  Forall passes todo ->
  Forall (fun c => C c = true) todo ->
  forall before up w,
    Inv w ->
    exists w', inItems run before todo up false w
               = (Normal (Kept (Arr (before ++ todo))), up, w') /\ Inv w'.
Proof.
  induction 1 as [|c rest Hc _ IH]; intros HC before up w I; cbn [inItems].
  - exists w. now rewrite app_nil_r.
  - inversion HC as [|? ? Cc Crest]; subst.
    destruct (Hc (InItem before rest :: up) w Cc (Pre_of_Inv _ _ I)) as (w1 & E & I1).
    rewrite E. cbn [tl].
    destruct (IH Crest (before ++ [c]) up w1 I1) as (w2 & E2 & I2).
    exists w2. now rewrite E2, <- app_assoc.
Qed.

Lemma inFields_passes (todo : list (string * value)) :
  Forall (fun kv => passes (snd kv)) todo ->
  Forall (fun kv => C (snd kv) = true) todo ->
  forall hook before up w,
    Inv w ->
    exists w', inFields run hook None before todo up false w
               = (Normal (before ++ todo, false), up, w') /\ Inv w'.
Proof.
  induction 1 as [|[k c] rest Hc _ IH]; intros HC hook before up w I; cbn [inFields].
  - exists w. now rewrite app_nil_r.
  - inversion HC as [|? ? Cc Crest]; subst. cbn [snd] in Hc, Cc.
    cbv zeta. cbn [app].
    destruct (Hc (InField before k rest :: up) w Cc (Pre_of_Inv _ _ I)) as (w1 & E & I1).
    rewrite E. cbn [length skipn firstn tl plug fold_left].
    destruct (IH Crest hook (before ++ [(k, c)]) up w1 I1) as (w2 & E2 & I2).
    exists w2. now rewrite E2, <- app_assoc.
Qed.

Lemma traverse_passes (v : value) : passes v.
Proof.
  induction v as [| | b | z | s0 | items IH | fields IH] using value_nested_ind;
    intros fs w Cv P.
  1-5: eexists; split; [reflexivity|]; apply (Pre_plain _ _ P); discriminate.
  - apply (inItems_passes items IH (C_items _ Cv) [] fs w).
    apply (Pre_plain _ _ P). discriminate.
  - unfold run. cbn [traverse]. unfold visitAt.
    destruct (enter_quiet (Obj fields) fs w Cv P) as (E1 & I1 & H1 & F1).
    destruct (enter _) as [c1 w1]. cbn [fst snd] in *. subst c1.
    rewrite F1, H1. cbn [frames focus].
    destruct (inFields_passes fields IH (C_fields _ Cv) (removalHook (Obj fields))
                [] fs w1 I1) as (w2 & E2 & I2).
    fold run. rewrite E2. cbn [app].
    destruct (leave_quiet (Obj fields) fs w2 Cv I2) as (E3 & I3 & H3).
    destruct (leave _) as [c3 w3]. cbn [fst snd] in *. subst c3.
    rewrite H3. cbn [frames focus]. now exists w3.
Qed.

End TraverseIdentity.

(** ** What the pass over a file keeps *)

Section FilePass.
Import Js Constants Ast Path Registry Store Utility AstHelpers Traverse Visitors
       Properties.

Section Preserves.
Context {S : Type}.
Variable P : S -> Prop.

Lemma preserves_keeps {A X} (f : S -> X) (m : M S A) :
  (forall s s', f s' = f s -> P s -> P s') -> keeps f m -> preserves P m.
Proof. intros Hf Hk s Hs. exact (Hf s _ (Hk s) Hs). Qed.

Lemma preserves_ret {A} (a : A) : preserves P (ret a : M S A).
Proof. intros s H. exact H. Qed.

Lemma preserves_throw {A} (e : JsError) : preserves P (throw e : M S A).
Proof. intros s H. exact H. Qed.

Lemma preserves_lift {A} (c : completion A) : preserves P (lift c : M S A).
Proof. intros s H. exact H. Qed.

Lemma preserves_get : preserves P (get : M S S).
Proof. intros s H. exact H. Qed.

Lemma preserves_modify (g : S -> S) :
  (forall s, P s -> P (g s)) -> preserves P (modify g).
Proof. intros Hg s. apply Hg. Qed.

Lemma preserves_bind {A B} (m : M S A) (k : A -> M S B) :
  preserves P m -> (forall a, preserves P (k a)) -> preserves P (bind m k).
Proof.
  intros Hm Hk s Hs. unfold bind. specialize (Hm s Hs).
  destruct (m s) as [[a|e] s']; cbn in *; [|exact Hm]. now apply Hk.
Qed.

Lemma preserves_tryCatch {A} (m : M S A) (h : JsError -> M S A) :
  preserves P m -> (forall e, preserves P (h e)) -> preserves P (tryCatch m h).
Proof.
  intros Hm Hh s Hs. unfold tryCatch. specialize (Hm s Hs).
  destruct (m s) as [[a|e] s']; cbn in *; [exact Hm|]. now apply Hh.
Qed.

Lemma preserves_zoom {T A} (proj : S -> T) (upd : T -> S -> S) (m : M T A) :
  (forall s, P s -> P (upd (snd (m (proj s))) s)) -> preserves P (zoom proj upd m).
Proof.
  intros H s Hs. unfold zoom. specialize (H s Hs).
  now destruct (m (proj s)) as [c t'].
Qed.

End Preserves.

Lemma keeps_zoom_in {S T A X} (g : T -> X) (proj : S -> T) (upd : T -> S -> S)
    (m : M T A) :
  (forall t s, proj (upd t s) = t) -> keeps g m ->
  keeps (fun s => g (proj s)) (zoom proj upd m).
Proof.
  intros Hp Hk s. unfold zoom. specialize (Hk (proj s)).
  destruct (m (proj s)) as [c t']. cbn in *. now rewrite Hp.
Qed.

Lemma allOrNothing_core (op : M World unit) : allOrNothing op -> keeps core op.
Proof.
  intros H w. destruct (H w) as [->|(p' & eff & ->)]; reflexivity.
Qed.

Lemma remove_core (target : option path) (eff : Effect) :
  keeps core (remove target eff).
Proof.
  unfold remove. destruct target as [q|]; [|apply keeps_throw].
  destruct (removable _ _); [|apply keeps_throw].
  apply keeps_modify. intros []. reflexivity.
Qed.

Lemma exitEnter_core (e : entry) : keeps (fun x => core (exitWorld x)) (exitEnter e).
Proof.
  unfold exitEnter. apply keeps_bind; [apply keeps_get|intros x].
  destruct (isVariableDeclarator _).
  - unfold functionReturnVariableDelarationVisitor,
      functionReturnVariableDelarationVisitor_body, onWorld.
    repeat first [ apply (keeps_zoom_in core exitWorld setExitWorld);
                   [reflexivity|apply remove_core]
                 | keeps_step ].
  - destruct (isType _ _); [|apply keeps_ret].
    apply (keeps_zoom_in core exitWorld setExitWorld); [reflexivity|].
    unfold functionDeclarationReturnStatementVisitor, thisNode.
    repeat first [ apply allOrNothing_core, builders_allOrNothing | keeps_step ].
Qed.

Lemma exitTraverse_core (e : entry) (p : path) (x : ExitStore) :
  core (exitWorld (snd (exitTraverse e p x))) = core (exitWorld x).
Proof.
  unfold exitTraverse.
  apply (traverseChildren_holds exitWorld setExitWorld (exitEnter e) (ret tt)
           exitEmbedded exitDetached
           (fun x' => core (exitWorld x') = core (exitWorld x))
           (fun _ x' => core (exitWorld x') = core (exitWorld x))
           (fun _ => true)); try reflexivity; auto.
  - intros fields _. apply Forall_forall. reflexivity.
  - intros items _. apply Forall_forall. reflexivity.
  - intros v fs s _ H. rewrite (exitEnter_core e). exact H.
Qed.

Lemma functionDeclarationExit_core : keeps core functionDeclarationExit.
Proof.
  unfold functionDeclarationExit. apply keeps_tryCatch; [|intros; apply keeps_ret].
  intros w. unfold functionDeclarationExit_body, bind, get. cbv beta iota zeta.
  repeat match goal with
         | |- context [if ?b then ret tt else _] => destruct b; [reflexivity|]
         | |- context [match find ?k ?r with _ => _ end] =>
             destruct (find k r); [|reflexivity]
         | |- context [match varNames ?e with _ => _ end] =>
             destruct (varNames e) eqn:?; [reflexivity|]
         end.
  pose proof (exitTraverse_core e (here w) (mkExit w [])) as H.
  destruct (exitTraverse _ _ _) as [[[o|err] fs] x]; cbn [snd exitWorld] in H.
  - unfold put. cbv beta iota zeta.
    destruct (localStateVars x); [cbn; exact H|].
    rewrite (allOrNothing_core _ (proj1 (proj2 (proj2 builders_allOrNothing)) _ _)).
    exact H.
  - cbn. exact H.
Qed.

Lemma programExit_core : keeps core programExit.
Proof.
  unfold programExit, bindMissingImport.
  repeat first [ apply allOrNothing_core, builders_allOrNothing | keeps_step ].
Qed.

Lemma pluginLeave_core : keeps core pluginLeave.
Proof.
  unfold pluginLeave. apply keeps_bind; [apply keeps_get|intros w].
  destruct (isType _ _); [apply programExit_core|].
  destruct (isFunctionDeclaration _); [apply functionDeclarationExit_core|apply keeps_ret].
Qed.

(** An invariant of what outlives a visit that the visitors called on
    entering a node keep is kept by the pass over a whole file. *)
Section FileInvariant.
Variable P : World -> Prop.
Variable Pre : value -> World -> Prop.
Variable C : value -> bool.
Hypothesis C_fields :
  forall fields, C (Obj fields) = true -> Forall (fun kv => C (snd kv) = true) fields.
Hypothesis C_items :
  forall items, C (Arr items) = true -> Forall (fun c => C c = true) items.
Hypothesis P_core : forall w w', core w' = core w -> P w -> P w'.
Hypothesis Pre_of_P : forall v w, P w -> Pre v w.
Hypothesis Pre_plain : forall v w, Pre v w -> (forall f, v <> Obj f) -> P w.
Hypothesis enter_ok :
  forall v fs w, C v = true -> Pre v w ->
    P (snd (pluginEnter (setEffect Untouched (setSeen false (setHere (mkPath v fs) w))))).

Lemma transformFile_invariant (h : Host) (r : registry) (fileName : option string)
    (prog : value) :
  C prog = true ->
  Pre prog (mkWorld h r (initialState fileName) (mkPath prog []) false Untouched) ->
  P (snd (transformFile h r fileName prog)).
Proof.
  intros Cp P0. unfold transformFile.
  assert (HB : forall p s, P s -> P (snd (pluginLeave (setHere p s)))).
  { intros p s Hs. apply (P_core (setHere p s)); [apply pluginLeave_core|].
    now apply (P_core s). }
  pose proof (traverse_holds (fun w => w) (fun w _ => w) pluginEnter pluginLeave
                pluginEmbedded (fun _ _ w => w) P Pre C C_fields C_items
                Pre_of_P Pre_plain enter_ok HB (fun _ _ s Hs => Hs) prog [] _ Cp P0)
    as H.
  destruct (traverse _ _ _ _ _ _ _ _ _) as [[[o|e] fs] w']; [destruct o|]; exact H.
Qed.

End FileInvariant.

End FilePass.

(** ** The visitors called on entering a node *)

Section EnterVisitors.
Import Js Constants Ast Path Registry Store Utility AstHelpers Traverse Visitors
       Properties.

Lemma allOrNothing_file (op : M World unit) : allOrNothing op -> keeps fileOf op.
Proof.
  intros H w. destruct (H w) as [->|(p' & eff & ->)]; reflexivity.
Qed.

Ltac keeps_file :=
  unfold modifyState, onRegistry, markUseStateImport, thisNode, replaceHere;
  repeat first [ apply allOrNothing_file, builders_allOrNothing | keeps_step ].

Lemma pluginEnter_file : keeps fileOf pluginEnter.
Proof.
  unfold pluginEnter. apply keeps_bind; [apply keeps_get|intros w].
  repeat match goal with
         | |- keeps _ (if ?b then _ else _) => destruct b
         end.
  - unfold programEnter, importStateResolver, resetRegisteryProcess. keeps_file.
  - unfold variableDeclarationVisitor, variableDeclarationVisitor_body. keeps_file.
  - unfold assignmentExpressionVisitor, assignmentExpressionVisitor_body. keeps_file.
  - unfold identifierVisitor, identifierVisitor_body. keeps_file.
  - apply keeps_ret.
Qed.

Ltac world_simpl :=
  cbn [virtualRegistry host state here seen effect
       setState setRegistry setHere setSeen setEffect
       setCasperConfig setImportState setNeedsGblContext setNeedUseStateImport
       filename casperConfig importState needsGblContext needUseStateImport
       fst snd] in *.

Lemma importStateResolver_keeps :
  keeps (fun w => (host w, virtualRegistry w, filename (state w))) importStateResolver.
Proof. unfold importStateResolver. keeps_all. Qed.

Lemma importStateResolver_returns (w : World) :
  fst (importStateResolver w) = Normal tt.
Proof.
  pose proof (neverThrows_caught _ tt w : returns (fst (importStateResolver w)) = true).
  destruct (importStateResolver w) as [[[]|e] w']; [reflexivity|discriminate].
Qed.

Lemma resetRegisteryProcess_run (w : World) :
  resetRegisteryProcess w
  = (Normal tt,
     if isExcludeFile (host w) (fileNameOf (state w))
     then setRegistry (resetVarsForFile_loop (fileSuffix w) (virtualRegistry w)) w
     else w).
Proof.
  unfold resetRegisteryProcess, tryCatch, bind, get. cbv beta iota zeta.
  now destruct (isExcludeFile _ _).
Qed.

Lemma programEnter_run (w : World) :
  let w1 := setState (setCasperConfig (Some (configuredPrefix (host w))) (state w)) w in
  let w2 := snd (importStateResolver w1) in
  programEnter w
  = (Normal tt,
     if isExcludeFile (host w) (fileNameOf (state w))
     then setRegistry (resetVarsForFile_loop (fileSuffix w) (virtualRegistry w)) w2
     else w2).
Proof.
  cbv zeta. unfold programEnter, tryCatch, bind, get, modifyState, modify.
  cbv beta iota zeta.
  pose proof (importStateResolver_returns
                (setState (setCasperConfig (Some (configuredPrefix (host w))) (state w)) w))
    as R.
  pose proof (importStateResolver_keeps
                (setState (setCasperConfig (Some (configuredPrefix (host w))) (state w)) w))
    as K.
  destruct (importStateResolver _) as [c w2]. cbn [fst snd] in *. subst c.
  rewrite resetRegisteryProcess_run. unfold fileSuffix, fileNameOf.
  destruct w as [h r [fn cc im g u] p sn ef], w2 as [h2 r2 [fn2 cc2 im2 g2 u2] p2 sn2 ef2].
  cbn in K. inversion K; subst. reflexivity.
Qed.

Lemma variableDeclarationVisitor_registry (w : World) :
  virtualRegistry (snd (variableDeclarationVisitor w)) = virtualRegistry w \/
  exists cmp name d,
    virtualRegistry (snd (variableDeclarationVisitor w))
    = snd (registerVariable (cmp ++ fileSuffix w) name d (virtualRegistry w)).
Proof.
  unfold variableDeclarationVisitor, variableDeclarationVisitor_body,
    markUseStateImport, modifyState, onRegistry, fileSuffix.
  unfold tryCatch, bind, get, lift, modify, ret, throw, zoom.
  destruct w as [h r st p sn ef]. cbv beta iota zeta. world_simpl.
  repeat (innermost; cbv beta iota zeta; world_simpl);
    try (left; reflexivity).
  all: first [ left; reflexivity
          | right;
            match goal with
            | H : registerVariable ?K ?n ?d _ = _ |- _ =>
                match K with
                | (?c ++ _)%string => exists c, n, d; rewrite H; reflexivity
                end
            end ].
Qed.

Lemma visitors_keep_registry :
  keeps virtualRegistry identifierVisitor /\
  keeps virtualRegistry assignmentExpressionVisitor.
Proof.
  assert (F : forall name, keeps virtualRegistry (onRegistry (findContextByVar name))).
  { intros name [h r st p sn ef]. reflexivity. }
  assert (B : forall op, allOrNothing op -> keeps virtualRegistry op).
  { intros op H w. destruct (H w) as [->|(p' & eff & ->)]; reflexivity. }
  split.
  - unfold identifierVisitor, identifierVisitor_body, modifyState, markUseStateImport.
    repeat first [ apply F | apply B, builders_allOrNothing | keeps_step ].
  - unfold assignmentExpressionVisitor, assignmentExpressionVisitor_body, modifyState,
      markUseStateImport.
    repeat first [ apply F | apply B, builders_allOrNothing | keeps_step ].
Qed.

End EnterVisitors.

(** ** The registry after a file *)

Section FileRegistryFacts.
Import Js Constants Ast Path Registry Store Utility AstHelpers Traverse Visitors
       Properties.

Section FileRegistry.
Variable h : Host.
Variable fileName : option string.
Variable Q : registry -> Prop.
Hypothesis Q_register :
  forall r cmp v d,
    Q r -> Q (snd (registerVariable (cmp ++ keySuffix h fileName) v d r)).
Hypothesis Q_reset :
  forall r, Q r -> Q (resetVarsForFile_loop (keySuffix h fileName) r).

Let P (w : World) : Prop :=
  fileOf w = (h, fileNameOf (initialState fileName)) /\ Q (virtualRegistry w).

Lemma pluginEnter_registry (w : World) : P w -> P (snd (pluginEnter w)).
Proof.
  intros [F HQ]. split; [now rewrite pluginEnter_file|].
  assert (S : fileSuffix w = keySuffix h fileName).
  { unfold fileSuffix, keySuffix. unfold fileOf in F. now inversion F. }
  unfold pluginEnter, bind, get. cbv beta iota zeta.
  destruct (isType "Program" _).
  { pose proof (programEnter_run w) as R. cbv zeta in R. rewrite R. cbn [snd].
    match type of R with
    | context [importStateResolver ?w1] =>
        pose proof (importStateResolver_keeps w1) as K
    end.
    cbn [host virtualRegistry state setState] in K.
    assert (E : virtualRegistry
                  (snd (importStateResolver
                          (setState (setCasperConfig (Some (configuredPrefix (host w)))
                                                     (state w)) w)))
                = virtualRegistry w) by now inversion K.
    destruct (isExcludeFile _ _); cbn [virtualRegistry setRegistry].
    - rewrite S. now apply Q_reset.
    - now rewrite E. }
  destruct (isVariableDeclarator _).
  { destruct (variableDeclarationVisitor_registry w) as [->|(cmp & name & d & ->)];
      [exact HQ|]. rewrite S. now apply Q_register. }
  destruct (isAssignmentExpression _).
  { now rewrite (proj2 visitors_keep_registry). }
  destruct (isIdentifier _).
  { now rewrite (proj1 visitors_keep_registry). }
  exact HQ.
Qed.

Lemma transformFile_registry (r : registry) (prog : value) :
  Q r -> Q (virtualRegistry (snd (transformFile h r fileName prog))).
Proof.
  intros HQ.
  apply (transformFile_invariant P (fun _ => P) (fun _ => true)); auto.
  - intros fields _. apply Forall_forall. reflexivity.
  - intros items _. apply Forall_forall. reflexivity.
  - intros w w' E [F HQ']. unfold core in E. inversion E as [[E1 E2 E3]].
    split; [|now rewrite E2]. unfold fileOf. now rewrite E1, E3.
  - intros v fs w _ Hw. apply pluginEnter_registry. exact Hw.
  - split; [reflexivity|exact HQ].
Qed.

End FileRegistry.


Lemma extends_refl (suffix : string) (r : registry) : extends suffix r r.
Proof. split; [reflexivity|]. exists []. now rewrite app_nil_r. Qed.

Lemma extends_register (suffix : string) (r0 r : registry) (cmp v : string) (d : value) :
  extends suffix r0 r ->
  extends suffix r0 (snd (registerVariable (cmp ++ suffix) v d r)).
Proof.
  intros [F (added & Ks & A)].
  assert (E : JsString.endsWith (cmp ++ suffix) suffix = true)
    by (apply endsWith_iff; now exists cmp).
  destruct (registerVariable_frame r (cmp ++ suffix) v d) as (F1 & K1 & _).
  cbv zeta in F1, K1. split.
  - intros K N. rewrite F1; [now apply F|]. intros ->. congruence.
  - rewrite K1. destruct (hasEntry _ r); [now exists added|].
    exists (added ++ [(cmp ++ suffix)%string]). rewrite Ks, app_assoc. split; [reflexivity|].
    apply Forall_app. split; [exact A|]. now constructor.
Qed.

Lemma extends_reset (suffix : string) (r0 r : registry) :
  extends suffix r0 r -> extends suffix r0 (resetVarsForFile_loop suffix r).
Proof.
  intros [F (added & Ks & A)]. split.
  - intros K N. rewrite reset_loop_find, N. rewrite <- F by exact N.
    now destruct (find K r).
  - exists added. now rewrite reset_keys.
Qed.

Lemma length_app (a b : string) :
  String.length (a ++ b) = String.length a + String.length b.
Proof. induction a as [|c a IH]; cbn; [reflexivity|now rewrite IH]. Qed.

Lemma app_same_length (a b x y : string) :
  (a ++ x = b ++ y)%string -> String.length x = String.length y -> x = y.
Proof.
  revert b. induction a as [|c a IH]; intros [|d b] E L; cbn in E.
  - exact E.
  - exfalso. apply (f_equal String.length) in E. cbn in E.
    rewrite length_app, L in E. exact (Nat.succ_add_discr _ _ E).
  - exfalso. apply (f_equal String.length) in E. cbn in E.
    rewrite length_app, <- L in E. symmetry in E. exact (Nat.succ_add_discr _ _ E).
  - inversion E. eapply IH; eassumption.
Qed.

Lemma endsWith_other_hash (c h1 h2 : string) :
  String.length h1 = String.length h2 -> h1 <> h2 ->
  JsString.endsWith (c ++ "_" ++ h1) ("_" ++ h2) = false.
Proof.
  intros L N. destruct (JsString.endsWith _ _) eqn:E; [|reflexivity].
  apply endsWith_iff in E as [p E]. exfalso. apply N.
  assert (H : ("_" ++ h1 = "_" ++ h2)%string)
    by (apply (app_same_length c p); [exact E|cbn; now rewrite L]).
  now inversion H.
Qed.

(** X5.  The pass over a file leaves the entries of the other files as
    they were and takes no key out of the registry: the keys it adds come
    last and end with the hash of the file.  In particular the entries
    under the keys of a file with another hash, of the same length, are
    as they were. *)
Theorem transformFile_frame (h : Host) (r : registry) (fileName : option string)
    (prog : value) :
  let hash := getFilePathHASH h (fileNameOf (initialState fileName)) in
  let r' := virtualRegistry (snd (transformFile h r fileName prog)) in
  extends (keySuffix h fileName) r r' /\
  forall c hash',
    String.length hash' = String.length hash -> hash' <> hash ->
    find (c ++ "_" ++ hash') r' = find (c ++ "_" ++ hash') r.
Proof.
  cbv zeta.
  assert (X : extends (keySuffix h fileName) r
                      (virtualRegistry (snd (transformFile h r fileName prog)))).
  { apply (transformFile_registry h fileName (extends (keySuffix h fileName) r)).
    - intros. now apply extends_register.
    - intros. now apply extends_reset.
    - apply extends_refl. }
  split; [exact X|]. intros c hash' L N. apply (proj1 X).
  now apply endsWith_other_hash.
Qed.

(** X22.  The registry changes in two places only, the reset on entering
    the file and the registration of a declared variable: the visitors of
    reads and of assignments, the exit of a function declaration (with the
    traversal it runs) and the exit of the file leave it as it is; the two
    exits change nothing of the file state either. *)
Theorem only_reset_and_declarations_change_the_registry :
  keeps virtualRegistry identifierVisitor /\
  keeps virtualRegistry assignmentExpressionVisitor /\
  keeps core functionDeclarationExit /\
  keeps core programExit /\
  (forall e p x, core (exitWorld (snd (exitTraverse e p x))) = core (exitWorld x)).
Proof.
  split; [apply visitors_keep_registry|]. split; [apply visitors_keep_registry|].
  split; [apply functionDeclarationExit_core|]. split; [apply programExit_core|].
  apply exitTraverse_core.
Qed.


End FileRegistryFacts.

(** ** Nodes the visitors leave alone *)

Section QuietNodes.
Import Js Constants Ast Path Registry Store Utility AstHelpers Traverse Visitors
       Properties.

Lemma mentions_fields (pre : string) (fields : list (string * value)) :
  negb (mentions pre (Obj fields)) = true ->
  Forall (fun kv => negb (mentions pre (snd kv)) = true) fields.
Proof.
  cbn [mentions]. rewrite negb_true_iff, orb_false_iff. intros [_ H].
  apply Forall_forall. intros kv I. rewrite negb_true_iff.
  destruct (mentions pre (snd kv)) eqn:E; [|reflexivity].
  rewrite <- H. symmetry. apply existsb_exists. now exists kv.
Qed.

Lemma mentions_items (pre : string) (items : list value) :
  negb (mentions pre (Arr items)) = true ->
  Forall (fun c => negb (mentions pre c) = true) items.
Proof.
  cbn [mentions]. rewrite negb_true_iff. intros H.
  apply Forall_forall. intros c I. rewrite negb_true_iff.
  destruct (mentions pre c) eqn:E; [|reflexivity].
  rewrite <- H. symmetry. apply existsb_exists. now exists c.
Qed.

Lemma mentions_lookup (pre k : string) (fields : list (string * value)) :
  mentions pre (Obj fields) = false -> mentions pre (lookup k fields) = false.
Proof.
  intros H. pose proof (mentions_fields pre fields) as F.
  rewrite H in F. specialize (F eq_refl). clear H.
  induction F as [|[k' c] rest Hc _ IH]; cbn [lookup]; [reflexivity|].
  destruct (String.eqb k k'); [|exact IH]. now apply negb_true_iff in Hc.
Qed.

Lemma mentions_prop (pre k : string) (v a : value) :
  mentions pre v = false -> prop k v = Normal a -> mentions pre a = false.
Proof.
  destruct v; cbn [prop]; intros M E; inversion E; subst; try reflexivity.
  now apply mentions_lookup.
Qed.

Lemma mentions_optProp (pre k : string) (v : value) :
  mentions pre v = false -> mentions pre (optProp k v) = false.
Proof.
  destruct v; cbn [optProp]; intros M; try reflexivity. now apply mentions_lookup.
Qed.

Lemma mentions_name (pre : string) (v : value) (st : PluginState) :
  mentions pre v = false -> casperConfig st = Some pre ->
  nameStartsWithPrefix (optProp "name" v) st <> Normal true.
Proof.
  intros M Cc.
  destruct v as [| | | | | |fields]; cbn [optProp nameStartsWithPrefix];
    try discriminate.
  cbn [mentions] in M. apply orb_false_iff in M as [M _].
  destruct (lookup "name" fields); cbn [nameStartsWithPrefix]; try discriminate.
  unfold prefixOf. rewrite Cc. cbn. congruence.
Qed.

Lemma mentions_prop_name (pre : string) (v a : value) (st : PluginState) :
  mentions pre v = false -> casperConfig st = Some pre ->
  prop "name" v = Normal a ->
  nameStartsWithPrefix a st <> Normal true.
Proof.
  intros M Cc E. pose proof (mentions_name pre v st M Cc) as H.
  destruct v; cbn [prop optProp] in *; inversion E; subst; exact H.
Qed.

(** The visitors on a node that names no managed variable *)
Section QuietVisitors.
Variable w : World.
Variable pre : string.
Hypothesis config : casperConfig (state w) = Some pre.
Hypothesis quiet : mentions pre (focus (here w)) = false.

Lemma variableDeclarationVisitor_quiet : variableDeclarationVisitor w = (Normal tt, w).
Proof.
  unfold variableDeclarationVisitor, variableDeclarationVisitor_body.
  unfold tryCatch, bind, get, lift, ret. cbv beta iota zeta.
  destruct (negb (isExcludeFile _ _)); [reflexivity|].
  destruct (prop "id" _) as [id|] eqn:E1; [|reflexivity].
  destruct (prop "name" id) as [nameV|] eqn:E2; [|reflexivity].
  pose proof (mentions_prop_name pre id nameV (state w)
                (mentions_prop _ _ _ _ quiet E1) config E2) as N.
  destruct (nameStartsWithPrefix nameV (state w)) as [[|]|]; [congruence|reflexivity..].
Qed.

Lemma assignmentExpressionVisitor_quiet :
  assignmentExpressionVisitor w = (Normal tt, w).
Proof.
  unfold assignmentExpressionVisitor, assignmentExpressionVisitor_body.
  unfold tryCatch, bind, get, lift, ret. cbv beta iota zeta.
  destruct (negb (isExcludeFile _ _)); [reflexivity|].
  destruct (prop "left" _) as [left|] eqn:E1; [|reflexivity].
  destruct (prop "type" left) as [[| | | | ty | |]|] eqn:E2; try reflexivity.
  destruct (negb (String.eqb ty IDENTIFIER)); [reflexivity|].
  pose proof (mentions_name pre left (state w) (mentions_prop _ _ _ _ quiet E1) config)
    as N.
  destruct (nameStartsWithPrefix _ (state w)) as [[|]|]; [congruence|reflexivity..].
Qed.

Lemma identifierVisitor_quiet : identifierVisitor w = (Normal tt, w).
Proof.
  unfold identifierVisitor, identifierVisitor_body.
  unfold tryCatch, bind, get, lift, ret. cbv beta iota zeta.
  destruct (negb (isExcludeFile _ _)); [reflexivity|].
  pose proof (mentions_name pre _ (state w) quiet config) as N.
  destruct (nameStartsWithPrefix _ (state w)) as [[|]|]; [congruence|reflexivity..].
Qed.

End QuietVisitors.

(** The visitors in a file that is not processed *)
Section ExcludedVisitors.
Variable w : World.
Hypothesis excluded : isExcludeFile (host w) (fileNameOf (state w)) = false.

Lemma variableDeclarationVisitor_excluded :
  variableDeclarationVisitor w = (Normal tt, w).
Proof.
  unfold variableDeclarationVisitor, variableDeclarationVisitor_body.
  unfold tryCatch, bind, get. cbv beta iota zeta. now rewrite excluded.
Qed.

Lemma assignmentExpressionVisitor_excluded :
  assignmentExpressionVisitor w = (Normal tt, w).
Proof.
  unfold assignmentExpressionVisitor, assignmentExpressionVisitor_body.
  unfold tryCatch, bind, get. cbv beta iota zeta. now rewrite excluded.
Qed.

Lemma identifierVisitor_excluded : identifierVisitor w = (Normal tt, w).
Proof.
  unfold identifierVisitor, identifierVisitor_body.
  unfold tryCatch, bind, get. cbv beta iota zeta. now rewrite excluded.
Qed.

Lemma functionDeclarationExit_excluded : functionDeclarationExit w = (Normal tt, w).
Proof.
  unfold functionDeclarationExit, functionDeclarationExit_body.
  unfold tryCatch, bind, get. cbv beta iota zeta. now rewrite excluded.
Qed.

End ExcludedVisitors.

Lemma programExit_idle (w : World) :
  needsGblContext (state w) = false -> needUseStateImport (state w) = false ->
  programExit w = (Normal tt, w).
Proof.
  intros G U. unfold programExit, bindMissingImport.
  unfold tryCatch, bind, get, ret. cbv beta iota zeta. now rewrite U, G.
Qed.

Lemma functionDeclarationExit_idle (w : World) :
  (forall K e, find (K ++ fileSuffix w) (virtualRegistry w) = Some e -> varNames e = []) ->
  functionDeclarationExit w = (Normal tt, w).
Proof.
  intros H. unfold functionDeclarationExit, functionDeclarationExit_body.
  unfold tryCatch, bind, get, ret. cbv beta iota zeta.
  destruct (negb (isExcludeFile _ _)); [reflexivity|].
  destruct (negb (truthy _)); [reflexivity|].
  specialize (H (toPropertyKey (optProp "name" (optProp "id" (focus (here w)))))).
  unfold fileSuffix in H.
  destruct (find _ _) as [e|]; [|reflexivity].
  now rewrite (H e eq_refl).
Qed.

End QuietNodes.

(** ** Files that come out as they went in *)

Section LeftAlone.
Import Js Constants Ast Path Registry Store Utility AstHelpers Traverse Visitors
       Properties.

Lemma importStateResolver_rest :
  keeps (fun w => (host w, virtualRegistry w, here w, seen w, effect w,
                   (filename (state w), casperConfig (state w),
                    needsGblContext (state w), needUseStateImport (state w))))
        importStateResolver.
Proof. unfold importStateResolver. keeps_all. Qed.

(** What [programEnter] leaves: the configured prefix in the state, the
    entries of the file reset when the file is processed, and the rest as
    it was, but for [importState]. *)
Lemma programEnter_spec (w : World) :
  let w' := snd (programEnter w) in
  fst (programEnter w) = Normal tt /\
  host w' = host w /\ here w' = here w /\ seen w' = seen w /\ effect w' = effect w /\
  filename (state w') = filename (state w) /\
  casperConfig (state w') = Some (configuredPrefix (host w)) /\
  needsGblContext (state w') = needsGblContext (state w) /\
  needUseStateImport (state w') = needUseStateImport (state w) /\
  virtualRegistry w'
  = if isExcludeFile (host w) (fileNameOf (state w))
    then resetVarsForFile_loop (fileSuffix w) (virtualRegistry w)
    else virtualRegistry w.
Proof.
  pose proof (programEnter_run w) as R. cbv zeta in *. rewrite R. cbn [fst snd].
  match type of R with
  | context [importStateResolver ?w1] =>
      pose proof (importStateResolver_rest w1) as K;
      destruct (importStateResolver w1) as [c w2]
  end.
  cbn [snd host virtualRegistry state setState here seen effect filename casperConfig
       needsGblContext needUseStateImport setCasperConfig] in K.
  injection K as K1 K2 K3 K4 K5 K6 K7 K8 K9. clear R. cbn [snd].
  destruct (isExcludeFile _ _); cbn [host here seen effect state virtualRegistry
                                     setRegistry];
    repeat split; congruence.
Qed.

Lemma fileNameOf_filename (st st' : PluginState) :
  filename st' = filename st -> fileNameOf st' = fileNameOf st.
Proof. unfold fileNameOf. now intros ->. Qed.

(** ** A file that is not processed *)

Section ExcludedFile.
Variable h : Host.
Variable fileName : option string.
Variable r : registry.
Hypothesis excluded : isExcludeFile h (fileNameOf (initialState fileName)) = false.

Let Inv (w : World) : Prop :=
  host w = h /\ filename (state w) = fileName /\
  needsGblContext (state w) = false /\ needUseStateImport (state w) = false /\
  virtualRegistry w = r.

Lemma Inv_excluded (w : World) :
  Inv w -> isExcludeFile (host w) (fileNameOf (state w)) = false.
Proof.
  intros (H1 & H2 & _). rewrite H1, (fileNameOf_filename (initialState fileName));
    [exact excluded|exact H2].
Qed.

Lemma pluginEnter_excluded (v : value) (fs : list frame) (w : World) :
  Inv w ->
  let r' := pluginEnter (setEffect Untouched (setSeen false (setHere (mkPath v fs) w))) in
  fst r' = Normal tt /\ Inv (snd r') /\ here (snd r') = mkPath v fs
  /\ effect (snd r') = Untouched.
Proof.
  intros I. cbv zeta.
  set (w0 := setEffect Untouched (setSeen false (setHere (mkPath v fs) w))).
  assert (I0 : Inv w0) by exact I.
  pose proof (Inv_excluded w0 I0) as X.
  unfold pluginEnter, bind, get. cbv beta iota zeta.
  destruct (isType "Program" _).
  { destruct (programEnter_spec w0) as (E & H1 & H2 & H3 & H4 & H5 & H6 & H7 & H8 & H9).
    cbv zeta in *. rewrite X in H9. destruct I0 as (J1 & J2 & J3 & J4 & J5).
    repeat split; try assumption; congruence. }
  destruct (isVariableDeclarator _);
    [rewrite (variableDeclarationVisitor_excluded w0 X); repeat split; apply I0|].
  destruct (isAssignmentExpression _);
    [rewrite (assignmentExpressionVisitor_excluded w0 X); repeat split; apply I0|].
  destruct (isIdentifier _);
    [rewrite (identifierVisitor_excluded w0 X); repeat split; apply I0|].
  repeat split; apply I0.
Qed.

Lemma pluginLeave_excluded (v : value) (fs : list frame) (w : World) :
  Inv w ->
  let r' := pluginLeave (setHere (mkPath v fs) w) in
  fst r' = Normal tt /\ Inv (snd r') /\ here (snd r') = mkPath v fs.
Proof.
  intros I. cbv zeta. set (w0 := setHere (mkPath v fs) w).
  assert (I0 : Inv w0) by exact I.
  pose proof (Inv_excluded w0 I0) as X.
  unfold pluginLeave, bind, get. cbv beta iota zeta.
  destruct (isType "Program" _).
  { rewrite programExit_idle; [repeat split; apply I0|apply I0..]. }
  destruct (isFunctionDeclaration _);
    [rewrite (functionDeclarationExit_excluded w0 X)|]; repeat split; apply I0.
Qed.

Lemma transformFile_excluded (prog : value) :
  fst (transformFile h r fileName prog) = Normal prog /\
  Inv (snd (transformFile h r fileName prog)).
Proof.
  unfold transformFile.
  destruct (traverse_passes pluginEnter pluginLeave pluginEmbedded Inv (fun _ => Inv)
              (fun _ => true)) with (v := prog) (fs := @nil frame)
              (w := mkWorld h r (initialState fileName) (mkPath prog []) false Untouched)
    as (w' & E & I'); auto.
  - intros fields _. apply Forall_forall. reflexivity.
  - intros items _. apply Forall_forall. reflexivity.
  - intros v fs w _ I. now apply pluginEnter_excluded.
  - intros v fs w _ I. now apply pluginLeave_excluded.
  - repeat split.
  - rewrite E. split; [reflexivity|exact I'].
Qed.

End ExcludedFile.

(** X6.  A file that is not to be processed (it is under [node_modules],
    [/dist/] or [/build/], it is the generated context module, or it is
    outside the source directory) comes out of the pass as it went in, the
    registry is what it was, and no [require] is asked for. *)
Theorem excluded_file_is_left_alone (h : Host) (r : registry)
    (fileName : option string) (prog : value) :
  isExcludeFile h (fileNameOf (initialState fileName)) = false ->
  let out := transformFile h r fileName prog in
  fst out = Normal prog /\
  virtualRegistry (snd out) = r /\
  injectedRequires h (state (snd out)) = [].
Proof.
  intros X. cbv zeta.
  destruct (transformFile_excluded h fileName r X prog) as (E & _ & _ & G & U & R).
  repeat split; [exact E|exact R|]. unfold injectedRequires. now rewrite G, U.
Qed.

Lemma excluded_file_is_left_alone_witness :
  let out := transformFile Scenario.moduleHost
               (virtualRegistry Scenario.atCounterAssignment)
               (Some "/app/node_modules/pkg/Counter.js") Scenario.counterFile in
  fst out = Normal Scenario.counterFile /\
  virtualRegistry (snd out) = virtualRegistry Scenario.atCounterAssignment /\
  injectedRequires Scenario.moduleHost (state (snd out)) = [].
Proof.
  apply (excluded_file_is_left_alone Scenario.moduleHost
           (virtualRegistry Scenario.atCounterAssignment)
           (Some "/app/node_modules/pkg/Counter.js") Scenario.counterFile).
  reflexivity.
Defined.


Section PlainFile.
Variable h : Host.
Variable fileName : option string.
Variable r : registry.

Let pre := configuredPrefix h.
Let cleared := resetVarsForFile_loop (keySuffix h fileName) r.

Let Start (w : World) : Prop :=
  host w = h /\ filename (state w) = fileName /\
  needsGblContext (state w) = false /\ needUseStateImport (state w) = false.

Let Inv (w : World) : Prop :=
  Start w /\ casperConfig (state w) = Some pre /\ virtualRegistry w = cleared.

Let Pre (v : value) (w : World) : Prop :=
  Inv w \/ (isType "Program" v = true /\ Start w /\ virtualRegistry w = r).

Hypothesis processed : isExcludeFile h (fileNameOf (initialState fileName)) = true.

Lemma Start_suffix (w : World) : Start w -> fileSuffix w = keySuffix h fileName.
Proof.
  intros (H1 & H2 & _). unfold fileSuffix, keySuffix.
  now rewrite H1, (fileNameOf_filename (initialState fileName)).
Qed.

Lemma Start_processed (w : World) :
  Start w -> isExcludeFile (host w) (fileNameOf (state w)) = true.
Proof.
  intros (H1 & H2 & _).
  now rewrite H1, (fileNameOf_filename (initialState fileName)).
Qed.

Lemma cleared_idle (K : string) (e : entry) :
  find (K ++ keySuffix h fileName) cleared = Some e -> varNames e = [].
Proof.
  unfold cleared. rewrite reset_loop_find.
  assert (E : JsString.endsWith (K ++ keySuffix h fileName) (keySuffix h fileName) = true)
    by (apply endsWith_iff; now exists K).
  rewrite E. destruct (find _ r); intros F; inversion F. reflexivity.
Qed.

Lemma pluginEnter_plain (v : value) (fs : list frame) (w : World) :
  negb (mentions pre v) = true -> Pre v w ->
  let r' := pluginEnter (setEffect Untouched (setSeen false (setHere (mkPath v fs) w))) in
  fst r' = Normal tt /\ Inv (snd r') /\ here (snd r') = mkPath v fs
  /\ effect (snd r') = Untouched.
Proof.
  intros M P. apply negb_true_iff in M. cbv zeta.
  set (w0 := setEffect Untouched (setSeen false (setHere (mkPath v fs) w))).
  assert (S0 : Start w0) by (destruct P as [[S _]|(_ & S & _)]; exact S).
  unfold pluginEnter, bind, get. cbv beta iota zeta.
  change (focus (here w0)) with v.
  destruct (isType "Program" v) eqn:T.
  { destruct (programEnter_spec w0) as (E & H1 & H2 & H3 & H4 & H5 & H6 & H7 & H8 & H9).
    cbv zeta in *. rewrite (Start_processed w0 S0), (Start_suffix w0 S0) in H9.
    destruct S0 as (J1 & J2 & J3 & J4).
    assert (R : virtualRegistry (snd (programEnter w0)) = cleared).
    { rewrite H9. change (virtualRegistry w0) with (virtualRegistry w).
      destruct P as [(_ & _ & ->)|(_ & _ & ->)]; [|reflexivity].
      apply reset_loop_idempotent. }
    unfold Inv, Start, pre. repeat split; try assumption; congruence. }
  destruct P as [I|(T' & _)]; [|congruence].
  assert (I0 : Inv w0) by exact I.
  assert (Q : fst (@pair (completion unit) World (Normal tt) w0) = Normal tt /\
              Inv (snd (@pair (completion unit) World (Normal tt) w0)) /\
              here (snd (@pair (completion unit) World (Normal tt) w0)) = mkPath v fs /\
              effect (snd (@pair (completion unit) World (Normal tt) w0)) = Untouched)
    by (repeat split; apply I0).
  destruct I0 as (_ & Cc & _).
  destruct (isVariableDeclarator v);
    [now rewrite (variableDeclarationVisitor_quiet w0 pre Cc M)|].
  destruct (isAssignmentExpression v);
    [now rewrite (assignmentExpressionVisitor_quiet w0 pre Cc M)|].
  destruct (isIdentifier v); [now rewrite (identifierVisitor_quiet w0 pre Cc M)|].
  exact Q.
Qed.

Lemma pluginLeave_plain (v : value) (fs : list frame) (w : World) :
  Inv w ->
  let r' := pluginLeave (setHere (mkPath v fs) w) in
  fst r' = Normal tt /\ Inv (snd r') /\ here (snd r') = mkPath v fs.
Proof.
  intros I. cbv zeta. set (w0 := setHere (mkPath v fs) w).
  assert (I0 : Inv w0) by exact I.
  unfold pluginLeave, bind, get. cbv beta iota zeta.
  destruct (isType "Program" _).
  { rewrite programExit_idle; [repeat split; apply I0|apply I0..]. }
  destruct (isFunctionDeclaration _); [|repeat split; apply I0].
  rewrite functionDeclarationExit_idle; [repeat split; apply I0|].
  intros K e. destruct I0 as (S0 & _ & ->). rewrite (Start_suffix w0 S0).
  apply cleared_idle.
Qed.

Lemma transformFile_plain (prog : value) :
  isType "Program" prog = true ->
  mentions pre prog = false ->
  fst (transformFile h r fileName prog) = Normal prog /\
  Inv (snd (transformFile h r fileName prog)).
Proof.
  intros T M. unfold transformFile.
  destruct (traverse_passes pluginEnter pluginLeave pluginEmbedded Inv Pre
              (fun v => negb (mentions pre v)))
    with (v := prog) (fs := @nil frame)
         (w := mkWorld h r (initialState fileName) (mkPath prog []) false Untouched)
    as (w' & E & I').
  - apply mentions_fields.
  - apply mentions_items.
  - intros v w I. now left.
  - intros v w [I|(T' & _)] N; [exact I|].
    destruct v as [| | | | | |fields]; try discriminate. now destruct (N fields).
  - intros v fs w. apply pluginEnter_plain.
  - intros v fs w _. apply pluginLeave_plain.
  - now rewrite M.
  - right. repeat split. exact T.
  - rewrite E. split; [reflexivity|exact I'].
Qed.

End PlainFile.

(** X7.  A processed file in which no node has a name that starts with the
    prefix comes out of the pass as it went in; no [require] is asked for,
    and the registry is what it was but for the entries of the file,
    which are reset. *)
Theorem file_without_managed_names_is_left_alone (h : Host) (r : registry)
    (fileName : option string) (prog : value) :
  isExcludeFile h (fileNameOf (initialState fileName)) = true ->
  isType "Program" prog = true ->
  mentions (configuredPrefix h) prog = false ->
  let out := transformFile h r fileName prog in
  fst out = Normal prog /\
  virtualRegistry (snd out) = resetVarsForFile_loop (keySuffix h fileName) r /\
  injectedRequires h (state (snd out)) = [].
Proof.
  intros X T M. cbv zeta.
  destruct (transformFile_plain h fileName r X prog T M)
    as (E & (_ & _ & G & U) & _ & R).
  repeat split; [exact E|exact R|]. unfold injectedRequires. now rewrite G, U.
Qed.

Lemma file_without_managed_names_is_left_alone_witness :
  let out := transformFile Scenario.moduleHost
               (virtualRegistry Scenario.atCounterAssignment)
               (Some "/app/src/Plain.js") Scenario.plainFile in
  fst out = Normal Scenario.plainFile /\
  virtualRegistry (snd out)
  = resetVarsForFile_loop (keySuffix Scenario.moduleHost (Some "/app/src/Plain.js"))
                          (virtualRegistry Scenario.atCounterAssignment) /\
  injectedRequires Scenario.moduleHost (state (snd out)) = [].
Proof.
  apply (file_without_managed_names_is_left_alone Scenario.moduleHost
           (virtualRegistry Scenario.atCounterAssignment)
           (Some "/app/src/Plain.js") Scenario.plainFile); reflexivity.
Defined.


Section UnregisteredNames.

Lemma anyNode_fields (f : list (string * value) -> bool) (fields : list (string * value)) :
  negb (anyNode f (Obj fields)) = true ->
  Forall (fun kv => negb (anyNode f (snd kv)) = true) fields.
Proof.
  cbn [anyNode]. rewrite negb_true_iff, orb_false_iff. intros [_ H].
  apply Forall_forall. intros kv I. rewrite negb_true_iff.
  destruct (anyNode f (snd kv)) eqn:E; [|reflexivity].
  rewrite <- H. symmetry. apply existsb_exists. now exists kv.
Qed.

Lemma anyNode_items (f : list (string * value) -> bool) (items : list value) :
  negb (anyNode f (Arr items)) = true ->
  Forall (fun c => negb (anyNode f c) = true) items.
Proof.
  cbn [anyNode]. rewrite negb_true_iff. intros H.
  apply Forall_forall. intros c I. rewrite negb_true_iff.
  destruct (anyNode f c) eqn:E; [|reflexivity].
  rewrite <- H. symmetry. apply existsb_exists. now exists c.
Qed.

Lemma anyNode_lookup (f : list (string * value) -> bool) (k : string)
    (fields : list (string * value)) :
  anyNode f (Obj fields) = false -> anyNode f (lookup k fields) = false.
Proof.
  intros H. pose proof (anyNode_fields f fields) as F.
  rewrite H in F. specialize (F eq_refl). clear H.
  induction F as [|[k' c] rest Hc _ IH]; cbn [lookup]; [reflexivity|].
  destruct (String.eqb k k'); [|exact IH]. now apply negb_true_iff in Hc.
Qed.

(** The visitors on a node below which nothing stirs *)
Section StillVisitors.
Variable w : World.
Variable pre : string.
Hypothesis config : casperConfig (state w) = Some pre.
Hypothesis still : anyNode (stirs pre (virtualRegistry w)) (focus (here w)) = false.

Lemma still_name (fields : list (string * value)) (n : string) :
  anyNode (stirs pre (virtualRegistry w)) (Obj fields) = false ->
  lookup "name" fields = Str n ->
  JsString.startsWith n pre = true ->
  findContextByVar_loop n (virtualRegistry w) = None.
Proof.
  cbn [anyNode]. unfold stirs. intros H L S.
  apply orb_false_iff in H as [H _]. apply orb_false_iff in H as [_ H].
  rewrite L, S in H. cbn [andb] in H.
  now destruct (findContextByVar_loop n (virtualRegistry w)).
Qed.

Lemma variableDeclarationVisitor_still :
  isVariableDeclarator (focus (here w)) = true ->
  variableDeclarationVisitor w = (Normal tt, w).
Proof.
  intros T.
  unfold variableDeclarationVisitor, variableDeclarationVisitor_body.
  unfold tryCatch, bind, get, lift, ret. cbv beta iota zeta.
  destruct (negb (isExcludeFile _ _)); [reflexivity|].
  destruct (focus (here w)) as [| | | | | |fields]; try discriminate.
  cbn [prop]. cbv beta iota zeta.
  destruct (prop "name" (lookup "id" fields)) as [nameV|] eqn:E2; [|reflexivity].
  assert (N : nameStartsWithPrefix nameV (state w) <> Normal true).
  { cbn [anyNode] in still. unfold stirs in still.
    apply orb_false_iff in still as [H _]. apply orb_false_iff in H as [H _].
    apply orb_false_iff in H as [_ H]. rewrite T in H. cbn [andb] in H.
    unfold nameStartsWithPrefix, prefixOf. rewrite config.
    destruct (lookup "id" fields); cbn [prop optProp] in *; inversion E2; subst;
      try discriminate.
    destruct (lookup "name" _); cbn [andThen]; congruence. }
  destruct (nameStartsWithPrefix nameV (state w)) as [[|]|]; [congruence|reflexivity..].
Qed.

Lemma identifierVisitor_still :
  exists b g,
    identifierVisitor w
    = (Normal tt, setState (setNeedsGblContext g (state w)) (setSeen b w)).
Proof.
  assert (Same : (Normal tt, w)
                 = (@Normal unit tt,
                    setState (setNeedsGblContext (needsGblContext (state w)) (state w))
                             (setSeen (seen w) w)))
    by (destruct w as [h r [f c i g u] p sn ef]; reflexivity).
  unfold identifierVisitor, identifierVisitor_body, findContextByVar, onRegistry,
    modifyState.
  unfold tryCatch, bind, get, lift, ret, modify, throw, zoom. cbv beta iota zeta.
  destruct (negb (isExcludeFile _ _)); [do 2 eexists; exact Same|].
  destruct (nameStartsWithPrefix _ (state w)) as [[|]|] eqn:P;
    [|do 2 eexists; exact Same..].
  cbn [negb].
  destruct (identifierGuards (here w)) as [[sk|]|]; [do 2 eexists; exact Same| |
                                                       do 2 eexists; exact Same].
  destruct (seen w) eqn:Sn; [do 2 eexists; exact Same|].
  cbn [here setState setSeen virtualRegistry].
  destruct (getRootParentComponent (here w)) as [[fp cmp]|];
    [|exists true, true; reflexivity].
  destruct (focus (here w)) as [| | | | | |fields] eqn:F;
    cbn [prop optProp] in *; try (exists true, true; reflexivity).
  destruct (lookup "name" fields) as [| | | |n| |] eqn:L;
    cbn [mustBeString]; try (exists true, true; reflexivity).
  unfold nameStartsWithPrefix, prefixOf in P. rewrite config in P. cbn [andThen] in P.
  injection P as S.
  cbn [virtualRegistry setState setSeen].
  rewrite (still_name fields n still L S). cbn [truthyKey].
  exists true, true. clear. destruct w. reflexivity.
Qed.

Lemma assignmentExpressionVisitor_still :
  exists g,
    assignmentExpressionVisitor w
    = (Normal tt, setState (setNeedsGblContext g (state w)) w).
Proof.
  assert (Same : (Normal tt, w)
                 = (@Normal unit tt,
                    setState (setNeedsGblContext (needsGblContext (state w)) (state w)) w))
    by (destruct w as [h r [f c i g u] p sn ef]; reflexivity).
  unfold assignmentExpressionVisitor, assignmentExpressionVisitor_body, findContextByVar,
    onRegistry, modifyState.
  unfold tryCatch, bind, get, lift, ret, modify, throw, zoom. cbv beta iota zeta.
  destruct (negb (isExcludeFile _ _)); [eexists; exact Same|].
  destruct (focus (here w)) as [| | | | | |fields] eqn:F;
    cbn [prop]; try (eexists; exact Same).
  pose proof (anyNode_lookup _ "left" fields still) as SL.
  destruct (lookup "left" fields) as [| | | | | |left] eqn:L;
    cbn [prop optProp]; try (eexists; exact Same).
  destruct (lookup "type" left) as [| | | |ty| |]; try (eexists; exact Same).
  destruct (negb (String.eqb ty IDENTIFIER)); [eexists; exact Same|].
  destruct (nameStartsWithPrefix _ (state w)) as [[|]|] eqn:P;
    [|eexists; exact Same..].
  cbn [negb here setState virtualRegistry].
  destruct (lookup "name" left) as [| | | |n| |] eqn:N;
    cbn [mustBeString]; try (exists true; reflexivity).
  unfold nameStartsWithPrefix, prefixOf in P. rewrite config in P. cbn [andThen] in P.
  injection P as S.
  cbn [virtualRegistry setState].
  rewrite (still_name left n SL N S). cbn [truthyKey].
  exists true. clear. destruct w. reflexivity.
Qed.

End StillVisitors.

Lemma programExit_program (h : Host) (r : registry) (st : PluginState)
    (body : list value) (sn : bool) (eff : Effect) :
  fst (programExit (mkWorld h r st (mkPath (program body) []) sn eff)) = Normal tt /\
  focus (here (snd (programExit (mkWorld h r st (mkPath (program body) []) sn eff))))
  = program (injectedRequires h st ++ body) /\
  core (snd (programExit (mkWorld h r st (mkPath (program body) []) sn eff)))
  = (h, r, st).
Proof.
  unfold injectedRequires.
  destruct st as [f c i g u]; destruct g, u; cbn; repeat split; reflexivity.
Qed.

Section StillFile.
Variable h : Host.
Variable fileName : option string.
Variable r : registry.

Let pre := configuredPrefix h.
Let cleared := resetVarsForFile_loop (keySuffix h fileName) r.

Let Inv (w : World) : Prop :=
  host w = h /\ filename (state w) = fileName /\
  needUseStateImport (state w) = false /\
  casperConfig (state w) = Some pre /\ virtualRegistry w = cleared.

Hypothesis processed : isExcludeFile h (fileNameOf (initialState fileName)) = true.

Lemma Inv_suffix (w : World) : Inv w -> fileSuffix w = keySuffix h fileName.
Proof.
  intros (H1 & H2 & _). unfold fileSuffix, keySuffix.
  now rewrite H1, (fileNameOf_filename (initialState fileName)).
Qed.

Lemma pluginEnter_still (v : value) (fs : list frame) (w : World) :
  negb (anyNode (stirs pre cleared) v) = true -> Inv w ->
  let r' := pluginEnter (setEffect Untouched (setSeen false (setHere (mkPath v fs) w))) in
  fst r' = Normal tt /\ Inv (snd r') /\ here (snd r') = mkPath v fs
  /\ effect (snd r') = Untouched.
Proof.
  intros M I. apply negb_true_iff in M. cbv zeta.
  set (w0 := setEffect Untouched (setSeen false (setHere (mkPath v fs) w))).
  assert (I0 : Inv w0) by exact I.
  assert (Cc : casperConfig (state w0) = Some pre) by apply I0.
  assert (St : anyNode (stirs pre (virtualRegistry w0)) (focus (here w0)) = false).
  { destruct I0 as (_ & _ & _ & _ & ->). exact M. }
  unfold pluginEnter, bind, get. cbv beta iota zeta.
  change (focus (here w0)) with v.
  destruct (isType "Program" v) eqn:T.
  { exfalso. destruct v as [| | | | | |fields]; try discriminate.
    cbn [anyNode] in M. unfold stirs in M. rewrite T in M. discriminate. }
  destruct (isVariableDeclarator v) eqn:D.
  { rewrite (variableDeclarationVisitor_still w0 pre Cc St D). repeat split; apply I0. }
  destruct (isAssignmentExpression v).
  { destruct (assignmentExpressionVisitor_still w0 pre Cc St) as (g & ->).
    repeat split; apply I0. }
  destruct (isIdentifier v).
  { destruct (identifierVisitor_still w0 pre Cc St) as (b & g & ->).
    repeat split; apply I0. }
  repeat split; apply I0.
Qed.

Lemma pluginLeave_still (v : value) (fs : list frame) (w : World) :
  negb (anyNode (stirs pre cleared) v) = true -> Inv w ->
  let r' := pluginLeave (setHere (mkPath v fs) w) in
  fst r' = Normal tt /\ Inv (snd r') /\ here (snd r') = mkPath v fs.
Proof.
  intros M I. apply negb_true_iff in M. cbv zeta. set (w0 := setHere (mkPath v fs) w).
  assert (I0 : Inv w0) by exact I.
  unfold pluginLeave, bind, get. cbv beta iota zeta.
  change (focus (here w0)) with v.
  destruct (isType "Program" v) eqn:T.
  { exfalso. destruct v as [| | | | | |fields]; try discriminate.
    cbn [anyNode] in M. unfold stirs in M. rewrite T in M. discriminate. }
  destruct (isFunctionDeclaration v); [|repeat split; apply I0].
  rewrite functionDeclarationExit_idle; [repeat split; apply I0|].
  intros K e. rewrite (Inv_suffix w0 I0).
  destruct I0 as (_ & _ & _ & _ & ->).
  unfold cleared. rewrite reset_loop_find.
  assert (E : JsString.endsWith (K ++ keySuffix h fileName) (keySuffix h fileName) = true)
    by (apply endsWith_iff; now exists K).
  rewrite E. destruct (find _ r); intros F; inversion F. reflexivity.
Qed.

Lemma program_still (body : list value) :
  existsb (anyNode (stirs pre cleared)) body = false ->
  exists fs' w',
    traverse (fun w : World => w) (fun w _ => w) pluginEnter pluginLeave pluginEmbedded
             (fun _ _ w => w) (program body) []
             (mkWorld h r (initialState fileName) (mkPath (program body) []) false
                      Untouched)
    = (Normal (Kept (program (injectedRequires h (state w') ++ body))), fs', w')
    /\ Inv w'.
Proof.
  intros M.
  set (w0 := mkWorld h r (initialState fileName) (mkPath (program body) []) false
                     Untouched).
  unfold program, node in *. cbn [traverse]. unfold visitAt.
  change (setEffect Untouched (setSeen false (setHere _ w0))) with w0.
  assert (E1 : pluginEnter w0 = programEnter w0) by reflexivity.
  rewrite E1.
  destruct (programEnter_spec w0) as (R & H1 & H2 & H3 & H4 & H5 & H6 & H7 & H8 & H9).
  cbv zeta in *.
  destruct (programEnter w0) as [c1 w1]. cbn [fst snd] in *. subst c1.
  assert (I1 : Inv w1).
  { unfold Inv, pre. rewrite H1, H5, H6, H8, H9.
    cbn [host state w0 filename needUseStateImport initialState virtualRegistry].
    rewrite processed. repeat split. }
  rewrite H4, H2. cbn [effect here frames focus w0].
  destruct (inFields_passes pluginEnter pluginLeave pluginEmbedded Inv (fun _ => Inv)
              (fun v => negb (anyNode (stirs pre cleared) v))
              (fun _ _ I => I)
              [("type", Str "Program"); ("body", Arr body)])
    with (hook := removalHook (Obj [("type", Str "Program"); ("body", Arr body)]))
         (before := @nil (string * value)) (up := @nil frame) (w := w1)
    as (w2 & E2 & I2).
  - apply Forall_forall. intros kv _.
    apply (traverse_passes pluginEnter pluginLeave pluginEmbedded Inv (fun _ => Inv)
             (fun v => negb (anyNode (stirs pre cleared) v))
             (anyNode_fields _) (anyNode_items _) (fun _ _ I => I)
             (fun _ _ P _ => P) pluginEnter_still pluginLeave_still).
  - repeat constructor. cbn [snd anyNode]. now rewrite M.
  - exact I1.
  - cbn [app] in E2. rewrite E2.
    set (w3 := setHere (mkPath (Obj [("type", Str "Program"); ("body", Arr body)]) []) w2).
    assert (E3 : pluginLeave w3 = programExit w3) by reflexivity.
    rewrite E3.
    destruct w2 as [h2 r2 st2 p2 sn2 ef2].
    destruct (programExit_program h2 r2 st2 body sn2 ef2) as (X1 & X2 & X3).
    unfold program, node in X1, X2, X3.
    change (mkWorld h2 r2 st2 (mkPath (Obj [("type", Str "Program"); ("body", Arr body)]) [])
                    sn2 ef2) with w3 in *.
    destruct (programExit w3) as [c4 w4]. cbn [fst snd] in *. subst c4.
    unfold core in X3. injection X3 as Y1 Y2 Y3.
    destruct I2 as (J1 & J2 & J3 & J4 & J5). cbn [host state virtualRegistry] in *.
    exists (frames (here w4)), w4. rewrite X2, Y3, J1. split; [reflexivity|].
    unfold Inv. rewrite Y1, Y2, Y3. repeat split; assumption.
Qed.

Lemma transformFile_still (body : list value) :
  existsb (anyNode (stirs pre cleared)) body = false ->
  let out := transformFile h r fileName (program body) in
  fst out = Normal (program (injectedRequires h (state (snd out)) ++ body)) /\
  Inv (snd out).
Proof.
  intros M. cbv zeta. unfold transformFile.
  destruct (program_still body M) as (fs' & w' & -> & I).
  split; [reflexivity|exact I].
Qed.

End StillFile.

(** X24.  A processed file that declares no variable with the prefix and
    names no variable that the registry lists once the entries of the file
    are reset: its statements come out as they went in, whatever reads and
    assignments of names with the prefix they hold; at most the [require]
    of the context module is put in front of them.  The registry is the
    one before with the entries of the file reset. *)
Theorem unregistered_names_are_left_alone (h : Host) (r : registry)
    (fileName : option string) (body : list value) :
  isExcludeFile h (fileNameOf (initialState fileName)) = true ->
  existsb (anyNode (stirs (configuredPrefix h)
                          (resetVarsForFile_loop (keySuffix h fileName) r))) body
  = false ->
  let out := transformFile h r fileName (program body) in
  fst out = Normal (program (injectedRequires h (state (snd out)) ++ body)) /\
  needUseStateImport (state (snd out)) = false /\
  virtualRegistry (snd out) = resetVarsForFile_loop (keySuffix h fileName) r.
Proof.
  intros X M. cbv zeta.
  destruct (transformFile_still h fileName r X body M) as (E & _ & _ & U & _ & R).
  repeat split; assumption.
Qed.

Lemma unregistered_names_are_left_alone_witness :
  let out := transformFile Scenario.moduleHost [] (Some "/app/src/Ghost.js")
               Scenario.ghostFile in
  fst out
  = Normal (program
              (injectedRequires Scenario.moduleHost (state (snd out))
               ++ [Scenario.component "Ghost"
                     [expressionStatement (identifier "_$_ghost")]])) /\
  needUseStateImport (state (snd out)) = false /\
  virtualRegistry (snd out)
  = resetVarsForFile_loop (keySuffix Scenario.moduleHost (Some "/app/src/Ghost.js")) [].
Proof.
  apply (unregistered_names_are_left_alone Scenario.moduleHost []
           (Some "/app/src/Ghost.js")
           [Scenario.component "Ghost" [expressionStatement (identifier "_$_ghost")]]);
    reflexivity.
Defined.

End UnregisteredNames.

End LeftAlone.

(** ** Imports of React *)

Section ImportsFound.
Import Js Constants Ast Path Registry Store Utility AstHelpers Traverse Visitors
       Properties.

Let knows (i : ImportState) : bool := truthy (reactId i) || truthy (useStateId i).

Lemma importStateResolver_spec_ok (i : ImportState) (spec : value) :
  specifierOK spec = true ->
  exists i',
    importStateResolver_spec i spec = Normal i' /\
    (knows i = true -> knows i' = true) /\
    (bindingSpecifier spec = true -> knows i' = true).
Proof.
  unfold specifierOK, bindingSpecifier, importStateResolver_spec, knows.
  intros H. apply andb_true_iff in H as [H1 H2].
  destruct (isType "ImportDefaultSpecifier" spec) eqn:D,
           (isType "ImportSpecifier" spec) eqn:S,
           (isType "ImportNamespaceSpecifier" spec) eqn:N;
    cbn [orb andb] in *;
    try (destruct (optProp "imported" spec) as [| | | | | |imported] eqn:I;
         try discriminate; 
         assert (P : prop "imported" spec = Normal (Obj imported))
           by (destruct spec; cbn [optProp prop] in *; congruence);
         rewrite P; cbn [andThen prop optProp] in *;
         destruct (lookup "name" imported) as [| | | |n| |];
         try destruct (String.eqb n REACT_IMPORT_USE_STATE_HOOKS_NAME));
    cbn [andThen reactId useStateId] in *;
    eexists; (split; [reflexivity|]); cbn [reactId useStateId];
    rewrite ?H2, ?orb_true_r; cbn [orb]; split; intros; try reflexivity;
    try assumption; try discriminate.
Qed.

Lemma foldC_spec_ok (l : list value) (i : ImportState) :
  forallb specifierOK l = true ->
  exists i',
    foldC importStateResolver_spec l i = Normal i' /\
    (knows i = true -> knows i' = true) /\
    (existsb bindingSpecifier l = true -> knows i' = true).
Proof.
  revert i. induction l as [|spec l IH]; intros i H; cbn [foldC forallb existsb] in *.
  - exists i. repeat split; [auto|discriminate].
  - apply andb_true_iff in H as [Hs Hl].
    destruct (importStateResolver_spec_ok i spec Hs) as (i1 & E1 & K1 & B1).
    rewrite E1. cbn [andThen].
    destruct (IH i1 Hl) as (i' & E & K & B). exists i'. split; [exact E|]. split.
    + auto.
    + intros X. apply orb_true_iff in X as [X|X]; auto.
Qed.

Lemma importStateResolver_node_ok (i : ImportState) (n : value) :
  importOK n = true ->
  exists i',
    importStateResolver_node i n = Normal i' /\
    (knows i = true -> knows i' = true) /\
    (bindsReact n = true -> knows i' = true).
Proof.
  unfold importOK, bindsReact, importStateResolver_node.
  destruct (isImportDeclaration n) eqn:T; cbn [negb andb];
    [|intros _; exists i; repeat split; [auto|discriminate]].
  destruct (optProp "source" n) as [| | | | | |source] eqn:So; try discriminate.
  assert (P : prop "source" n = Normal (Obj source))
    by (destruct n; cbn [optProp prop] in *; congruence).
  rewrite P. cbn [andThen prop optProp].
  destruct (lookup "value" source) as [| | | |v| |];
    try (intros _; exists i; repeat split; [auto|discriminate]).
  destruct (String.eqb v REACT_IMPORT_CORE_NAME); cbn [negb andb];
    [|intros _; exists i; repeat split; [auto|discriminate]].
  destruct (optProp "specifiers" n) as [| | | | |l|] eqn:Sp; try discriminate.
  assert (Q : prop "specifiers" n = Normal (Arr l))
    by (destruct n; cbn [optProp prop] in *; congruence).
  rewrite Q. cbn [andThen items]. intros H.
  match goal with
  | |- context [foldC importStateResolver_spec l ?i1] =>
      destruct (foldC_spec_ok l i1 H) as (i' & E & K & B)
  end.
  exists i'. split; [exact E|]. split; [exact K|exact B].
Qed.

Lemma foldC_node_ok (body : list value) (i : ImportState) :
  forallb importOK body = true ->
  exists i',
    foldC importStateResolver_node body i = Normal i' /\
    (knows i = true -> knows i' = true) /\
    (existsb bindsReact body = true -> knows i' = true).
Proof.
  revert i. induction body as [|n body IH]; intros i H; cbn [foldC forallb existsb] in *.
  - exists i. repeat split; [auto|discriminate].
  - apply andb_true_iff in H as [Hn Hb].
    destruct (importStateResolver_node_ok i n Hn) as (i1 & E1 & K1 & B1).
    rewrite E1. cbn [andThen].
    destruct (IH i1 Hb) as (i' & E & K & B). exists i'. split; [exact E|]. split.
    + auto.
    + intros X. apply orb_true_iff in X as [X|X]; auto.
Qed.

(** X23.  An import declaration from [react] that gives React or
    [useState] a local name is found wherever it stands among the
    statements of the file, whatever the statements around it are, as
    long as the import declarations are as the parser makes them. *)
Theorem react_import_is_found_anywhere (body : list value) :
  forallb importOK body = true ->
  existsb bindsReact body = true ->
  importsReact (program body) = true.
Proof.
  intros H B. unfold importsReact, importsOf.
  change (prop "body" (program body)) with (Normal (Arr body)).
  cbn [andThen items].
  destruct (foldC_node_ok body emptyImportState H) as (i' & E & _ & K).
  rewrite E. exact (K B).
Qed.

Lemma react_import_is_found_anywhere_witness :
  importsReact Scenario.reactCounterFile = true.
Proof.
  apply (react_import_is_found_anywhere
           [Scenario.importReact;
            Scenario.component "Counter"
              [Scenario.letDecl "_$_count" (numericLiteral 0);
               returnStatement (identifier "_$_count")]]);
    reflexivity.
Defined.

End ImportsFound.

(** ** Files that import React *)

Section ReactImport.
Import Js Constants Ast Path Registry Store Utility AstHelpers Traverse Visitors
       Properties.

Lemma importStateResolver_finds (w : World) (i : ImportState) :
  importsOf (focus (here w)) = Normal i ->
  importState (state (snd (importStateResolver w))) = Some i.
Proof.
  unfold importsOf, importStateResolver, thisNode, modifyState, andThen.
  unfold tryCatch, bind, get, lift, modify, ret. cbv beta iota zeta.
  destruct (prop "body" _) as [body|]; [|discriminate].
  destruct (items "forEach" body) as [l|]; [|discriminate].
  intros ->. reflexivity.
Qed.

Lemma reactOK_core (w w' : World) : core w' = core w -> reactOK w -> reactOK w'.
Proof. unfold core, reactOK. intros E. inversion E as [[E1 E2 E3]]. now rewrite E3. Qed.

Lemma markUseStateImport_reactOK : preserves reactOK markUseStateImport.
Proof.
  intros w [U K]. unfold markUseStateImport, bind, get. cbv beta iota zeta.
  unfold knowsReact in K. destruct (importState (state w)) as [i|] eqn:E; [|discriminate].
  apply orb_true_iff in K.
  destruct (truthy (reactId i)) eqn:T1, (truthy (useStateId i)) eqn:T2;
    cbn [negb andb ret snd];
    try (split; [exact U|unfold knowsReact; now rewrite E, T1, T2]).
  destruct K; discriminate.
Qed.

Ltac reactOK_step :=
  first [ apply preserves_ret | apply preserves_throw | apply preserves_lift
        | apply preserves_get
        | apply markUseStateImport_reactOK
        | apply preserves_modify; intros [? ? [] ? ? ?] H; exact H
        | apply preserves_zoom; intros [? ? [] ? ? ?] H; exact H
        | apply (preserves_keeps reactOK core _ reactOK_core), allOrNothing_core,
            builders_allOrNothing
        | apply preserves_bind; [|intros ?]
        | apply preserves_tryCatch; [|intros ?]
        | match goal with
          | |- preserves _ (if ?b then _ else _) => destruct b
          | |- preserves _ (match ?x with _ => _ end) => destruct x
          end ].

Lemma visitors_reactOK :
  preserves reactOK variableDeclarationVisitor /\
  preserves reactOK assignmentExpressionVisitor /\
  preserves reactOK identifierVisitor.
Proof.
  split; [|split].
  - unfold variableDeclarationVisitor, variableDeclarationVisitor_body, modifyState,
      onRegistry.
    repeat reactOK_step.
  - unfold assignmentExpressionVisitor, assignmentExpressionVisitor_body, modifyState,
      onRegistry.
    repeat reactOK_step.
  - unfold identifierVisitor, identifierVisitor_body, modifyState, onRegistry.
    repeat reactOK_step.
Qed.

Lemma programsImportReact_fields (fields : list (string * value)) :
  programsImportReact (Obj fields) = true ->
  Forall (fun kv => programsImportReact (snd kv) = true) fields.
Proof.
  cbn [programsImportReact]. intros H. apply andb_true_iff in H as [_ H].
  apply Forall_forall. rewrite forallb_forall in H. exact H.
Qed.

Lemma programsImportReact_items (items : list value) :
  programsImportReact (Arr items) = true ->
  Forall (fun c => programsImportReact c = true) items.
Proof.
  cbn [programsImportReact]. intros H.
  apply Forall_forall. rewrite forallb_forall in H. exact H.
Qed.

Lemma pluginEnter_reactOK (v : value) (fs : list frame) (w : World) :
  programsImportReact v = true ->
  reactOK w \/ (isType "Program" v = true /\ needUseStateImport (state w) = false) ->
  reactOK (snd (pluginEnter (setEffect Untouched
                               (setSeen false (setHere (mkPath v fs) w))))).
Proof.
  intros Cv P.
  set (w0 := setEffect Untouched (setSeen false (setHere (mkPath v fs) w))).
  unfold pluginEnter, bind, get. cbv beta iota zeta.
  change (focus (here w0)) with v.
  destruct (isType "Program" v) eqn:T.
  { assert (U : needUseStateImport (state w0) = false)
      by (destruct P as [[U _]|[_ U]]; exact U).
    destruct (programEnter_spec w0) as (_ & _ & _ & _ & _ & _ & _ & _ & H8 & _).
    cbv zeta in H8. split; [congruence|].
    assert (I : importsReact v = true).
    { destruct v as [| | | | | |fields]; try discriminate.
      cbn [programsImportReact] in Cv. rewrite T in Cv.
      now apply andb_true_iff in Cv as [Cv _]. }
    unfold importsReact in I. destruct (importsOf v) as [i|] eqn:E; [|discriminate].
    pose proof (programEnter_run w0) as R. cbv zeta in R. rewrite R. cbn [snd].
    match type of R with
    | context [importStateResolver ?w1] =>
        pose proof (importStateResolver_finds w1 i E) as F
    end.
    unfold knowsReact.
    destruct (isExcludeFile _ _); cbn [state setRegistry]; now rewrite F. }
  destruct P as [I|(T' & _)]; [|congruence].
  assert (I0 : reactOK w0) by exact I.
  destruct visitors_reactOK as (V1 & V2 & V3).
  destruct (isVariableDeclarator v); [now apply V1|].
  destruct (isAssignmentExpression v); [now apply V2|].
  destruct (isIdentifier v); [now apply V3|exact I0].
Qed.

(** X8.  When the file imports React (by default or as a namespace) or
    [useState], the pass never asks for the fallback
    [var _react = require("react")], whatever the file holds. *)
Theorem react_import_needs_no_fallback (h : Host) (r : registry)
    (fileName : option string) (prog : value) :
  isType "Program" prog = true ->
  programsImportReact prog = true ->
  needUseStateImport (state (snd (transformFile h r fileName prog))) = false.
Proof.
  intros T Cp.
  apply (transformFile_invariant reactOK
           (fun v w => reactOK w \/
                       (isType "Program" v = true /\ needUseStateImport (state w) = false))
           programsImportReact); auto.
  - apply programsImportReact_fields.
  - apply programsImportReact_items.
  - apply reactOK_core.
  - intros v w [I|(T' & _)] N; [exact I|].
    destruct v as [| | | | | |fields]; try discriminate. now destruct (N fields).
  - intros v fs w. apply pluginEnter_reactOK.
Qed.

Lemma react_import_needs_no_fallback_witness :
  needUseStateImport
    (state (snd (transformFile Scenario.moduleHost [] (Some "/app/src/Counter.js")
                   Scenario.reactCounterFile))) = false.
Proof.
  apply (react_import_needs_no_fallback Scenario.moduleHost []
           (Some "/app/src/Counter.js") Scenario.reactCounterFile); reflexivity.
Defined.

End ReactImport.

(** ** Declarations at module level and names that are not registered *)

Section LoneVisits.
Import Js Constants Ast Path Registry Store Utility AstHelpers Traverse Visitors
       Properties.

Lemma getInheritantDecComponent_loop_none (chain : list path) :
  existsb (fun q => isScope (focus q)) chain = false ->
  getInheritantDecComponent_loop chain = Normal Null.
Proof.
  induction chain as [|q chain IH]; cbn [existsb getInheritantDecComponent_loop];
    [reflexivity|].
  unfold isScope. intros H. apply orb_false_iff in H as [H1 H2].
  apply orb_false_iff in H1 as [H1 H4]. apply orb_false_iff in H1 as [H1 H3].
  apply orb_false_iff in H1 as [H1 H1'].
  rewrite H1, H1', H3, H4. cbn [orb]. now apply IH.
Qed.

(** X10.  A declaration of a managed variable outside every function and class
    is left alone: nothing is registered, no [require] is asked for. *)
Theorem module_level_declaration_is_left_alone (w : World) :
  existsb (fun q => isScope (focus q)) (here w :: ancestors (here w)) = false ->
  variableDeclarationVisitor w = (Normal tt, w).
Proof.
  intros H.
  unfold variableDeclarationVisitor, variableDeclarationVisitor_body.
  unfold tryCatch, bind, get, lift, ret. cbv beta iota zeta.
  unfold getInheritantDecComponent.
  rewrite (getInheritantDecComponent_loop_none _ H). cbn [orElse truthy negb].
  destruct (negb (isExcludeFile _ _)); [reflexivity|].
  destruct (prop "id" _) as [id|]; [|reflexivity].
  destruct (prop "name" id) as [nameV|]; [|reflexivity].
  destruct (nameStartsWithPrefix nameV (state w)) as [[|]|]; reflexivity.
Qed.

Lemma module_level_declaration_is_left_alone_witness :
  variableDeclarationVisitor Scenario.atModuleDeclarator
  = (Normal tt, Scenario.atModuleDeclarator).
Proof.
  apply (module_level_declaration_is_left_alone Scenario.atModuleDeclarator).
  reflexivity.
Defined.

(** X11.  A read of a name with the prefix that no entry of the registry lists:
    the identifier stays, the registry stays, and the file is marked as
    needing the context module, whose [require] the file exit then puts
    in. *)
Theorem unregistered_read_marks_the_file
    (w : World) (pre name : string) (fields : list (string * value)) :
  isExcludeFile (host w) (fileNameOf (state w)) = true ->
  casperConfig (state w) = Some pre ->
  optProp "name" (focus (here w)) = Str name ->
  JsString.startsWith name pre = true ->
  parent (here w) = Obj fields ->
  excludedPosition (here w) = false ->
  seen w = false ->
  findContextByVar_loop name (virtualRegistry w) = None ->
  identifierVisitor w
  = (Normal tt, setState (setNeedsGblContext true (state w)) (setSeen true w)).
Proof.
  intros Hf Hc Hn Hs Hp Hx Hseen Hfind.
  pose proof (identifierGuards_excluded (here w) fields Hp) as G.
  destruct (identifierGuards (here w)) as [[sk|]|e] eqn:EG;
    [congruence| |contradiction]. clear G.
  assert (Hpre : nameStartsWithPrefix (optProp "name" (focus (here w))) (state w)
                 = Normal true).
  { unfold nameStartsWithPrefix, prefixOf. rewrite Hn, Hc. cbn.
    rewrite Hs. reflexivity. }
  assert (Hname : prop "name" (focus (here w)) = Normal (Str name)).
  { destruct (focus (here w)); cbn [optProp prop] in *; congruence. }
  unfold identifierVisitor, identifierVisitor_body, tryCatch.
  rewrite bind_get. rewrite Hf. cbn [negb]. rewrite Hpre, bind_lift. cbn [negb].
  rewrite EG, bind_lift, Hseen, bind_modify.
  unfold modifyState. rewrite bind_modify.
  destruct (getRootParentComponent (here w)) as [[fp cmp]|]; [|reflexivity].
  cbn [here setState setSeen]. rewrite Hname, bind_lift. cbn [mustBeString].
  rewrite bind_lift.
  unfold onRegistry, findContextByVar, zoom, tryCatch, bind, get, ret.
  destruct w as [h r stt p sn ef]. cbn [virtualRegistry setState setSeen] in *.
  cbv beta iota zeta. rewrite Hfind. reflexivity.
Qed.

Lemma unregistered_read_marks_the_file_witness :
  identifierVisitor Scenario.atGhostRead
  = (Normal tt,
     setState (setNeedsGblContext true (state Scenario.atGhostRead))
              (setSeen true Scenario.atGhostRead)).
Proof.
  refine (unregistered_read_marks_the_file Scenario.atGhostRead "_$_" "_$_ghost"
            [("type", Str "ExpressionStatement");
             ("expression", identifier "_$_ghost")] _ _ _ _ _ _ _ _);
    reflexivity.
Defined.

End LoneVisits.

(** ** The names the builders use *)

Section BuilderFacts.
Import Js Constants Ast Path Registry Store Utility AstHelpers Traverse Visitors
       Properties.

Lemma toUpperCase_fixed (c : ascii) :
  JsString.toUpperCase c = c <-> JsString.isLowerAscii c = false.
Proof.
  destruct c as [[] [] [] [] [] [] [] []]; vm_compute; split; congruence.
Qed.

(** X12.  For a key that starts with an ASCII character: the state is
    named alike by the declaration [buildCtxUseStateDeclaration] builds and
    by the value [buildCtxProvider] hands to the provider; the setter is
    named alike exactly when the key does not start with a lower-case
    letter. *)
Theorem provider_names_the_declared_setter
    (st : PluginState) (i : ImportState) (objProps : list value)
    (c : ascii) (K : string) (react child : value) :
  JsString.isAscii c = true ->
  importState st = Some i ->
  typeOf react <> None ->
  typeOf child <> None ->
  exists init stateName declared provided,
    useStateDeclaration st objProps (String c K)
    = Normal (variableDeclaration "const"
                [variableDeclarator
                   (arrayPattern [identifier stateName; identifier declared]) init]) /\
    providerCall react (String c K) child
    = Normal (callExpression
                (memberExpression react (identifier "createElement") false)
                [memberExpression
                   (memberExpression (identifier "_gblContext")
                                     (identifier (String c K)) false)
                   (identifier "Provider") false;
                 objectExpression
                   [objectProperty (identifier "value")
                      (objectExpression
                         [objectProperty (identifier stateName) (identifier stateName)
                                         false true;
                          objectProperty (identifier provided) (identifier provided)
                                         false true])
                      false false];
                 child]) /\
    (declared = provided <-> JsString.isLowerAscii c = false).
Proof.
  intros _ Hi Hr Hc.
  unfold useStateDeclaration, providerCall. rewrite Hi.
  unfold mustBeNode.
  destruct (typeOf react); [|congruence]. destruct (typeOf child); [|congruence].
  cbn [charAt0Lower charAt0Upper JsString.lowerFirst JsString.upperFirst andThen].
  do 4 eexists. split; [reflexivity|]. split; [reflexivity|].
  rewrite <- toUpperCase_fixed. unfold _CCTX_SET. split.
  - intros E. cbn in E. congruence.
  - intros E. now rewrite E.
Qed.

Lemma provider_names_the_declared_setter_witness :
  exists init stateName declared provided,
    useStateDeclaration (mkState None None (Some emptyImportState) false false) []
                        "helper_1a2b3c4d"
    = Normal (variableDeclaration "const"
                [variableDeclarator
                   (arrayPattern [identifier stateName; identifier declared]) init]) /\
    providerCall (identifier "_react") "helper_1a2b3c4d" (identifier "x")
    = Normal (callExpression
                (memberExpression (identifier "_react") (identifier "createElement") false)
                [memberExpression
                   (memberExpression (identifier "_gblContext")
                                     (identifier "helper_1a2b3c4d") false)
                   (identifier "Provider") false;
                 objectExpression
                   [objectProperty (identifier "value")
                      (objectExpression
                         [objectProperty (identifier stateName) (identifier stateName)
                                         false true;
                          objectProperty (identifier provided) (identifier provided)
                                         false true])
                      false false];
                 identifier "x"]) /\
    (declared = provided <-> JsString.isLowerAscii "h"%char = false).
Proof.
  apply (provider_names_the_declared_setter
           (mkState None None (Some emptyImportState) false false) emptyImportState []
           "h"%char "elper_1a2b3c4d" (identifier "_react") (identifier "x"));
    [reflexivity|reflexivity|discriminate|discriminate].
Defined.

Lemma declaration_found (varName : string) (fields : list (string * value))
    (before rest decls : list value) (d : value) :
  forallb (fun s => negb (isVariableDeclaration s)) before = true ->
  isVariableDeclaration d = true ->
  optProp "declarations" d = Arr decls ->
  existsb (fun decl => isIdentifierNamed varName (optProp "id" decl)) decls = true ->
  lookup "body" fields = Arr (before ++ d :: rest) ->
  isContextInstanceDeclare (Obj fields) varName = true.
Proof.
  intros Hb Hd Hdecls Hfound L.
  unfold isContextInstanceDeclare, isContextInstanceDeclare_body.
  cbn [prop]. rewrite L. cbn [items]. clear L.
  induction before as [|s before IH]; cbn [app].
  - rewrite Hd. cbn [negb]. rewrite Hdecls. cbn [items]. now rewrite Hfound.
  - cbn [forallb] in Hb. apply andb_true_iff in Hb as [Hs Hb].
    rewrite Hs. now apply IH.
Qed.

(** X13.  The declaration [buildUseContextInstance] puts into the
    statements of a block, at the index [getInsertionIndex] gives, is the
    one [isContextInstanceDeclare] looks for, whatever the statements are:
    a block that has it gets no second one. *)
Theorem inserted_context_declaration_is_found
    (react : value) (K : string) (decl : value) (fields : list (string * value))
    (stmts : list value) :
  useContextDeclaration react K = Normal decl ->
  lookup "body" fields = Arr (insertAt (getInsertionIndex stmts) decl stmts) ->
  isContextInstanceDeclare (Obj fields) (_CCTX_ ++ K) = true.
Proof.
  intros D L.
  unfold useContextDeclaration, mustBeNode, andThen in D.
  destruct (typeOf react); [|discriminate]. inversion D; subst decl. clear D.
  unfold insertAt in L.
  eapply declaration_found with (5 := L).
  - unfold getInsertionIndex. destruct stmts as [|first rest]; [reflexivity|].
    destruct (isExpressionStatement first && _) eqn:E; [|reflexivity].
    apply andb_true_iff in E as [E _]. cbn [firstn forallb]. rewrite andb_true_r.
    unfold isExpressionStatement, isVariableDeclaration, isType in *.
    destruct (typeOf first); [|discriminate]. apply String.eqb_eq in E. now subst.
  - reflexivity.
  - reflexivity.
  - cbn. now rewrite String.eqb_refl.
Qed.

Lemma inserted_context_declaration_is_found_witness :
  isContextInstanceDeclare
    (blockStatement
       [Scenario.useStrictStatement;
        Scenario.useContextOf "Counter_1a2b3c4d";
        Scenario.letDecl "n" (numericLiteral 1);
        returnStatement (identifier "n")])
    "CTX_Counter_1a2b3c4d" = true.
Proof.
  apply (inserted_context_declaration_is_found (identifier "_react") "Counter_1a2b3c4d"
           (Scenario.useContextOf "Counter_1a2b3c4d")
           [("type", Str "BlockStatement");
            ("body", Arr [Scenario.useStrictStatement;
                          Scenario.useContextOf "Counter_1a2b3c4d";
                          Scenario.letDecl "n" (numericLiteral 1);
                          returnStatement (identifier "n")])]
           [Scenario.useStrictStatement;
            Scenario.letDecl "n" (numericLiteral 1);
            returnStatement (identifier "n")]); reflexivity.
Defined.


(** X14.  When the file imports [useState] from React by name and React itself
    neither by default nor as a namespace, the provider call is made on
    [_react], and the visitors do not ask for the [require] that binds
    [_react]. *)
Theorem named_import_leaves_react_unbound
    (w : World) (i : ImportState) (returnNode : value) (c : ascii) (K : string)
    (fields : list (string * value)) :
  importState (state w) = Some i ->
  truthy (reactId i) = false ->
  truthy (useStateId i) = true ->
  focus (here w) = Obj fields ->
  isJSXElement returnNode = false ->
  typeOf returnNode <> None ->
  markUseStateImport w = (Normal tt, w) /\
  exists args,
    focus (here (snd (buildCtxProvider returnNode (String c K) w)))
    = Obj (setField "argument"
             (callExpression
                (memberExpression (identifier "_react") (identifier "createElement") false)
                args)
             fields).
Proof.
  intros Hi Hr Hu Hf Hj Hn. split.
  - unfold markUseStateImport, bind, get. cbv beta iota zeta.
    rewrite Hi, Hr, Hu. reflexivity.
  - unfold buildCtxProvider, thisNode, mutateHere.
    unfold tryCatch, bind, get, lift, ret, throw, modify. cbv beta iota zeta.
    rewrite Hj. cbv beta iota zeta.
    unfold resolveReact. rewrite Hi, Hr.
    unfold providerCall, mustBeNode. cbn [typeOf identifier node optProp lookup String.eqb
                                           Ascii.eqb Bool.eqb andThen].
    destruct (typeOf returnNode); [|congruence].
    cbn [charAt0Lower JsString.lowerFirst andThen]. cbv beta iota zeta.
    rewrite Hf. cbn [snd here focus setEffect setHere replaceWith].
    eexists. reflexivity.
Qed.

Lemma named_import_leaves_react_unbound_witness :
  markUseStateImport Scenario.atNamedImportReturn
  = (Normal tt, Scenario.atNamedImportReturn) /\
  exists args,
    focus (here (snd (buildCtxProvider (identifier "_$_count") "Counter_1a2b3c4d"
                        Scenario.atNamedImportReturn)))
    = Obj (setField "argument"
             (callExpression
                (memberExpression (identifier "_react") (identifier "createElement") false)
                args)
             [("type", Str "ReturnStatement"); ("argument", identifier "_$_count")]).
Proof.
  apply (named_import_leaves_react_unbound Scenario.atNamedImportReturn
           (mkImportState Null (identifier "useState") false true false Null)
           (identifier "_$_count") "C"%char "ounter_1a2b3c4d");
    first [reflexivity | discriminate].
Defined.

End BuilderFacts.

(** ** Default values *)

Section InitValues.
Import Js Constants Ast Path Registry Store Utility AstHelpers Traverse Visitors
       Properties.

Lemma mapC_literal (ds : list value) :
  forallb scalar ds = true ->
  mapC valueOrNull (map literal ds) = Normal ds.
Proof.
  induction ds as [|d ds IH]; cbn [map mapC forallb]; [reflexivity|].
  intros H. apply andb_true_iff in H as [Hd H]. rewrite (IH H).
  destruct d; try discriminate; reflexivity.
Qed.

Lemma arrayIndex_identifier (k : string) :
  identifierKey k = true -> arrayIndex k = None.
Proof.
  destruct k as [|c t]; [discriminate|]. cbn [identifierKey arrayIndex digitsValue].
  intros H. apply negb_true_iff in H. rewrite H.
  now destruct (Ascii.eqb c "0" && negb (String.eqb t "")).
Qed.

Lemma assign_fresh (k : string) (v : value) (l : list (string * value)) :
  identifierKey k = true -> String.eqb k "__proto__" = false ->
  ~ In k (map fst l) -> assign k v l = l ++ [(k, v)].
Proof.
  intros I P N. unfold assign. rewrite P, (arrayIndex_identifier k I).
  assert (E : existsb (fun kv : string * value => String.eqb k (fst kv)) l = false).
  { destruct (existsb _ l) eqn:E; [|reflexivity].
    apply existsb_exists in E as ([k' v'] & In' & Q). apply String.eqb_eq in Q.
    exfalso. apply N. cbn [fst] in Q. subst k'. now apply (in_map fst) in In'. }
  now rewrite E.
Qed.

Lemma getVariableInitValue_object_literal (kds obj : list (string * value)) :
  NoDup (map fst obj ++ map fst kds) ->
  Forall (fun kd => identifierKey (fst kd) = true /\ plain (snd kd) = true) kds ->
  getVariableInitValue_object
    (map (fun kd : string * value =>
            objectProperty (identifier (fst kd)) (literal (snd kd)) false false) kds)
    obj
  = Normal (obj ++ filter notProto kds).
Proof.
  revert obj. induction kds as [|[k d] kds IH]; intros obj ND F;
    cbn [map getVariableInitValue_object filter]; [now rewrite app_nil_r|].
  inversion F as [|? ? [Hk Hd] F']; subst. cbn [fst snd] in *.
  assert (E : getVariableInitValue_object
                (objectProperty (identifier k) (literal d) false false
                 :: map (fun kd : string * value =>
                           objectProperty (identifier (fst kd)) (literal (snd kd))
                                          false false) kds) obj
              = getVariableInitValue_object
                  (map (fun kd : string * value =>
                          objectProperty (identifier (fst kd)) (literal (snd kd))
                                         false false) kds)
                  (assign k d obj)).
  { destruct d; try discriminate; destruct k; try discriminate; reflexivity. }
  cbn [map getVariableInitValue_object] in E |- *. rewrite E. clear E.
  assert (N : ~ In k (map fst obj)).
  { intros I. apply NoDup_remove_2 in ND. apply ND, in_or_app. now left. }
  assert (ND' : NoDup (map fst obj ++ map fst kds)).
  { apply NoDup_remove_1 in ND. exact ND. }
  unfold notProto at 1. cbn [fst].
  destruct (String.eqb k "__proto__") eqn:P; cbn [negb].
  - unfold assign. rewrite P. apply (IH obj ND' F').
  - rewrite (assign_fresh k d obj Hk P N), IH; [now rewrite <- app_assoc|idtac|exact F'].
    rewrite map_app. cbn [map fst]. rewrite <- app_assoc. exact ND.
Qed.

(** X15.  The default value of a declared variable is the value of its literal
    initializer: of an integer, a string or a boolean; of an array of these
    and of [null]s; of an object of these under distinct identifiers, but
    for a property named [__proto__], which the object does not get.  An
    initializer of any other kind gives no default. *)
Theorem literal_initializer_is_the_default
    (id : value) (fs : list frame) :
  (forall init ty,
     typeOf init = Some ty ->
     oneOf ty [NUMERIC_LITERAL; STRING_LITERAL; BOOLEAN_LITERAL; ARRAY_EXPRESSION;
               OBJECT_EXPRESSION] = false ->
     getVariableInitValue (mkPath (variableDeclarator id init) fs) = Undefined) /\
  (forall d, plain d = true ->
     getVariableInitValue (mkPath (variableDeclarator id (literal d)) fs) = d) /\
  (forall ds,
     forallb scalar ds = true ->
     getVariableInitValue
       (mkPath (variableDeclarator id (arrayExpression (map literal ds))) fs) = Arr ds) /\
  (forall kds,
     NoDup (map fst kds) ->
     Forall (fun kd => identifierKey (fst kd) = true /\ plain (snd kd) = true) kds ->
     getVariableInitValue (mkPath (variableDeclarator id (objectLiteral kds)) fs)
     = Obj (filter notProto kds)).
Proof.
  split; [|split; [|split]].
  - intros init ty T N. unfold getVariableInitValue, getVariableInitValue_body.
    cbn [focus]. change (prop "init" (variableDeclarator id init)) with (Normal init).
    cbn [andThen]. unfold typeOf in T.
    destruct init as [| | | | | |fields]; try discriminate.
    cbn [truthy negb prop optProp] in *.
    destruct (lookup "type" fields); try discriminate.
    inversion T; subst. cbn [andThen].
    unfold oneOf in N. cbn [existsb] in N.
    apply orb_false_iff in N as [E1 N]. apply orb_false_iff in N as [E2 N].
    apply orb_false_iff in N as [E3 N]. apply orb_false_iff in N as [E4 N].
    apply orb_false_iff in N as [E5 _]. now rewrite E1, E2, E3, E4, E5.
  - intros d H. destruct d; try discriminate; reflexivity.
  - intros ds H. unfold getVariableInitValue, getVariableInitValue_body.
    cbn [focus]. change (prop "init" (variableDeclarator id (arrayExpression (map literal ds))))
      with (Normal (arrayExpression (map literal ds))).
    cbn [andThen truthy arrayExpression node negb].
    change (prop "type" (Obj (("type", Str "ArrayExpression")
                                :: [("elements", Arr (map literal ds))])))
      with (Normal (Str "ArrayExpression")).
    cbn -[mapC literal]. now rewrite (mapC_literal ds H).
  - intros kds ND F. unfold getVariableInitValue, getVariableInitValue_body, objectLiteral.
    cbn -[getVariableInitValue_object map filter].
    rewrite (getVariableInitValue_object_literal kds [] ND F). reflexivity.
Qed.

Lemma literal_initializer_is_the_default_witness :
  getVariableInitValue
    (mkPath (variableDeclarator (identifier "_$_list")
               (arrayExpression (map literal [Num 1; Null; Str "a"]))) [])
  = Arr [Num 1; Null; Str "a"] /\
  getVariableInitValue
    (mkPath (variableDeclarator (identifier "_$_list")
               (objectLiteral [("a", Num 0); ("__proto__", Num 1); ("b", Bool false)])) [])
  = Obj (filter notProto [("a", Num 0); ("__proto__", Num 1); ("b", Bool false)]).
Proof.
  split.
  - apply (proj1 (proj2 (proj2 (literal_initializer_is_the_default
                                   (identifier "_$_list") [])))).
    reflexivity.
  - apply (proj2 (proj2 (proj2 (literal_initializer_is_the_default
                                   (identifier "_$_list") [])))).
    + repeat constructor; cbn; intuition discriminate.
    + repeat constructor; discriminate.
Defined.

(** The keys of the default object are in the order in which JavaScript
    enumerates them: the array indices first, in ascending order. *)
Lemma default_object_lists_indices_first :
  getVariableInitValue
    (mkPath (variableDeclarator (identifier "_$_map")
               (objectExpression
                  [objectProperty (identifier "b") (numericLiteral 1) false false;
                   objectProperty (numericLiteral 10) (stringLiteral "x") false false;
                   objectProperty (stringLiteral "2") (booleanLiteral true) false false]))
            [])
  = Obj [("2", Bool true); ("10", Str "x"); ("b", Num 1)].
Proof. reflexivity. Qed.

End InitValues.

(** ** The emitted files *)

Section Emission.
Import Js Constants Registry Post Properties.

Lemma readFile_writeFile (p q c : string) (l : list (string * string)) :
  readFile p (writeFile q c l) = if String.eqb p q then Some c else readFile p l.
Proof.
  induction l as [|[k v] l IH]; cbn [writeFile readFile].
  - destruct (String.eqb p q); reflexivity.
  - destruct (String.eqb q k) eqn:E; cbn [readFile].
    + apply String.eqb_eq in E. subst k. now destruct (String.eqb p q).
    + rewrite IH. destruct (String.eqb p k) eqn:E'; [|reflexivity].
      apply String.eqb_eq in E'. subst k. rewrite String.eqb_sym in E. now rewrite E.
Qed.

Lemma writeFile_writeFile (p c c' : string) (l : list (string * string)) :
  writeFile p c (writeFile p c' l) = writeFile p c l.
Proof.
  induction l as [|[k v] l IH]; cbn [writeFile].
  - now rewrite String.eqb_refl.
  - destruct (String.eqb p k) eqn:E; cbn [writeFile]; rewrite E; [reflexivity|].
    now rewrite IH.
Qed.

Lemma writeFile_same (p c : string) (l : list (string * string)) :
  readFile p l = Some c -> writeFile p c l = l.
Proof.
  induction l as [|[k v] l IH]; cbn [writeFile readFile]; [discriminate|].
  destruct (String.eqb p k); intros H; [now inversion H|]. now rewrite IH.
Qed.

Lemma generateContextContent_run (em : Emitter) (r : registry) :
  exists content,
    forall fs,
      generateContextContent em r fs
      = (Normal tt,
         if broken fs (CONTEXT_FILE_PATH em) then fs
         else mkFs (writeFile (CONTEXT_FILE_PATH em) content (files fs)) (broken fs)).
Proof.
  unfold generateContextContent, writeFileSync.
  destruct r as [|ke r].
  - exists "". intros fs. unfold tryCatch, bind, get, put, throw, ret.
    cbv beta iota zeta. now destruct (broken fs _).
  - eexists. intros fs. unfold tryCatch, bind, get, put, throw, ret.
    cbv beta iota zeta. destruct (broken fs _) eqn:B; [reflexivity|].
    cbn [broken files]. rewrite B. now rewrite writeFile_writeFile.
Qed.

Lemma generateLintGlobalJS_run (em : Emitter) (r : registry) :
  exists content,
    forall fs,
      generateLintGlobalJS em r fs
      = (Normal tt,
         match r with
         | [] => fs
         | _ :: _ =>
             if broken fs (ESLINT_GLOBAL_JS_PATH em) then fs
             else match readFile (ESLINT_GLOBAL_JS_PATH em) (files fs) with
                  | None => fs
                  | Some current =>
                      if String.eqb current content then fs
                      else mkFs (writeFile (ESLINT_GLOBAL_JS_PATH em) content (files fs))
                                (broken fs)
                  end
         end).
Proof.
  unfold generateLintGlobalJS, writeFileSync, readFileSync, utimesSync.
  destruct r as [|ke r]; [exists ""; reflexivity|].
  exists ("// ****** generated by CasperContext ******" ++ newline
          ++ "module.exports = {" ++ newline ++ lintGlobals (ke :: r) ++ newline
          ++ "};" ++ newline)%string.
  intros fs. unfold tryCatch, bind, get, put, throw, ret.
  cbv beta iota zeta. destruct (broken fs (ESLINT_GLOBAL_JS_PATH em)) eqn:B; [reflexivity|].
  destruct (readFile (ESLINT_GLOBAL_JS_PATH em) (files fs)) as [current|]; [|reflexivity].
  destruct (String.eqb current _); [reflexivity|].
  do 3 (cbn [broken files]; try rewrite B; cbv beta iota zeta).
  rewrite writeFile_writeFile.
  destruct (broken fs (eslintRcPath em)); [reflexivity|].
  destruct (readFile (eslintRcPath em) _); reflexivity.
Qed.

Lemma postProcess_run (em : Emitter) (r : registry) (fs : Fs) :
  postProcess em r fs
  = (Normal tt, snd (generateLintGlobalJS em r (snd (generateContextContent em r fs)))).
Proof.
  destruct (generateContextContent_run em r) as (c1 & H1).
  destruct (generateLintGlobalJS_run em r) as (c2 & H2).
  unfold postProcess, tryCatch, bind. rewrite H1. cbn [snd]. now rewrite H2.
Qed.

(** X16.  [postProcess] writes two files at most: every other file is as it
    was, and a lint file that is not there is not made. *)
Theorem postProcess_touches_two_files (em : Emitter) (r : registry) (fs : Fs)
    (p : string) :
  p <> CONTEXT_FILE_PATH em ->
  p <> ESLINT_GLOBAL_JS_PATH em \/ readFile p (files fs) = None ->
  readFile p (files (snd (postProcess em r fs))) = readFile p (files fs).
Proof.
  intros Nc Nl. rewrite postProcess_run. cbn [snd].
  destruct (generateContextContent_run em r) as (c1 & H1).
  destruct (generateLintGlobalJS_run em r) as (c2 & H2).
  rewrite H1, H2. cbn [snd].
  apply String.eqb_neq in Nc.
  assert (E1 : readFile p
                 (files (if broken fs (CONTEXT_FILE_PATH em) then fs
                         else mkFs (writeFile (CONTEXT_FILE_PATH em) c1 (files fs))
                                   (broken fs)))
               = readFile p (files fs)).
  { destruct (broken fs _); [reflexivity|]. cbn [files].
    now rewrite readFile_writeFile, Nc. }
  set (fs1 := if broken fs (CONTEXT_FILE_PATH em) then fs else _) in *.
  destruct r as [|ke r]; [exact E1|].
  destruct (broken fs1 _); [exact E1|].
  destruct (readFile (ESLINT_GLOBAL_JS_PATH em) (files fs1)) as [cur|] eqn:R;
    [|exact E1].
  destruct (String.eqb cur c2); [exact E1|]. cbn [files].
  rewrite readFile_writeFile.
  destruct (String.eqb p (ESLINT_GLOBAL_JS_PATH em)) eqn:E; [|exact E1].
  apply String.eqb_eq in E. subst p.
  destruct Nl as [N|N]; [congruence|]. rewrite E1 in R. congruence.
Qed.

Lemma postProcess_touches_two_files_witness :
  readFile "/app/casper-eslint.global.js"
    (files (snd (postProcess
                   (mkEmitter "/app/src/scopeContext/gblContext.js"
                              "/app/casper-eslint.global.js" "/app/.eslintrc.js"
                              (fun _ => "0"))
                   [("Counter_1a2b3c4d",
                     mkEntry ["_$_count"] (Some "_$_ctx_Counter_1a2b3c4d")
                             [("_$_count", Num 0)])]
                   (mkFs [] (fun _ => false)))))
  = readFile "/app/casper-eslint.global.js" (files (mkFs [] (fun _ => false))).
Proof.
  apply postProcess_touches_two_files.
  - discriminate.
  - right. reflexivity.
Defined.

Ltac fs_norm :=
  repeat first
    [ progress cbn [broken files]
    | rewrite readFile_writeFile
    | rewrite writeFile_writeFile
    | rewrite String.eqb_refl
    | match goal with
      | H : _ = true |- _ => rewrite H
      | H : _ = false |- _ => rewrite H
      | H : readFile _ _ = _ |- _ => rewrite H
      end ].

(** X17.  Emitting twice in a row leaves the files as emitting once
    does, whatever the registry, the files and the paths that cannot be
    written. *)
Theorem postProcess_idempotent (em : Emitter) (r : registry) (fs : Fs) :
  snd (postProcess em r (snd (postProcess em r fs))) = snd (postProcess em r fs).
Proof.
  rewrite !postProcess_run. cbn [snd].
  destruct (generateContextContent_run em r) as (c1 & H1).
  destruct (generateLintGlobalJS_run em r) as (c2 & H2).
  rewrite !H1, !H2. cbn [snd]. clear H1 H2.
  destruct fs as [l br]. cbn [broken files].
  set (ctx := CONTEXT_FILE_PATH em). set (lint := ESLINT_GLOBAL_JS_PATH em).
  destruct r as [|ke r].
  { destruct (br ctx) eqn:A; fs_norm; reflexivity. }
  destruct (br ctx) eqn:A, (br lint) eqn:B; fs_norm; try reflexivity.
  - (* only the lint file can be written *)
    destruct (readFile lint l) as [cur|] eqn:R; fs_norm; [|reflexivity].
    destruct (String.eqb cur c2) eqn:E; fs_norm; reflexivity.
  - destruct (String.eqb lint ctx) eqn:S; fs_norm.
    + (* one path for both files *)
      apply String.eqb_eq in S. rewrite S in *.
      destruct (String.eqb c1 c2) eqn:E; fs_norm; reflexivity.
    + assert (S' : String.eqb ctx lint = false) by now rewrite String.eqb_sym.
      destruct (readFile lint l) as [cur|] eqn:R; fs_norm; [|reflexivity].
      destruct (String.eqb cur c2) eqn:E; fs_norm; [reflexivity|].
      rewrite (writeFile_same ctx c1 (writeFile lint c2 (writeFile ctx c1 l)));
        fs_norm; reflexivity.
Qed.

Lemma prefix_app (p s : string) : String.prefix p (p ++ s) = true.
Proof.
  induction p as [|c p IH]; cbn; [now destruct s|].
  destruct (ascii_dec c c); [exact IH|congruence].
Qed.

Lemma slice_app (p s : string) : JsString.slice (String.length p) (p ++ s) = s.
Proof. induction p as [|c p IH]; cbn; [reflexivity|exact IH]. Qed.

Lemma replace_prefix (p s : string) : JsString.replace (p ++ s) p "" = s.
Proof.
  destruct p as [|c p]; [destruct s; reflexivity|].
  unfold JsString.replace. change (String c p ++ s)%string with (String c (p ++ s)).
  fold JsString.replace.
  pose proof (prefix_app (String c p) s) as H.
  change (String c p ++ s)%string with (String c (p ++ s)) in H.
  cbn [JsString.replace]. rewrite H.
  apply (slice_app (String c p) s).
Qed.

Lemma wellFormed_contextNames (r : registry) :
  Forall (fun ke => entryOK (fst ke) (snd ke)) r -> contextNames r = map fst r.
Proof.
  induction 1 as [|[k e] r (C & _ & _) _ IH]; [reflexivity|].
  unfold contextNames in *. cbn [flat_map map fst snd] in *.
  rewrite C, IH. unfold exportName. rewrite replace_prefix. reflexivity.
Qed.

(** X18.  The names the context module exports are the keys of a well-formed
    registry, each one once. *)
Theorem context_module_exports_each_key_once (r : registry) :
  wellFormed r -> contextNames r = map fst r /\ NoDup (contextNames r).
Proof.
  intros [ND OK]. rewrite (wellFormed_contextNames r OK). now split.
Qed.

Lemma context_module_exports_each_key_once_witness :
  let r := [("Counter_1a2b3c4d",
             mkEntry ["_$_count"] (Some "_$_ctx_Counter_1a2b3c4d")
                     [("_$_count", Num 0)]);
            ("Admin_1a2b3c4d",
             mkEntry [] (Some "_$_ctx_Admin_1a2b3c4d") [])] in
  contextNames r = map fst r /\ NoDup (contextNames r).
Proof.
  cbv zeta. apply context_module_exports_each_key_once. split.
  - repeat constructor; cbn; intuition discriminate.
  - repeat constructor; cbn; intuition discriminate.
Defined.

End Emission.

(** ** Before the pass: the context module and the configuration *)

Section Configuration.
Import Js Constants Registry Post Pre Config Properties.

(** X19.  [preProcess] returns, it changes no file that is there, and the only
    file it makes is the empty context module. *)
Theorem preProcess_makes_the_context_module_only
    (em : Emitter) (dirPath : string) (fs : Fs) (p : string) :
  fst (preProcess em dirPath fs) = Normal tt /\
  readFile p (files (snd (preProcess em dirPath fs)))
  = match readFile p (files fs) with
    | Some c => Some c
    | None =>
        if String.eqb p (CONTEXT_FILE_PATH em)
           && negb (broken fs dirPath) && negb (broken fs (CONTEXT_FILE_PATH em))
        then Some ""
        else None
    end.
Proof.
  unfold preProcess, createScopeContext, mkdirSync, writeFileSyncWx.
  unfold tryCatch, bind, get, put, throw, ret. cbv beta iota zeta.
  destruct (broken fs dirPath); cbn [negb andb fst snd];
    [rewrite andb_false_r; split; [reflexivity|now destruct (readFile p (files fs))]|].
  destruct (broken fs (CONTEXT_FILE_PATH em)) eqn:B; cbn [negb andb fst snd];
    [rewrite ?andb_false_r; split; [reflexivity|now destruct (readFile p (files fs))]|].
  rewrite !andb_true_r.
  destruct (readFile (CONTEXT_FILE_PATH em) (files fs)) as [c|] eqn:R; cbn [fst snd files].
  - split; [reflexivity|]. destruct (readFile p (files fs)) eqn:R'; [reflexivity|].
    destruct (String.eqb p _) eqn:E; [|reflexivity].
    apply String.eqb_eq in E. congruence.
  - split; [reflexivity|]. rewrite readFile_writeFile.
    destruct (String.eqb p _) eqn:E; [|now destruct (readFile p (files fs))].
    apply String.eqb_eq in E. subst p. now rewrite R.
Qed.

Lemma lookup_spread (k : string) (fields target : list (string * value)) :
  NoDup (map fst fields) ->
  lookup k (fold_left (fun o kv => setField (fst kv) (snd kv) o) fields target)
  = if hasKey k fields then lookup k fields else lookup k target.
Proof.
  revert target. induction fields as [|[a x] fields IH]; intros target ND;
    cbn [fold_left]; [reflexivity|].
  inversion ND as [|? ? Na ND']; subst. rewrite (IH _ ND'). cbn [fst snd].
  unfold hasKey. cbn [existsb lookup fst].
  destruct (String.eqb k a) eqn:E; cbn [orb].
  - apply String.eqb_eq in E. subst a.
    assert (H : existsb (fun kv => String.eqb k (fst kv)) fields = false).
    { destruct (existsb _ fields) eqn:X; [|reflexivity]. exfalso. apply Na.
      apply existsb_exists in X as (kv & I & Ek). apply String.eqb_eq in Ek. subst k.
      now apply in_map. }
    rewrite H. apply lookup_setField_same.
  - destruct (existsb _ fields); [reflexivity|].
    apply lookup_setField_other. now apply String.eqb_neq.
Qed.

Lemma readCasperConfig_cached (c : Reader) (cfg : list (string * value)) (d : Fs) :
  readCasperConfig c (mkConfigStore (Some cfg) d)
  = (Normal (Some cfg), mkConfigStore (Some cfg) d).
Proof. reflexivity. Qed.

Lemma readCasperConfig_first (c : Reader) (d : Fs) :
  exists cfg,
    readCasperConfig c (mkConfigStore None d)
    = (Normal (Some cfg), mkConfigStore (Some cfg) d).
Proof.
  unfold readCasperConfig, onDisk, existsSync, readFileSync, setCached.
  unfold tryCatch, bind, get, put, throw, ret, lift, modify, zoom.
  cbv beta iota zeta. cbn [cachedConfig disk].
  destruct (readFile _ (files d)) as [text|] eqn:R;
    repeat (cbv beta iota zeta; cbn [cachedConfig disk]; rewrite ?R);
    [|eexists; reflexivity].
  destruct (broken d _);
    repeat (cbv beta iota zeta; cbn [cachedConfig disk]; rewrite ?R);
    [eexists; reflexivity|].
  destruct (parse c text); cbv beta iota zeta; cbn [cachedConfig disk];
    eexists; reflexivity.
Qed.

(** X20.  The configuration is read once: the first call fixes it, and every
    later call gives the same configuration, whatever the files have
    become.  The files are left as they are. *)
Theorem configuration_is_read_once (c c' : Reader) (s : ConfigStore) (d' : Fs) :
  exists cfg,
    fst (readCasperConfig c s) = Normal (Some cfg) /\
    disk (snd (readCasperConfig c s)) = disk s /\
    readCasperConfig c'
      (mkConfigStore (cachedConfig (snd (readCasperConfig c s))) d')
    = (Normal (Some cfg), mkConfigStore (Some cfg) d').
Proof.
  destruct s as [[cfg|] d].
  - exists cfg. rewrite readCasperConfig_cached. repeat split.
  - destruct (readCasperConfig_first c d) as (cfg & ->). exists cfg. repeat split.
Qed.

(** X21.  From an empty cache: the keys of the object in the configuration
    file come with the values the file gives them, the other keys with
    their default values; a file that is missing, that cannot be read or
    that cannot be parsed gives the default configuration. *)
Theorem user_configuration_overrides_defaults (c : Reader) (d : Fs) :
  (forall text fields,
      broken d (CASPER_CONFIG_PATH c) = false ->
      readFile (CASPER_CONFIG_PATH c) (files d) = Some text ->
      parse c text = Normal (Obj fields) ->
      NoDup (map fst fields) ->
      exists cfg,
        fst (readCasperConfig c (mkConfigStore None d)) = Normal (Some cfg) /\
        forall k, lookup k cfg
                  = if hasKey k fields then lookup k fields
                    else lookup k DEFAULT_CONFIG) /\
  (readFile (CASPER_CONFIG_PATH c) (files d) = None \/
   broken d (CASPER_CONFIG_PATH c) = true \/
   (exists text e, readFile (CASPER_CONFIG_PATH c) (files d) = Some text /\
                   parse c text = Throw e) ->
   fst (readCasperConfig c (mkConfigStore None d)) = Normal (Some DEFAULT_CONFIG)).
Proof.
  unfold readCasperConfig, onDisk, existsSync, readFileSync, setCached.
  unfold tryCatch, bind, get, put, throw, ret, lift, modify, zoom.
  cbv beta iota zeta. cbn [cachedConfig disk]. split.
  - intros text fields B R P ND.
    repeat (cbv beta iota zeta; cbn [cachedConfig disk fst snd]; rewrite ?R, ?B, ?P).
    eexists. split; [reflexivity|]. intros k. unfold spread. cbn [ownProperties].
    now apply lookup_spread.
  - intros [R|[B|(text & e & R & P)]].
    + now rewrite R.
    + destruct (readFile _ _) eqn:R; [|reflexivity].
      repeat (cbv beta iota zeta; cbn [cachedConfig disk fst snd]; rewrite ?R, ?B).
      reflexivity.
    + repeat (cbv beta iota zeta; cbn [cachedConfig disk fst snd]; rewrite ?R).
      destruct (broken d _); [reflexivity|].
      repeat (cbv beta iota zeta; cbn [cachedConfig disk fst snd]; rewrite ?P).
      reflexivity.
Qed.

Lemma user_configuration_overrides_defaults_witness :
  (exists cfg,
      fst (readCasperConfig
             (mkReader "/app/.casperctxrc.json"
                       (fun _ => Normal (Obj [("prefix", Str "$$")])))
             (mkConfigStore None
                (mkFs [("/app/.casperctxrc.json", "{}")] (fun _ => false))))
      = Normal (Some cfg) /\
      forall k, lookup k cfg
                = if hasKey k [("prefix", Str "$$")]
                  then lookup k [("prefix", Str "$$")]
                  else lookup k DEFAULT_CONFIG) /\
  fst (readCasperConfig
         (mkReader "/app/.casperctxrc.json" (fun _ => Throw (TypeError "JSON")))
         (mkConfigStore None (mkFs [] (fun _ => false))))
  = Normal (Some DEFAULT_CONFIG).
Proof.
  split.
  - apply (proj1 (user_configuration_overrides_defaults
                    (mkReader "/app/.casperctxrc.json"
                              (fun _ => Normal (Obj [("prefix", Str "$$")])))
                    (mkFs [("/app/.casperctxrc.json", "{}")] (fun _ => false)))
                 "{}" [("prefix", Str "$$")]);
      try reflexivity.
    repeat constructor. intros [].
  - apply (proj2 (user_configuration_overrides_defaults
                    (mkReader "/app/.casperctxrc.json"
                              (fun _ => Throw (TypeError "JSON")))
                    (mkFs [] (fun _ => false)))).
    left. reflexivity.
Defined.

End Configuration.

(** ** What the traversal at the exit of an owner leaves *)

Section ExitLeaves.
Import Js Constants Ast Path Registry Store Utility AstHelpers Traverse Visitors
       Properties Scenario.

Section ExitInvariant.

(** *** Positions a node can be removed from *)

Lemma lookup_skip (k k0 : string) (v v' : value) (b a : list (string * value)) :
  String.eqb k k0 = false ->
  lookup k (b ++ (k0, v) :: a) = lookup k (b ++ (k0, v') :: a).
Proof.
  intros N. induction b as [|[k' x] b IH]; cbn [app lookup].
  - now rewrite N.
  - destruct (String.eqb k k'); [reflexivity|exact IH].
Qed.

Lemma isType_skip (ty k0 : string) (v v' : value) (b a : list (string * value)) :
  String.eqb "type" k0 = false ->
  isType ty (Obj (b ++ (k0, v) :: a)) = isType ty (Obj (b ++ (k0, v') :: a)).
Proof.
  intros N. unfold isType, typeOf. cbn [optProp].
  now rewrite (lookup_skip "type" k0 v v' b a N).
Qed.

(** What encloses a position decides whether a node can be removed from
    it, not the node. *)
Lemma removalHook_skip (k : string) (v v' : value) (b a : list (string * value)) :
  removalHook (Obj (b ++ (k, v) :: a)) k = removalHook (Obj (b ++ (k, v') :: a)) k.
Proof.
  destruct (String.eqb "type" k) eqn:N.
  - apply String.eqb_eq in N. subst k. unfold removalHook.
    change (String.eqb "type" "test") with false.
    change (String.eqb "type" "declaration") with false.
    change (String.eqb "type" "body") with false.
    change (String.eqb "type" "expression") with false.
    change (String.eqb "type" "consequent") with false.
    cbn [andb orb]. now rewrite !andb_false_r.
  - unfold removalHook, isLoop, isExpressionStatement, isArrowFunctionExpression, typeOf.
    cbn [optProp].
    rewrite !(isType_skip _ k v v' b a N), (lookup_skip "type" k v v' b a N).
    reflexivity.
Qed.

Lemma requiredSlot_skip (k : string) (v v' : value) (b a : list (string * value)) :
  requiredSlot (Obj (b ++ (k, v) :: a)) k = requiredSlot (Obj (b ++ (k, v') :: a)) k.
Proof.
  destruct (String.eqb "type" k) eqn:N.
  - apply String.eqb_eq in N. subst k. reflexivity.
  - unfold requiredSlot. now rewrite !(isType_skip _ k v v' b a N).
Qed.

Lemma removable_any (fs : list frame) (v v' : value) :
  removable v fs = removable v' fs.
Proof.
  revert v v'. induction fs as [|[b k a|b a] rest IH]; intros v v'; cbn [removable];
    [reflexivity| |reflexivity].
  rewrite (removalHook_skip k v v' b a), (requiredSlot_skip k v v' b a).
  destruct (removalHook _ k); [reflexivity|reflexivity|apply IH].
Qed.

Lemma calm_removable (fs : list frame) (v : value) :
  fs <> [] -> calm fs = true -> removable v fs = true.
Proof.
  destruct fs as [|f rest]; [congruence|]. intros _ C. cbn [calm] in C.
  apply andb_prop in C as [C _]. now rewrite (removable_any _ v Null).
Qed.

Lemma calm_tail (f : frame) (fs : list frame) : calm (f :: fs) = true -> calm fs = true.
Proof. cbn [calm]. intros C. now apply andb_prop in C. Qed.

Lemma calm_parentFrames (fs rest : list frame) :
  calm fs = true -> parentFrames fs = Some rest -> calm rest = true.
Proof.
  induction fs as [|[b k a|b a] fs IH]; cbn [parentFrames]; intros C E;
    [discriminate| |].
  - inversion E; subst. exact (calm_tail _ _ C).
  - exact (IH (calm_tail _ _ C) E).
Qed.

Lemma parentPath_frames (v : value) (fs : list frame) (q : path) :
  parentPath (mkPath v fs) = Some q -> parentFrames fs = Some (frames q).
Proof.
  unfold parentPath, ancestors. cbn [focus frames]. revert v.
  induction fs as [|[b k a|b a] fs IH]; intros v; cbn [ancestorsFrom parentFrames hd_error].
  - discriminate.
  - intros E. inversion E. reflexivity.
  - apply IH.
Qed.

(** At a steady position the visited node can be removed, and so can its
    parent. *)
Lemma steady_self (v : value) (fs : list frame) :
  steady fs -> removable v fs = true.
Proof. intros (N & C & _). exact (calm_removable fs v N C). Qed.

Lemma steady_parent (v : value) (fs : list frame) (q : path) :
  steady fs -> parentPath (mkPath v fs) = Some q ->
  removable (focus q) (frames q) = true.
Proof.
  intros (_ & C & f & r & E) P. apply parentPath_frames in P.
  rewrite E in P. injection P as F. rewrite <- F.
  apply calm_removable; [discriminate|].
  exact (calm_parentFrames fs (f :: r) C E).
Qed.

Lemma steady_item (before rest : list value) (up : list frame) :
  steady up -> steady (InItem before rest :: up).
Proof.
  intros (N & C & f & r & E). split; [discriminate|]. split.
  - cbn [calm removable]. exact C.
  - exists f, r. exact E.
Qed.

(** The position of a field of a node that does not hold its children
    fast. *)
Lemma steady_field (before rest : list (string * value)) (k : string) (c : value)
    (up : list frame) :
  up <> [] -> calm up = true ->
  holdsFast (before ++ (k, c) :: rest) = false ->
  steady (InField before k rest :: up) /\ calm (InField before k rest :: up) = true.
Proof.
  intros N C H.
  assert (R : removable Null (InField before k rest :: up) = true).
  { cbn [removable]. rewrite (removalHook_skip k Null c), (requiredSlot_skip k Null c).
    destruct (removalHook _ k); [|reflexivity|exact (calm_removable up _ N C)].
    unfold holdsFast in H. apply orb_false_iff in H as [H H3].
    apply orb_false_iff in H as [H1 H2].
    unfold requiredSlot. now rewrite H1, H2, H3, !andb_false_r. }
  assert (C' : calm (InField before k rest :: up) = true)
    by (cbn [calm]; now rewrite R, C).
  split; [|exact C']. split; [discriminate|]. split; [exact C'|].
  destruct up as [|f r]; [congruence|]. now exists f, r.
Qed.

Variable e : entry.
Variable pre : string.
Variable st : PluginState.
Hypothesis st_prefix : casperConfig st = Some pre.
Hypothesis st_react : hasManaged pre (resolveReact st) = false.

(** The provider call holds the returned expression as its third
    argument, and no managed declaration besides. *)
Lemma providerCall_shape (r : value) (s : string) (c call : value) :
  providerCall r s c = Normal call ->
  hasManaged pre r = false ->
  exists callee a1 a2,
    call = callExpression callee [a1; a2; c] /\
    hasManaged pre callee = false /\ hasManaged pre a1 = false /\
    hasManaged pre a2 = false.
Proof.
  unfold providerCall, mustBeNode, charAt0Lower.
  destruct (typeOf r); cbn [andThen]; [|discriminate].
  destruct (JsString.lowerFirst s); cbn [andThen]; [|discriminate].
  destruct (typeOf c); cbn [andThen]; [|discriminate].
  intros E Hr. inversion E. do 3 eexists. split; [reflexivity|].
  cbn. rewrite Hr. repeat split; reflexivity.
Qed.

(** What the visitors of the exit traversal do on entering a node at a
    steady position: they return, leave the state and the frames as they
    were, and either leave the node alone, remove it or the declaration
    above it, or put the provider call into a return statement.  A
    managed declarator in declarator context is never left alone. *)
Lemma exitEnter_spec (v : value) (fs : list frame) (x : ExitStore) :
  exitState x = st ->
  steady fs ->
  let x0 := visitAt exitWorld setExitWorld (mkPath v fs) x in
  exists x1,
    exitEnter e x0 = (Normal tt, x1) /\ exitState x1 = st /\
    frames (here (exitWorld x1)) = fs /\
    ((effect (exitWorld x1) = Untouched /\ focus (here (exitWorld x1)) = v /\
      (declaratorContext (mkPath v fs) = true -> managedDeclarator pre v = false))
     \/ effect (exitWorld x1) = SelfRemoved
     \/ effect (exitWorld x1) = ParentRemoved
     \/ (effect (exitWorld x1) = Mutated /\ isType "ReturnStatement" v = true /\
         managedDeclarator pre v = false /\
         exists callee a1 a2 child,
           optProp "argument" (focus (here (exitWorld x1)))
             = callExpression callee [a1; a2; child] /\
           hasManaged pre callee = false /\ hasManaged pre a1 = false /\
           hasManaged pre a2 = false)).
Proof.
  intros Hst Hfs x0. unfold exitEnter. rewrite bind_get.
  change (focus (here (exitWorld x0))) with v.
  destruct (isVariableDeclarator v) eqn:Hd.
  - unfold functionReturnVariableDelarationVisitor,
      functionReturnVariableDelarationVisitor_body.
    unfold tryCatch, bind, get, lift, modify, ret, onWorld, zoom.
    change (here (exitWorld x0)) with (mkPath v fs).
    change (state (exitWorld x0)) with (state (exitWorld x)).
    unfold exitState in Hst. rewrite Hst. unfold prefixOf. rewrite st_prefix.
    destruct (managedDeclarator pre v && declaratorContext (mkPath v fs)) eqn:Hm.
    + apply andb_prop in Hm as [Hm Hc]. unfold managedDeclarator in Hm.
      apply andb_prop in Hm as [_ Hn].
      unfold declaratorContext in Hc. apply andb_prop in Hc as [Hvd Hdl].
      destruct v as [| | | | | |fields]; try discriminate Hd.
      cbn [optProp focus prop] in *.
      unfold identifierName in Hn.
      destruct (isIdentifier (lookup "id" fields)) eqn:Hi; [|discriminate Hn].
      cbn [negb].
      destruct (lookup "id" fields) as [| | | | | |idf] eqn:Hid; try discriminate Hi.
      cbn [optProp focus prop] in *.
      destruct (lookup "name" idf) as [| | | |n| |] eqn:Hname; try discriminate Hn.
      cbn [mustBeString]. rewrite Hn. cbn [negb]. rewrite Hvd. cbn [negb].
      pose proof (steady_self (Obj fields) fs Hfs) as Rs.
      pose proof (steady_parent (Obj fields) fs) as Rp.
      unfold parent in *.
      destruct (parentPath (mkPath (Obj fields) fs)) as [q|] eqn:Hq;
        [|discriminate Hvd].
      specialize (Rp q Hfs eq_refl).
      destruct (focus q) as [| | | | | |pf] eqn:Hpar; try discriminate Hvd.
      cbn [optProp prop] in *.
      destruct (lookup "declarations" pf) as [| | | | |l|] eqn:Hl; try discriminate Hdl.
      cbn [lengthIsOne]. unfold remove. cbn [focus frames].
      rewrite ?Hpar, Rs, Rp.
      destruct (Nat.eqb (length l) 1); eexists; (split; [reflexivity|]); cbn;
        (split; [exact Hst|split; [reflexivity|]]); auto.
    + unfold remove, modify, throw.
      repeat innermost.
      all: eexists; (split; [reflexivity|]); cbn.
      all: split; [exact Hst|split; [reflexivity|]].
      all: try (right; left; reflexivity).
      all: try (right; right; left; reflexivity).
      all: left; split; [reflexivity|split; [reflexivity|]].
      all: intros Hc; rewrite Hc, andb_true_r in Hm; exact Hm.
  - destruct (isType "ReturnStatement" v) eqn:Hr.
    + unfold onWorld, zoom, functionDeclarationReturnStatementVisitor, buildCtxProvider.
      unfold thisNode, mutateHere.
      unfold tryCatch, bind, get, lift, modify, ret, throw.
      subst x0. unfold visitAt. cbv beta iota zeta.
      cbn [exitWorld setExitWorld here state setEffect setSeen setHere focus].
      unfold exitState in Hst.
      repeat (innermost; cbv beta iota zeta).
      all: eexists; (split; [reflexivity|]); cbn.
      all: split; [exact Hst|split; [reflexivity|]].
      all: try (left; split; [reflexivity|split; [reflexivity|]]; intros _;
                unfold managedDeclarator; rewrite Hd; reflexivity).
      cbn in Heqc0. rewrite Hst in Heqc0.
      apply providerCall_shape in Heqc0 as (callee & a1 & a2 & E & Hc & H1 & H2);
        [|exact st_react].
      right; right; right. split; [reflexivity|]. split; [reflexivity|].
      split; [unfold managedDeclarator; rewrite Hd; reflexivity|].
      exists callee, a1, a2, a. rewrite lookup_setField_same. auto.
    + eexists. split; [reflexivity|]. cbn. split; [exact Hst|split; [reflexivity|]].
      left. split; [reflexivity|split; [reflexivity|]]. intros _.
      unfold managedDeclarator. rewrite Hd. reflexivity.
Qed.

#[local] Abbreviation run := (exitRun e).
#[local] Abbreviation traversed := (Properties.traversed e pre st).
#[local] Abbreviation specialOK := (Properties.specialOK pre).

Lemma comesFrom_refl (v : value) : comesFrom v v.
Proof. split; auto. Qed.

Lemma existsb_snoc {A} (f : A -> bool) (l : list A) (a : A) :
  existsb f (l ++ [a]) = existsb f l || f a.
Proof. rewrite existsb_app. cbn. rewrite orb_false_r. reflexivity. Qed.

(** The items of a list: what is kept of them is settled. *)
Lemma inItems_exit (todo : list value) :
  Forall traversed todo ->
  Forall (fun c => loose c = true) todo ->
  forall before up gone x,
    exitState x = st ->
    steady up ->
    existsb (hasManaged pre) before = false ->
    (listContext up -> existsb (managedDeclarator pre) before = false) ->
    exists o x',
      inItems run before todo up gone x = (Normal o, up, x') /\
      exitState x' = st /\
      forall v', o = Kept v' ->
                 exists l', v' = Arr l' /\
                            existsb (hasManaged pre) l' = false /\
                            (listContext up ->
                             existsb (managedDeclarator pre) l' = false).
Proof.
  induction 1 as [|c rest Hc _ IH]; intros HL before up gone x Hst Hup Hclean Hdecl.
  - cbn. exists (if gone then ParentGone else Kept (Arr before)), x.
    split; [reflexivity|]. split; [exact Hst|].
    intros v' E. destruct gone; [discriminate|]. inversion E; subst.
    exists before. auto.
  - cbn [inItems].
    pose proof (Forall_inv HL) as Lc. pose proof (Forall_inv_tail HL) as Lrest.
    destruct (Hc (InItem before rest :: up) x Hst (steady_item before rest up Hup) Lc)
      as (o & x' & E & Hst' & Hset).
    rewrite E. cbn [tl]. destruct o as [c'| |].
    + destruct (Hset c' eq_refl) as ((Hcl & _ & _) & Hback & Hctx).
      apply IH; [exact Lrest|exact Hst'|exact Hup| |].
      * rewrite existsb_snoc, Hclean, Hcl. reflexivity.
      * intros L. rewrite existsb_snoc, (Hdecl L). cbn [orb].
        destruct (managedDeclarator pre c') eqn:M; [|reflexivity].
        rewrite (Hctx (L _ _ _)) in Hback. discriminate Hback. reflexivity.
    + apply IH; assumption.
    + apply IH; assumption.
Qed.

Lemma firstn_app_length {A} (l1 l2 : list A) : firstn (length l1) (l1 ++ l2) = l1.
Proof. induction l1; cbn; [destruct l2; reflexivity|congruence]. Qed.

Lemma skipn_app_length {A} (l1 l2 : list A) : skipn (length l1) (l1 ++ l2) = l2.
Proof. induction l1; cbn; [reflexivity|assumption]. Qed.

Lemma fine_wrapped (up : list frame) (c w : value) :
  wrapped pre w -> fine pre up c w.
Proof.
  intros (H1 & H2 & H3 & H4).
  split; [exact H1|]. split.
  - split.
    + intros s E. destruct (H2 s E).
    + intros n E. rewrite H4 in E. discriminate.
  - intros l' E. destruct (H3 l' E).
Qed.

Lemma fine_null (up : list frame) (c : value) : fine pre up c Null.
Proof.
  split; [reflexivity|]. split; [split|]; intros; discriminate.
Qed.

Lemma lookup_app (k : string) (l1 l2 : list (string * value)) :
  lookup k (l1 ++ l2) = if hasKey k l1 then lookup k l1 else lookup k l2.
Proof.
  induction l1 as [|[k' v] l1 IH]; cbn; [reflexivity|].
  destruct (String.eqb k k'); [reflexivity|exact IH].
Qed.

(** A node keeps its kind while its fields are traversed: a traversed
    field is a string only if it was that string. *)
Lemma holdsFast_step (before rest : list (string * value)) (k : string)
    (c c' : value) :
  (forall s, c' = Str s -> c = Str s) ->
  holdsFast (before ++ (k, c) :: rest) = false ->
  holdsFast ((before ++ [(k, c')]) ++ rest) = false.
Proof.
  intros S H. rewrite <- app_assoc. cbn [app].
  destruct (String.eqb "type" k) eqn:N.
  - apply String.eqb_eq in N. subst k.
    unfold holdsFast, isType, typeOf in *. cbn [optProp] in *.
    rewrite lookup_app in *. destruct (hasKey "type" before); [exact H|].
    cbn [lookup] in *. change (String.eqb "type" "type") with true in *.
    cbv beta iota in *.
    destruct c' as [| | | |s| |]; try reflexivity.
    now rewrite (S s eq_refl) in H.
  - unfold holdsFast in *. now rewrite !(isType_skip _ k c' c before rest N).
Qed.

(** The fields of a node: unless the node goes, each field ends up with
    a fine value. *)
Lemma inFields_exit (todo : list (string * value)) :
  Forall (fun kv => traversed (snd kv)) todo ->
  Forall (fun kv => loose (snd kv) = true) todo ->
  forall hook special before up gone x,
    exitState x = st ->
    specialOK special ->
    up <> [] -> calm up = true ->
    holdsFast (before ++ todo) = false ->
    exists fields' gone' x',
      inFields run hook special before todo up gone x
        = (Normal (fields', gone'), up, x') /\
      exitState x' = st /\
      (gone' = false ->
       gone = false /\
       exists added, fields' = (before ++ added)%list /\
                     FieldsDone pre up before todo added).
Proof.
  induction 1 as [|[k c] rest Hc _ IH];
    intros HL hook special before up gone x Hst Hsp Hne Hcalm Hfast.
  - cbn. exists before, gone, x. split; [reflexivity|]. split; [exact Hst|].
    intros G. split; [exact G|]. exists []. rewrite app_nil_r.
    split; [reflexivity|constructor].
  - cbn [inFields snd] in *.
    pose proof (Forall_inv HL) as Lc. pose proof (Forall_inv_tail HL) as Lrest.
    cbn [snd] in Lc.
    set (inner := match special with
                  | Some (k0, fr) => if String.eqb k k0 then fr else []
                  | None => []
                  end).
    set (special' := match special with
                     | Some (k0, _) => if String.eqb k k0 then None else special
                     | None => None
                     end).
    assert (Hsp' : specialOK special').
    { unfold special'. destruct special as [[k0 fr]|]; [|exact I].
      destruct (String.eqb k k0); [exact I|exact Hsp]. }
    assert (Hin : inner = [] \/ wrapper pre inner).
    { unfold inner. destruct special as [[k0 fr]|]; [|left; reflexivity].
      destruct (String.eqb k k0); [right; exact Hsp|left; reflexivity]. }
    destruct (steady_field before rest k c up Hne Hcalm Hfast) as (Sf & Cf).
    assert (Hsteady : steady (inner ++ InField before k rest :: up)).
    { destruct Hin as [Hin|(_ & _ & _ & Hin)].
      - rewrite Hin. exact Sf.
      - apply Hin; [discriminate|exact Cf]. }
    destruct (Hc (inner ++ InField before k rest :: up)%list x Hst Hsteady Lc)
      as (o & x' & E & Hst' & Hset).
    rewrite E. rewrite skipn_app_length, firstn_app_length. cbn [tl].
    assert (Hfine : forall c', o = Kept c' ->
                               fine pre (InField before k rest :: up) c (plug c' inner)).
    { intros c' Eo. destruct (Hset c' Eo) as (F & _ & _).
      destruct Hin as [Hin|(_ & Hin & _)].
      - rewrite Hin in *. exact F.
      - apply fine_wrapped, Hin, F. }
    assert (Hleft : snd (removedField (hook k) inner gone) = false ->
                    gone = false /\
                    fine pre (InField before k rest :: up) c
                         (fst (removedField (hook k) inner gone))).
    { destruct Hin as [Hin|(Hne' & _ & Hin & _)].
      - rewrite Hin. cbn [removedField].
        destruct (hook k); cbn [fst snd]; intros G;
          [split; [exact G|apply fine_null]
          |split; [exact G|apply fine_wrapped; repeat split; discriminate]
          |discriminate G].
      - destruct inner as [|f inner']; [destruct (Hne' eq_refl)|].
        cbn [removedField fst snd]. intros G. split; [exact G|].
        apply fine_wrapped, Hin. }
    assert (Hstr : forall s, fst (removedField (hook k) inner gone) = Str s -> c = Str s).
    { destruct Hin as [Hin|(Hne' & _ & (_ & Hin & _) & _)].
      - rewrite Hin. cbn [removedField]. destruct (hook k); cbn [fst]; discriminate.
      - destruct inner as [|f inner']; [destruct (Hne' eq_refl)|].
        cbn [removedField fst]. intros s Es. destruct (Hin s Es). }
    destruct o as [c'| |].
    + destruct (IH Lrest hook special' (before ++ [(k, plug c' inner)]) up gone x'
                   Hst' Hsp' Hne Hcalm)
        as (fields' & gone' & x'' & E' & Hst'' & Hdone).
      { apply (holdsFast_step before rest k c); [|exact Hfast].
        apply (Hfine c' eq_refl). }
      exists fields', gone', x''. split; [exact E'|]. split; [exact Hst''|].
      intros G. destruct (Hdone G) as (G0 & added & Ef & FD). split; [exact G0|].
      exists ((k, plug c' inner) :: added). split.
      * rewrite Ef, <- app_assoc. reflexivity.
      * constructor; [apply Hfine; reflexivity|exact FD].
    + cbv zeta.
      destruct (IH Lrest hook special'
                   (before ++ [(k, fst (removedField (hook k) inner gone))]) up
                   (snd (removedField (hook k) inner gone)) x' Hst' Hsp' Hne Hcalm)
        as (fields' & gone' & x'' & E' & Hst'' & Hdone).
      { apply (holdsFast_step before rest k c); [exact Hstr|exact Hfast]. }
      exists fields', gone', x''. split; [exact E'|]. split; [exact Hst''|].
      intros G. destruct (Hdone G) as (G0 & added & Ef & FD).
      destruct (Hleft G0) as (G1 & F). split; [exact G1|].
      exists ((k, fst (removedField (hook k) inner gone)) :: added). split.
      * rewrite Ef, <- app_assoc. reflexivity.
      * constructor; [exact F|exact FD].
    + destruct (IH Lrest hook special' (before ++ [(k, c)]) up true x' Hst' Hsp'
                   Hne Hcalm)
        as (fields' & gone' & x'' & E' & Hst'' & Hdone).
      { apply (holdsFast_step before rest k c); [auto|exact Hfast]. }
      exists fields', gone', x''. split; [exact E'|]. split; [exact Hst''|].
      intros G. destruct (Hdone G) as (G0 & _). discriminate G0.
Qed.

Lemma FieldsDone_clean up before todo added :
  FieldsDone pre up before todo added ->
  existsb (fun kv => hasManaged pre (snd kv)) added = false.
Proof.
  induction 1 as [|before k c rest c' added F _ IH]; [reflexivity|].
  cbn. destruct F as (F & _). rewrite F, IH. reflexivity.
Qed.

Lemma FieldsDone_lookup up before todo added :
  FieldsDone pre up before todo added ->
  forall k, comesFrom (lookup k todo) (lookup k added).
Proof.
  induction 1 as [|before k0 c rest c' added F _ IH]; intros k.
  - apply comesFrom_refl.
  - cbn. destruct (String.eqb k k0); [apply F|apply IH].
Qed.

Lemma isType_Obj (ty : string) (fields : list (string * value)) :
  isType ty (Obj fields) = true <-> lookup "type" fields = Str ty.
Proof.
  unfold isType, typeOf. cbn [optProp].
  destruct (lookup "type" fields) as [| | | |ty'| |]; split; intros H;
    try discriminate H.
  - apply String.eqb_eq in H. congruence.
  - inversion H. apply String.eqb_refl.
Qed.

(** Where the traversed fields make a declaration, its declarators hold
    no managed one. *)
Lemma FieldsDone_declarations up before todo added :
  FieldsDone pre up before todo added ->
  hasKey "declarations" before = false ->
  lookup "type" (before ++ added) = Str "VariableDeclaration" ->
  forall l', lookup "declarations" (before ++ added) = Arr l' ->
             existsb (managedDeclarator pre) l' = false.
Proof.
  induction 1 as [before|before k c rest c' added F FD IH]; intros Hk Ht l' Hl.
  - rewrite app_nil_r, <- (app_nil_r before), lookup_app, Hk in Hl. discriminate Hl.
  - destruct (String.eqb "declarations" k) eqn:Ek.
    + rewrite lookup_app, Hk in Hl. cbn [lookup] in Hl. rewrite Ek in Hl.
      destruct F as (_ & _ & F). apply (F l' Hl).
      intros b d r. unfold declaratorContext.
      cbn [parent parentPath ancestors ancestorsFrom hd_error focus frames optProp].
      assert (Hty : lookup "type" (before ++ (k, Arr (b ++ d :: r)) :: rest)
                    = Str "VariableDeclaration").
      { rewrite lookup_app in Ht |- *. destruct (hasKey "type" before); [exact Ht|].
        cbn [lookup] in Ht |- *. destruct (String.eqb "type" k) eqn:Et.
        - apply String.eqb_eq in Ek, Et. congruence.
        - apply (FieldsDone_lookup _ _ _ _ FD "type"). exact Ht. }
      apply isType_Obj in Hty. unfold isVariableDeclaration. rewrite Hty.
      rewrite lookup_app, Hk. cbn [lookup]. rewrite Ek. reflexivity.
    + apply IH.
      * unfold hasKey in *. rewrite existsb_snoc, Hk. cbn [fst orb]. exact Ek.
      * rewrite <- app_assoc. exact Ht.
      * rewrite <- app_assoc. exact Hl.
Qed.

(** A node made of traversed fields holds no managed declaration, and is
    an identifier or a managed declarator only if the node it comes from
    was. *)
Lemma FieldsDone_settled up fields fields' :
  FieldsDone pre up [] fields fields' ->
  hasManaged pre (Obj fields') = false /\
  comesFrom (Obj fields) (Obj fields') /\
  (managedDeclarator pre (Obj fields') = true ->
   managedDeclarator pre (Obj fields) = true).
Proof.
  intros FD. pose proof (FieldsDone_lookup _ _ _ _ FD) as L.
  assert (Hid : forall n, identifierName (Obj fields') = Some n ->
                          identifierName (Obj fields) = Some n).
  { intros n. unfold identifierName, isIdentifier.
    destruct (isType "Identifier" (Obj fields')) eqn:T; [|discriminate].
    apply isType_Obj in T. apply (L "type") in T. apply isType_Obj in T.
    rewrite T. cbn [optProp].
    destruct (lookup "name" fields') as [| | | |m| |] eqn:N; try discriminate.
    apply (L "name") in N. rewrite N. auto. }
  split; [|split; [split|]].
  - cbn [hasManaged]. rewrite (FieldsDone_clean _ _ _ _ FD), orb_false_r.
    destruct (isVariableDeclaration (Obj fields')) eqn:T; [|reflexivity].
    apply isType_Obj in T. cbn [andb].
    destruct (lookup "declarations" fields') as [| | | | |l'|] eqn:D; try reflexivity.
    apply (FieldsDone_declarations _ _ _ _ FD eq_refl T l' D).
  - discriminate.
  - exact Hid.
  - unfold managedDeclarator, isVariableDeclarator. intros M.
    apply andb_prop in M as [T M]. apply isType_Obj in T. apply (L "type") in T.
    apply isType_Obj in T. rewrite T. cbn [andb optProp] in *.
    destruct (identifierName (lookup "id" fields')) as [n|] eqn:I; [|discriminate].
    apply (L "id") in I. rewrite I. exact M.
Qed.

Lemma settled_scalar (fs : list frame) (v : value) :
  (forall l, v <> Arr l) -> (forall f, v <> Obj f) -> settled pre fs v v.
Proof.
  intros HA HO. split; [split; [|split]|split].
  - destruct v; try reflexivity; [destruct (HA _ eq_refl)|destruct (HO _ eq_refl)].
  - apply comesFrom_refl.
  - intros l' E. destruct (HA _ E).
  - auto.
  - intros _. destruct v; try reflexivity. destruct (HO _ eq_refl).
Qed.

Lemma provider_wrapper (callee a1 a2 child : value) :
  hasManaged pre callee = false -> hasManaged pre a1 = false ->
  hasManaged pre a2 = false ->
  exists inner,
    framesInside [Field "arguments"; Item 2] (callExpression callee [a1; a2; child])
      = Some inner /\
    wrapper pre inner.
Proof.
  intros Hc H1 H2. eexists. split; [reflexivity|]. split; [discriminate|].
  split; [|split].
  - intros c Hclean. cbn. unfold wrapped. cbn.
    rewrite Hc, H1, H2, ?Hclean. repeat split; discriminate.
  - cbn. unfold wrapped. cbn. rewrite Hc, H1, H2. repeat split; discriminate.
  - intros up Hne Hcalm.
    assert (C : calm ([InItem [a1; a2] [];
                       InField [("type", Str "CallExpression"); ("callee", callee)]
                               "arguments" []] ++ up) = true).
    { cbn [app calm removable]. rewrite Hcalm. reflexivity. }
    split; [discriminate|]. split; [exact C|].
    destruct up as [|f r]; [congruence|]. now exists f, r.
Qed.

Lemma exitEmbedded_return (old new : value) :
  isType "ReturnStatement" old = true ->
  exitEmbedded old new = Some ("argument", [Field "arguments"; Item 2]).
Proof. intros H. unfold exitEmbedded. rewrite H. reflexivity. Qed.

Lemma loose_fields (fields : list (string * value)) :
  loose (Obj fields) = true ->
  holdsFast fields = false /\ Forall (fun kv => loose (snd kv) = true) fields.
Proof.
  intros L. split.
  - unfold loose in L. cbn [anyNode] in L. apply negb_true_iff in L.
    now apply orb_false_iff in L.
  - exact (anyNode_fields holdsFast fields L).
Qed.

(** The exit traversal of any value, by induction on the value. *)
Lemma traverse_exit (v : value) : traversed v.
Proof.
  induction v as [| | b | z | s | items IH | fields IH] using value_nested_ind;
    intros fs x Hst Hfs Hl.
  1-5: eexists (Kept _), x; (split; [reflexivity|]); (split; [exact Hst|]);
       intros v' E; inversion E; subst; apply settled_scalar; discriminate.
  - destruct (inItems_exit items IH (anyNode_items holdsFast items Hl) [] fs false x
                Hst Hfs eq_refl (fun _ => eq_refl))
      as (o & x' & E & Hst' & Hs).
    exists o, x'. split; [exact E|]. split; [exact Hst'|].
    intros v' Eo. destruct (Hs v' Eo) as (l' & -> & Hcl & Hd).
    split; [split; [exact Hcl|split]|split].
    + split; [discriminate|]. intros n H. discriminate H.
    + intros l Ev L. inversion Ev; subst. exact (Hd L).
    + intros M. discriminate M.
    + reflexivity.
  - unfold exitRun. cbn [traverse].
    destruct (loose_fields fields Hl) as (Hfast & Lkids).
    destruct Hfs as (Hne & Hcalm & Hpar).
    destruct (exitEnter_spec (Obj fields) fs x Hst (conj Hne (conj Hcalm Hpar)))
      as (x1 & E1 & Hst1 & Hfs1 & Heff).
    cbv zeta in E1. rewrite E1. rewrite Hfs1.
    destruct Heff as [(Ef & Ev & Hctx)|[Ef|[Ef|(Ef & Hr & Hm & callee & a1 & a2 & child & Ea & Hc & H1 & H2)]]];
      rewrite Ef.
    + (* untouched *)
      destruct (inFields_exit fields IH Lkids (removalHook (Obj fields)) None [] fs false
                  x1 Hst1 I Hne Hcalm Hfast)
        as (fields' & gone' & x2 & E2 & Hst2 & Hdone).
      fold (exitRun e). rewrite E2. destruct gone'.
      * exists Gone, x2. split; [reflexivity|]. split; [exact Hst2|]. discriminate.
      * cbn. eexists _, _. split; [reflexivity|]. split; [exact Hst2|].
        intros v' Ev'. inversion Ev'; subst v'.
        destruct (Hdone eq_refl) as (_ & added & -> & FD).
        destruct (FieldsDone_settled _ _ _ FD) as (S1 & S2 & S3).
        split; [split; [exact S1|split; [exact S2|discriminate]]|split; assumption].
    + (* removed *)
      exists Gone, x1. split; [reflexivity|]. split; [exact Hst1|]. discriminate.
    + (* the declaration above is removed *)
      destruct (inFields_exit fields IH Lkids (removalHook (Obj fields)) None [] fs false
                  x1 Hst1 I Hne Hcalm Hfast)
        as (fields' & gone' & x2 & E2 & Hst2 & Hdone).
      fold (exitRun e). rewrite E2.
      eexists _, _. split; [reflexivity|]. split; [exact Hst2|]. discriminate.
    + (* a return statement *)
      rewrite (exitEmbedded_return _ _ Hr), Ea.
      destruct (provider_wrapper callee a1 a2 child Hc H1 H2) as (inner & Ei & W).
      rewrite Ei.
      destruct (inFields_exit fields IH Lkids (removalHook (Obj fields))
                  (Some ("argument", inner)) [] fs false x1 Hst1 W Hne Hcalm Hfast)
        as (fields' & gone' & x2 & E2 & Hst2 & Hdone).
      fold (exitRun e). rewrite E2. destruct gone'.
      * exists Gone, x2. split; [reflexivity|]. split; [exact Hst2|]. discriminate.
      * cbn. eexists _, _. split; [reflexivity|]. split; [exact Hst2|].
        intros v' Ev'. inversion Ev'; subst v'.
        destruct (Hdone eq_refl) as (_ & added & -> & FD).
        destruct (FieldsDone_settled _ _ _ FD) as (S1 & S2 & S3).
        split; [split; [exact S1|split; [exact S2|discriminate]]|split; auto].
Qed.

End ExitInvariant.

(** X27.  The traversal that [functionDeclarationExit] runs over an owner
    goes through the whole subtree of the owner, nested functions
    included.  When no [for]-[in] or [for]-[of] loop and no [with]
    statement is in the owner, it returns, and in what it keeps no
    declaration of a managed variable is left at any depth (no
    [VariableDeclaration] whose [declarations] hold a declarator whose
    [id] is an identifier that starts with the prefix).  The plugin state
    has the prefix and no managed declaration inside the node that names
    React; the owner is a node below the root that could itself be
    removed, like the nodes above it. *)
Theorem exitTraverse_leaves_no_managed_declaration
    (e : entry) (pre : string) (p : path) (x : ExitStore) :
  casperConfig (state (exitWorld x)) = Some pre ->
  hasManaged pre (resolveReact (state (exitWorld x))) = false ->
  isFunctionDeclaration (focus p) = true ->
  loose (focus p) = true ->
  frames p <> [] ->
  calm (frames p) = true ->
  exists o x',
    exitTraverse e p x = (Normal o, frames p, x') /\
    forall v', o = Kept v' -> hasManaged pre v' = false.
Proof.
  intros Hp Hr Hf Hl Hne Hc.
  pose proof (traverse_exit e pre (state (exitWorld x)) Hp Hr) as T.
  unfold exitTraverse, traverseChildren.
  destruct (focus p) as [| | b | z | s | items | fields] eqn:Ef; try discriminate Hf.
  destruct (loose_fields fields Hl) as (Hfast & Lkids).
  assert (Hkids : Forall (fun kv => traversed e pre (state (exitWorld x)) (snd kv))
                         fields).
  { apply Forall_forall. intros kv _. apply T. }
  destruct (inFields_exit e pre (state (exitWorld x)) fields Hkids Lkids
              (removalHook (Obj fields)) None [] (frames p) false x eq_refl I
              Hne Hc Hfast)
    as (fields' & gone' & x' & E & _ & Hdone).
  fold (exitRun e). rewrite E.
  eexists _, x'. split; [reflexivity|].
  intros v' Eo. destruct gone'; [discriminate Eo|]. inversion Eo; subst v'.
  destruct (Hdone eq_refl) as (_ & added & -> & FD).
  apply (FieldsDone_settled pre _ _ _ FD).
Qed.

Lemma exitTraverse_leaves_no_managed_declaration_witness :
  exists o x',
    exitTraverse (mkEntry ["_$_x"] (Some "_$_ctx_App_1a2b3c4d") [("_$_x", Num 0)])
                 (pathAt [Traverse.Field "body"; Traverse.Item 0] nestedFile)
                 (mkExit (mkWorld moduleHost [] (state atCounterAssignment)
                            (pathAt [Traverse.Field "body"; Traverse.Item 0] nestedFile)
                            false Untouched) [])
      = (Normal o, frames (pathAt [Traverse.Field "body"; Traverse.Item 0] nestedFile),
         x') /\
    forall v', o = Kept v' -> hasManaged "_$_" v' = false.
Proof.
  apply (exitTraverse_leaves_no_managed_declaration
           (mkEntry ["_$_x"] (Some "_$_ctx_App_1a2b3c4d") [("_$_x", Num 0)]) "_$_"
           (pathAt [Traverse.Field "body"; Traverse.Item 0] nestedFile)
           (mkExit (mkWorld moduleHost [] (state atCounterAssignment)
                      (pathAt [Traverse.Field "body"; Traverse.Item 0] nestedFile)
                      false Untouched) []));
    first [reflexivity | discriminate].
Defined.

End ExitLeaves.
